(** * The rental aggregate: services, repository and the create route

    A shallow embedding of the service layer of the rental plugin
    ([src/services/rental.ts], [src/services/rental-variant.ts], the
    collection service), of the relation-hydration code of
    [src/repositories/rental.ts] and of the admin create-rental route.

    The relational database is a record of tables (lists of rows, in
    insertion order).  Service methods are computations in a state-and-
    exception monad over that record; a database transaction runs its body
    and restores the tables when the body throws.  Events staged on the
    event bus inside a transaction live in the same record and are rolled
    back with it.

    The ORM is taken by its contract: a query sees the rows that are not
    soft-deleted, also among joined relations, unless it runs
    [withDeleted]; [save] writes the entity it is given; unique indexes
    other than the primary keys are not represented. *)

From Stdlib Require Import String List Bool Arith ZArith Lia Permutation FinFun.
From Stdlib Require Import Ascii DecimalString.
Import ListNotations.
Open Scope string_scope.
Open Scope list_scope.

Set Implicit Arguments.

(** ** Errors *)

(** [MedusaError.Types] as far as the services use them. *)
Inductive MedusaErrorType : Type :=
| NOT_FOUND
| INVALID_DATA
| DUPLICATE_ERROR.

(** What a service call can throw: a typed [MedusaError], the JavaScript
    [TypeError] of a property access on [undefined], or the error the
    database driver raises for a violated column constraint. *)
Inductive Exn : Type :=
| MedusaError (t : MedusaErrorType)
| TypeError
| QueryFailedError.

Inductive Outcome (A : Type) : Type :=
| Ok (a : A)
| Throw (e : Exn).

Arguments Ok {A} a.
Arguments Throw {A} e.

(** ** Rows *)

(** Soft-deletable rows carry [deleted_at]; only whether it is set matters
    here, so it is a boolean.  Scalar columns that no service branches on
    (dimensions, customs codes, barcodes ...) travel with the row exactly as
    [title] and [sku] do and are left out. *)

Record RentalRow : Type := mkRentalRow {
  r_id : string;
  r_title : string;
  r_description : option string;
  r_thumbnail : option string;
  r_is_giftcard : bool;
  r_discountable : bool;
  r_profile_id : string;
  r_type_id : option string;
  r_collection_id : option string;
  r_deleted : bool
}.

Record RentalOptionRow : Type := mkRentalOptionRow {
  o_id : string;
  o_title : string;
  o_rental_id : string;
  o_deleted : bool
}.

Record RentalVariantRow : Type := mkRentalVariantRow {
  v_id : string;
  v_title : option string;
  v_rental_id : string;
  v_sku : option string;
  v_variant_rank : option Z;
  v_inventory_quantity : option Z;
  v_metadata : list (string * string);
  v_deleted : bool
}.

Record RentalOptionValueRow : Type := mkRentalOptionValueRow {
  ov_id : string;
  ov_value : string;
  ov_option_id : string;
  ov_variant_id : string;
  ov_deleted : bool
}.

(** [MoneyAmount], the price entity of the host platform. *)
Record MoneyAmountRow : Type := mkMoneyAmountRow {
  ma_id : string;
  ma_variant_id : string;
  ma_region_id : option string;
  ma_currency_code : option string;
  ma_amount : Z;
  ma_price_list_id : option string;
  ma_deleted : bool
}.

Record RentalCollectionRow : Type := mkRentalCollectionRow {
  c_id : string;
  c_title : string;
  c_deleted : bool
}.

(** A row of one of the join tables [rental_images], [rental_tags] and the
    sales-channel table: the relation name, the rental and the target, which
    is identified by its natural key (image url, tag value, channel id). *)
Record LinkRow : Type := mkLinkRow {
  l_relation : string;
  l_rental_id : string;
  l_target : string
}.

(** An event staged on the event bus: name, subject id, changed fields. *)
Record Event : Type := mkEvent {
  ev_name : string;
  ev_id : string;
  ev_fields : list string
}.

(** ** The database *)

(** A table is the list of its rows, in the order in which the database
    hands them to a query that asks for no order. *)
Record Store : Type := mkStore {
  rentals : list RentalRow;
  rental_options : list RentalOptionRow;
  rental_variants : list RentalVariantRow;
  rental_option_values : list RentalOptionValueRow;
  money_amounts : list MoneyAmountRow;
  rental_collections : list RentalCollectionRow;
  links : list LinkRow;
  (** [RegionService]: region id and its currency code *)
  regions : list (string * string);
  (** [ShippingProfileService.retrieveDefault / retrieveGiftCardDefault] *)
  default_profile : string;
  gift_card_profile : string;
  (** [FlagRouter.isFeatureEnabled(SalesChannelFeatureFlag.key)] *)
  sales_channels_enabled : bool;
  events : list Event;
  (** supply for [generateEntityId] *)
  next_id : nat
}.

Definition set_rentals (f : list RentalRow -> list RentalRow) (s : Store) : Store :=
  mkStore (f (rentals s)) (rental_options s) (rental_variants s)
    (rental_option_values s) (money_amounts s) (rental_collections s) (links s)
    (regions s) (default_profile s) (gift_card_profile s)
    (sales_channels_enabled s) (events s) (next_id s).

Definition set_rental_options (f : list RentalOptionRow -> list RentalOptionRow)
  (s : Store) : Store :=
  mkStore (rentals s) (f (rental_options s)) (rental_variants s)
    (rental_option_values s) (money_amounts s) (rental_collections s) (links s)
    (regions s) (default_profile s) (gift_card_profile s)
    (sales_channels_enabled s) (events s) (next_id s).

Definition set_rental_variants (f : list RentalVariantRow -> list RentalVariantRow)
  (s : Store) : Store :=
  mkStore (rentals s) (rental_options s) (f (rental_variants s))
    (rental_option_values s) (money_amounts s) (rental_collections s) (links s)
    (regions s) (default_profile s) (gift_card_profile s)
    (sales_channels_enabled s) (events s) (next_id s).

Definition set_rental_option_values
  (f : list RentalOptionValueRow -> list RentalOptionValueRow) (s : Store) : Store :=
  mkStore (rentals s) (rental_options s) (rental_variants s)
    (f (rental_option_values s)) (money_amounts s) (rental_collections s) (links s)
    (regions s) (default_profile s) (gift_card_profile s)
    (sales_channels_enabled s) (events s) (next_id s).

Definition set_money_amounts (f : list MoneyAmountRow -> list MoneyAmountRow)
  (s : Store) : Store :=
  mkStore (rentals s) (rental_options s) (rental_variants s)
    (rental_option_values s) (f (money_amounts s)) (rental_collections s) (links s)
    (regions s) (default_profile s) (gift_card_profile s)
    (sales_channels_enabled s) (events s) (next_id s).

Definition set_rental_collections
  (f : list RentalCollectionRow -> list RentalCollectionRow) (s : Store) : Store :=
  mkStore (rentals s) (rental_options s) (rental_variants s)
    (rental_option_values s) (money_amounts s) (f (rental_collections s)) (links s)
    (regions s) (default_profile s) (gift_card_profile s)
    (sales_channels_enabled s) (events s) (next_id s).

Definition set_links (f : list LinkRow -> list LinkRow) (s : Store) : Store :=
  mkStore (rentals s) (rental_options s) (rental_variants s)
    (rental_option_values s) (money_amounts s) (rental_collections s) (f (links s))
    (regions s) (default_profile s) (gift_card_profile s)
    (sales_channels_enabled s) (events s) (next_id s).

Definition set_events (f : list Event -> list Event) (s : Store) : Store :=
  mkStore (rentals s) (rental_options s) (rental_variants s)
    (rental_option_values s) (money_amounts s) (rental_collections s) (links s)
    (regions s) (default_profile s) (gift_card_profile s)
    (sales_channels_enabled s) (f (events s)) (next_id s).

Definition set_next_id (f : nat -> nat) (s : Store) : Store :=
  mkStore (rentals s) (rental_options s) (rental_variants s)
    (rental_option_values s) (money_amounts s) (rental_collections s) (links s)
    (regions s) (default_profile s) (gift_card_profile s)
    (sales_channels_enabled s) (events s) (f (next_id s)).

(** ** The service monad *)

(** A computation reads and writes the tables and either returns or throws.
    A throw keeps the writes made so far: undoing them is the business of
    the enclosing [transaction]. *)
Definition M (A : Type) : Type := Store -> Outcome A * Store.

Definition ret {A} (a : A) : M A := fun s => (Ok a, s).

Definition throw {A} (e : Exn) : M A := fun s => (Throw e, s).

Definition bind {A B} (m : M A) (k : A -> M B) : M B :=
  fun s =>
    match m s with
    | (Ok a, s') => k a s'
    | (Throw e, s') => (Throw e, s')
    end.

Declare Scope monad_scope.
Delimit Scope monad_scope with monad.
Notation "x <- m ;; k" := (bind m (fun x => k))
  (at level 61, m at next level, right associativity) : monad_scope.
Notation "m ;;; k" := (bind m (fun _ => k))
  (at level 61, right associativity) : monad_scope.
Open Scope monad_scope.

Definition get : M Store := fun s => (Ok s, s).

Definition modify (f : Store -> Store) : M unit := fun s => (Ok tt, f s).

(** [for (const x of xs) { await body(x) }] *)
Fixpoint forM_ {A} (xs : list A) (body : A -> M unit) : M unit :=
  match xs with
  | [] => ret tt
  | x :: xs' => body x ;;; forM_ xs' body
  end.

(** A loop that collects one result per element, in order. *)
Fixpoint mapM {A B} (body : A -> M B) (xs : list A) : M (list B) :=
  match xs with
  | [] => ret []
  | x :: xs' => y <- body x ;; ys <- mapM body xs' ;; ret (y :: ys)
  end.

(** A promise that is made and not awaited on the spot: the work is
    started, and its outcome, a result or a rejection, is kept for whoever
    awaits the promise later. *)
Definition started {A} (m : M A) : M (Outcome A) :=
  fun s => let (o, s') := m s in (Ok o, s').

(** Awaiting a promise whose outcome is known. *)
Definition settled {A} (o : Outcome A) : M A := fun s => (o, s).

(** [EntityManager.transaction(body)]: commit when the body returns, roll
    every write back when it throws. *)
Definition transaction {A} (body : M A) : M A :=
  fun s =>
    match body s with
    | (Ok a, s') => (Ok a, s')
    | (Throw e, _) => (Throw e, s)
    end.

(** [TransactionBaseService.atomicPhase_]: a service obtained through
    [withTransaction(manager)] has its [transactionManager_] set and runs the
    work inside the caller's transaction; otherwise the work gets a
    transaction of its own.  [tx] says whether [transactionManager_] is set. *)
Definition atomicPhase_ {A} (tx : bool) (work : M A) : M A :=
  if tx then work else transaction work.

(** ** Helpers standing for JavaScript and ORM primitives *)

Definition string_of_nat (n : nat) : string :=
  NilEmpty.string_of_uint (Nat.to_uint n).

(** [generateEntityId(undefined, prefix)]: a fresh id with the prefix. *)
Definition generateEntityId (prefix : string) : M string :=
  fun s => (Ok (prefix ++ "_" ++ string_of_nat (next_id s))%string,
            set_next_id S s).

(** [a === b] on possibly undefined strings. *)
Definition opt_eqb (a b : option string) : bool :=
  match a, b with
  | Some x, Some y => String.eqb x y
  | None, None => true
  | _, _ => false
  end.

Definition emit (name id : string) (fields : list string) : M unit :=
  modify (set_events (fun evs => evs ++ [mkEvent name id fields])).

(** A default query sees a soft-deletable row only while [deleted_at] is
    unset; [withDeleted] lifts the restriction. *)
Definition visible (withDeleted deleted : bool) : bool :=
  withDeleted || negb deleted.

(** ** Entities *)

(** What the ORM hands to the services: a row together with the relations
    that were asked for.  A relation that was not loaded is [undefined]
    ([None]); reading [.length] or calling [.find] on it is a [TypeError]. *)

Record RentalVariant : Type := mkRentalVariant {
  ve_row : RentalVariantRow;
  ve_options : option (list RentalOptionValueRow);
  ve_prices : option (list MoneyAmountRow)
}.

(** [e_select] is the column projection the entity was read with; the empty
    list stands for all columns.  [e_links] holds the loaded relations that
    are backed by a join table, keyed by relation name. *)
Record Rental : Type := mkRental {
  e_row : RentalRow;
  e_select : list string;
  e_options : option (list RentalOptionRow);
  e_variants : option (list RentalVariant);
  e_links : list (string * list string)
}.

Definition e_id (e : Rental) : string := r_id (e_row e).

Definition ve_id (v : RentalVariant) : string := v_id (ve_row v).

(** ** Strings *)

Definition lower_ascii (c : Ascii.ascii) : Ascii.ascii :=
  let n := Ascii.nat_of_ascii c in
  if Nat.leb 65 n && Nat.leb n 90 then Ascii.ascii_of_nat (n + 32) else c.

Fixpoint lower (s : string) : string :=
  match s with
  | EmptyString => EmptyString
  | String c s' => String (lower_ascii c) (lower s')
  end.

Fixpoint contains (q s : string) : bool :=
  String.prefix q s ||
  match s with
  | EmptyString => false
  | String _ s' => contains q s'
  end.

(** [column ILIKE '%q%'] for a [q] without pattern characters. *)
Definition ilike (q s : string) : bool := contains (lower q) (lower s).

Definition ilike_opt (q : string) (s : option string) : bool :=
  match s with
  | Some x => ilike q x
  | None => false
  end.

(** [rel.split(".")], as the list of segments. *)
Fixpoint split_dot_aux (acc s : string) : list string :=
  match s with
  | EmptyString => [acc]
  | String c s' =>
      if Ascii.eqb c "."%char then acc :: split_dot_aux EmptyString s'
      else split_dot_aux (acc ++ String c EmptyString)%string s'
  end.

Definition split_dot (s : string) : list string := split_dot_aux EmptyString s.

(** [const [topLevel] = rel.split(".")] *)
Definition topLevel (rel : string) : string :=
  match split_dot rel with
  | t :: _ => t
  | [] => EmptyString
  end.

(** [const [_, rest] = rel.split(".")]; [!rest] holds for a missing or an
    empty second segment. *)
Definition has_rest (rel : string) : bool :=
  match split_dot rel with
  | _ :: r :: _ => negb (String.eqb r EmptyString)
  | _ => false
  end.

Definition mem_string (x : string) (l : list string) : bool :=
  existsb (String.eqb x) l.

(** [[...new Set(ids)]]: the distinct ids in order of first occurrence. *)
Fixpoint dedup_aux (seen l : list string) : list string :=
  match l with
  | [] => []
  | x :: l' =>
      if mem_string x seen then dedup_aux seen l'
      else x :: dedup_aux (x :: seen) l'
  end.

Definition dedup (l : list string) : list string := dedup_aux [] l.

(** ** Relation loading *)

(** The joins of the ORM, by foreign key.  Soft-deleted child rows are left
    out unless the query runs [withDeleted]; variants joined by
    [queryRentalsWithIds] carry the explicit condition
    ["variants.deleted_at IS NULL"] and are left out in either case. *)

Definition load_option_values (s : Store) (withDeleted : bool) (variant_id : string)
  : list RentalOptionValueRow :=
  filter (fun ov => String.eqb (ov_variant_id ov) variant_id
                    && visible withDeleted (ov_deleted ov))
         (rental_option_values s).

Definition load_prices (s : Store) (withDeleted : bool) (variant_id : string)
  : list MoneyAmountRow :=
  filter (fun ma => String.eqb (ma_variant_id ma) variant_id
                    && visible withDeleted (ma_deleted ma))
         (money_amounts s).

Definition load_options (s : Store) (withDeleted : bool) (rental_id : string)
  : list RentalOptionRow :=
  filter (fun o => String.eqb (o_rental_id o) rental_id
                   && visible withDeleted (o_deleted o))
         (rental_options s).

Definition variant_rows (s : Store) (withDeleted : bool) (rental_id : string)
  : list RentalVariantRow :=
  filter (fun v => String.eqb (v_rental_id v) rental_id
                   && visible withDeleted (v_deleted v))
         (rental_variants s).

(** The variants of a rental with the nested relations named in [rels]. *)
Definition load_variants (s : Store) (withDeleted : bool) (rels : list string)
  (rental_id : string) : list RentalVariant :=
  map (fun v =>
         mkRentalVariant v
           (if mem_string "variants.options" rels
            then Some (load_option_values s withDeleted (v_id v)) else None)
           (if mem_string "variants.prices" rels
            then Some (load_prices s withDeleted (v_id v)) else None))
      (variant_rows s false rental_id).

Definition load_links (s : Store) (relation rental_id : string) : list string :=
  map l_target
      (filter (fun l => String.eqb (l_relation l) relation
                        && String.eqb (l_rental_id l) rental_id)
              (links s)).

(** ** [RentalRepository] ([src/repositories/rental.ts]) *)

Module RentalRepository.

(** The [where] object of a list query.  [w_columns] stands for the
    conditions on columns other than [id], [title] and [description]. *)
Record Where : Type := mkWhere {
  w_id : option (list string);
  w_title : option string;
  w_description : option string;
  w_columns : RentalRow -> bool;
  w_tags : option (list string);
  w_price_list_id : option (list string);
  w_sales_channel_id : option (list string);
  w_discount_condition_id : option string
}.

(** [order] is the effect of [applyOrdering] for the query's [order]
    object on the matched rows; without an [order] object the rows come as
    the database hands them out. *)
Record FindWithoutRelationsOptions : Type := mkOptions {
  where_ : Where;
  skip : option nat;
  take : option nat;
  withDeleted : bool;
  select : list string;
  order : list RentalRow -> list RentalRow
}.

Definition where_all : Where :=
  mkWhere None None None (fun _ => true) None None None None.

Definition where_id (id : string) : Where :=
  mkWhere (Some [id]) None None (fun _ => true) None None None None.

(** [{ where: {} }] and [{ withDeleted }] *)
Definition plain_options (wd : bool) : FindWithoutRelationsOptions :=
  mkOptions where_all None None wd [] (fun l => l).

Definition set_where (w : Where) (o : FindWithoutRelationsOptions) :=
  mkOptions w (skip o) (take o) (withDeleted o) (select o) (order o).

Definition set_take (t : option nat) (o : FindWithoutRelationsOptions) :=
  mkOptions (where_ o) (skip o) t (withDeleted o) (select o) (order o).

(** [delete where.tags], [delete where.price_list_id],
    [delete where.sales_channel_id], [delete where.discount_condition_id] *)
Definition delete_joins (w : Where) : Where :=
  mkWhere (w_id w) (w_title w) (w_description w) (w_columns w)
          None None None None.

Definition opt_test {A} (o : option A) (f : A -> bool) : bool :=
  match o with
  | Some x => f x
  | None => true
  end.

(** The conditions of [qb.where(where)] on the rental's own columns. *)
Definition where_columns (w : Where) (r : RentalRow) : bool :=
  opt_test (w_id w) (mem_string (r_id r))
  && opt_test (w_title w) (String.eqb (r_title r))
  && opt_test (w_description w) (fun d => opt_eqb (r_description r) (Some d))
  && w_columns w r.

(** The conditions the tag, price-list, sales-channel and discount-
    condition joins add. *)
Definition where_joins (s : Store) (wd : bool) (w : Where) (r : RentalRow) : bool :=
  opt_test (w_tags w)
    (fun ids => existsb (fun t => mem_string t ids) (load_links s "tags" (r_id r)))
  && opt_test (w_price_list_id w)
    (fun ids =>
       existsb (fun v =>
                  existsb (fun ma => match ma_price_list_id ma with
                                     | Some pl => mem_string pl ids
                                     | None => false
                                     end)
                          (load_prices s wd (v_id v)))
               (variant_rows s wd (r_id r)))
  && opt_test (w_sales_channel_id w)
    (fun ids => existsb (fun c => mem_string c ids)
                        (load_links s "sales_channels" (r_id r)))
  && opt_test (w_discount_condition_id w)
    (fun dc => mem_string dc (load_links s "discount_condition_rental" (r_id r))).

Definition paginate {A} (skip take : option nat) (l : list A) : list A :=
  let l1 := match skip with Some n => skipn n l | None => l end in
  match take with Some n => firstn n l1 | None => l1 end.

(** An entity that was read with [select(["rental.id"])]. *)
Definition id_only (r : RentalRow) : Rental := mkRental r ["id"] None None [].

Definition full_entity (sel : list string) (r : RentalRow) : Rental :=
  mkRental r sel None None [].

(** [queryRentals]: the ids of the rows the query matches, one page of
    them, and the number of all matches when [shouldCount].  This is the
    result of a query that the database accepts; it refuses one with an
    empty [IN ()], a join of [sales_channels] without the feature, or a join
    of a table it does not have. *)
Definition queryRentals (s : Store) (o : FindWithoutRelationsOptions)
  (shouldCount : bool) : list Rental * nat :=
  let matched :=
    order o (filter (fun r => where_columns (where_ o) r
                              && where_joins s (withDeleted o) (where_ o) r
                              && visible (withDeleted o) (r_deleted r))
                    (rentals s)) in
  (map id_only (paginate (skip o) (take o) matched),
   if shouldCount then length matched else 0).

(** [Repository.findByIds(ids, options)] of the ORM. *)
Definition findByIds (s : Store) (ids : list string)
  (o : FindWithoutRelationsOptions) : list Rental :=
  map (full_entity (select o))
      (paginate (skip o) (take o)
         (order o (filter (fun r => mem_string (r_id r) ids
                                    && where_columns (where_ o) r
                                    && visible (withDeleted o) (r_deleted r))
                          (rentals s)))).

(** [groupedRelations[topLevel]] is a JavaScript object used as a map;
    [Object.entries] lists it in insertion order. *)
Fixpoint push_group (top rel : string) (g : list (string * list string))
  : list (string * list string) :=
  match g with
  | [] => [(top, [rel])]
  | (k, rels) :: g' =>
      if String.eqb k top then (k, rels ++ [rel]) :: g'
      else (k, rels) :: push_group top rel g'
  end.

Definition getGroupedRelations (relations : list string)
  : list (string * list string) :=
  fold_left (fun g rel => push_group (topLevel rel) rel g) relations [].

(** One row of the query a group builds, for a group of relations of the
    entity (the query builder refuses another name): the rental with the
    group's top-level relation joined, and below [variants] the nested ones.
    The many-to-one relations [type] and [collection] follow the rental's
    own columns, the remaining ones a join table. *)
Definition join_group (s : Store) (wd : bool) (sel : list string)
  (toplevel : string) (rels : list string) (r : RentalRow) : Rental :=
  if String.eqb toplevel "variants" then
    mkRental r sel None
      (Some (load_variants s wd (filter has_rest rels) (r_id r))) []
  else if String.eqb toplevel "options" then
    mkRental r sel (Some (load_options s wd (r_id r))) None []
  else if String.eqb toplevel "type" then
    mkRental r sel None None
      [(toplevel, match r_type_id r with Some t => [t] | None => [] end)]
  else if String.eqb toplevel "collection" then
    mkRental r sel None None
      [(toplevel,
        map c_id
          (filter (fun c => opt_eqb (r_collection_id r) (Some (c_id c))
                            && visible wd (c_deleted c))
                  (rental_collections s)))]
  else
    mkRental r sel None None [(toplevel, load_links s toplevel (r_id r))].

(** [queryRentalsWithIds]: one query per top-level relation, flattened. *)
Definition queryRentalsWithIds (s : Store) (entityIds : list string)
  (groupedRelations : list (string * list string)) (wd : bool)
  (sel : list string) : list Rental :=
  flat_map
    (fun g =>
       map (join_group s wd sel (fst g) (snd g))
           (filter (fun r => visible wd (r_deleted r)
                             && mem_string (r_id r) entityIds)
                   (rentals s)))
    groupedRelations.

(** *** [merge] and [groupBy] of lodash *)

Definition carries (sel : list string) (column : string) : bool :=
  match sel with
  | [] => true
  | _ => mem_string column sel
  end.

Definition pick {A} (sel : list string) (column : string) (a b : A) : A :=
  if carries sel column then b else a.

(** The columns [b] carries overwrite those of [a]. *)
Definition merge_row (sel_b : list string) (a b : RentalRow) : RentalRow :=
  mkRentalRow
    (pick sel_b "id" (r_id a) (r_id b))
    (pick sel_b "title" (r_title a) (r_title b))
    (pick sel_b "description" (r_description a) (r_description b))
    (pick sel_b "thumbnail" (r_thumbnail a) (r_thumbnail b))
    (pick sel_b "is_giftcard" (r_is_giftcard a) (r_is_giftcard b))
    (pick sel_b "discountable" (r_discountable a) (r_discountable b))
    (pick sel_b "profile_id" (r_profile_id a) (r_profile_id b))
    (pick sel_b "type_id" (r_type_id a) (r_type_id b))
    (pick sel_b "collection_id" (r_collection_id a) (r_collection_id b))
    (pick sel_b "deleted_at" (r_deleted a) (r_deleted b)).

Definition merge_select (a b : list string) : list string :=
  match a, b with
  | [], _ => []
  | _, [] => []
  | _, _ => a ++ filter (fun c => negb (mem_string c a)) b
  end.

Definition merge_opt {A} (a b : option A) : option A :=
  match b with
  | Some x => Some x
  | None => a
  end.

Fixpoint put_link (k : string) (v : list string) (l : list (string * list string))
  : list (string * list string) :=
  match l with
  | [] => [(k, v)]
  | (k', v') :: l' =>
      if String.eqb k' k then (k', v) :: l' else (k', v') :: put_link k v l'
  end.

Definition merge_links (a b : list (string * list string))
  : list (string * list string) :=
  fold_left (fun acc kv => put_link (fst kv) (snd kv) acc) b a.

(** [merge(a, b)]: every property [b] defines is written over [a].  A
    relation is loaded by one group only, so the element-wise merge lodash
    performs on two arrays under the same key meets equal arrays. *)
Definition merge2 (a b : Rental) : Rental :=
  mkRental (merge_row (e_select b) (e_row a) (e_row b))
           (merge_select (e_select a) (e_select b))
           (merge_opt (e_options a) (e_options b))
           (merge_opt (e_variants a) (e_variants b))
           (merge_links (e_links a) (e_links b)).

(** [merge({}, x, ...xs)] *)
Definition merge (x : Rental) (xs : list Rental) : Rental :=
  fold_left merge2 xs x.

(** The property [id] of an entity as a key of an object.  An entity that
    was read without the column has no such property, and [groupBy] files it
    under ["undefined"]. *)
Definition id_key (x : Rental) : string :=
  if carries (e_select x) "id" then e_id x else "undefined".

(** [groupBy(entities, "id")]: the groups in order of first occurrence of
    their id (ids are prefixed strings, which an object keeps in insertion
    order), each in order of occurrence; a group is never empty. *)
Fixpoint push_entity (x : Rental) (g : list (string * (Rental * list Rental)))
  : list (string * (Rental * list Rental)) :=
  match g with
  | [] => [(id_key x, (x, []))]
  | (k, (y, ys)) :: g' =>
      if String.eqb k (id_key x) then (k, (y, ys ++ [x])) :: g'
      else (k, (y, ys)) :: push_entity x g'
  end.

Definition groupBy_id (l : list Rental) : list (string * (Rental * list Rental)) :=
  fold_left (fun g x => push_entity x g) l [].

Fixpoint lookup {A} (k : string) (l : list (string * A)) : option A :=
  match l with
  | [] => None
  | (k', v) :: l' => if String.eqb k' k then Some v else lookup k l'
  end.

Definition mergeEntitiesWithRelations (entitiesAndRelations : list Rental)
  : list Rental :=
  map (fun g => merge (fst (snd g)) (snd (snd g)))
      (groupBy_id entitiesAndRelations).

(** *** The finders *)

(** [map(entitiesIds, (id) => merge({}, ...entitiesAndRelations[id]))].
    Spreading the missing group of an id, [merge({}, ...undefined)], is a
    [TypeError]. *)
Fixpoint merge_each (entitiesAndRelations : list (string * (Rental * list Rental)))
  (entitiesIds : list string) : Outcome (list Rental) :=
  match entitiesIds with
  | [] => Ok []
  | id :: ids' =>
      match lookup id entitiesAndRelations with
      | None => Throw TypeError
      | Some (x, xs) =>
          match merge_each entitiesAndRelations ids' with
          | Ok rest => Ok (merge x xs :: rest)
          | Throw e => Throw e
          end
      end
  end.

(** [findWithRelationsAndCount(relations, options)], for the options object
    the service passes. *)
Definition findWithRelationsAndCount (s : Store) (relations : list string)
  (o : FindWithoutRelationsOptions) : Outcome (list Rental * nat) :=
  let '(entities, count) := queryRentals s o true in
  let o' := set_where (delete_joins (where_ o)) o in
  let entitiesIds := map e_id entities in
  match entitiesIds with
  | [] => Ok ([], count)
  | _ =>
      match relations with
      | [] =>
          let toReturn := findByIds s entitiesIds o' in
          Ok (toReturn, length toReturn)
      | _ =>
          let groupedRelations := getGroupedRelations relations in
          let entitiesIdsWithRelations :=
            queryRentalsWithIds s entitiesIds groupedRelations
              (withDeleted o') (select o') in
          let entitiesAndRelations := groupBy_id entitiesIdsWithRelations in
          match merge_each entitiesAndRelations entitiesIds with
          | Ok entitiesToReturn => Ok (entitiesToReturn, count)
          | Throw e => Throw e
          end
      end
  end.

(** [findWithRelations(relations, idsOrOptionsWithoutRelations,
    withDeleted)]; the second argument is an id array ([inl]) or an
    options object ([inr]). *)
Definition findWithRelations (s : Store) (relations : list string)
  (idsOrOptionsWithoutRelations : list string + FindWithoutRelationsOptions)
  (wd : bool) : list Rental :=
  let entities :=
    match idsOrOptionsWithoutRelations with
    | inl ids => findByIds s ids (plain_options wd)
    | inr o => fst (queryRentals s o false)
    end in
  let entitiesIds := map e_id entities in
  match entitiesIds with
  | [] => []
  | _ =>
      match relations, idsOrOptionsWithoutRelations with
      | [], inr o => findByIds s entitiesIds (set_where (delete_joins (where_ o)) o)
      | _, _ =>
          let groupedRelations := getGroupedRelations relations in
          let entitiesIdsWithRelations :=
            queryRentalsWithIds s entitiesIds groupedRelations wd [] in
          mergeEntitiesWithRelations (entitiesIdsWithRelations ++ entities)
      end
  end.

(** [findOneWithRelations]: [take = 1], then the first result or
    [undefined]. *)
Definition findOneWithRelations (s : Store) (relations : list string)
  (o : FindWithoutRelationsOptions) : option Rental :=
  hd_error (findWithRelations s relations (inr (set_take (Some 1) o)) false).

(** [_cleanOptions]: the free-text query drops the equality conditions on
    [description] and [title]. *)
Definition _cleanOptions (o : FindWithoutRelationsOptions)
  : FindWithoutRelationsOptions :=
  let w := where_ o in
  set_where (mkWhere (w_id w) None None (w_columns w) (w_tags w) None
                     (w_sales_channel_id w) None) o.

(** The bracket of [ILIKE] conditions of the free-text query, over the
    rental, its joined variants and its joined collection. *)
Definition free_text_match (s : Store) (wd : bool) (q : string) (r : RentalRow)
  : bool :=
  ilike_opt q (r_description r)
  || ilike q (r_title r)
  || existsb (fun v => ilike_opt q (v_title v) || ilike_opt q (v_sku v))
             (variant_rows s wd (r_id r))
  || existsb (fun c => opt_eqb (r_collection_id r) (Some (c_id c))
                       && visible wd (c_deleted c) && ilike q (c_title c))
             (rental_collections s).

(** The query [getFreeTextSearchResultsAndCount] assembles and its
    [qb.getManyAndCount()]: one page of matching ids and the number of
    all matches. *)
Definition free_text_query (s : Store) (q : string)
  (options : FindWithoutRelationsOptions) : list Rental * nat :=
  let w := where_ options in
  let cleanedOptions := _cleanOptions (set_where (delete_joins w) options) in
  let matched :=
    order options
      (filter (fun r => where_columns (where_ cleanedOptions) r
                        && free_text_match s (withDeleted cleanedOptions) q r
                        && where_joins s (withDeleted cleanedOptions) w r
                        && visible (withDeleted cleanedOptions) (r_deleted r))
              (rentals s)) in
  (map id_only (paginate (skip cleanedOptions) (take cleanedOptions) matched),
   length matched).

(** [getFreeTextSearchResultsAndCount].  An id that [rentalsMap] does not
    hold yields [undefined] ([None]) at its position. *)
Definition getFreeTextSearchResultsAndCount (s : Store) (q : string)
  (options : FindWithoutRelationsOptions) (relations : list string)
  : list (option Rental) * nat :=
  let cleanedOptions :=
    _cleanOptions (set_where (delete_joins (where_ options)) options) in
  let '(results, count) := free_text_query s q options in
  let orderedResultsSet := dedup (map e_id results) in
  let rentals :=
    findWithRelations s relations (inl orderedResultsSet)
      (withDeleted cleanedOptions) in
  (* new Map(rentals.map((p) => [p.id, p])): a later entry replaces an
     earlier one with the same key *)
  let rentalsMap := map (fun p => (e_id p, p)) (rev rentals) in
  let orderedRentals := map (fun id => lookup id rentalsMap) orderedResultsSet in
  (orderedRentals, count).

(** *** Bulk updates of the collection column *)

Definition set_collection_id (c : option string) (r : RentalRow) : RentalRow :=
  mkRentalRow (r_id r) (r_title r) (r_description r) (r_thumbnail r)
    (r_is_giftcard r) (r_discountable r) (r_profile_id r) (r_type_id r) c
    (r_deleted r).

(** [bulkAddToCollection(rentalIds, collectionId)]: an [UPDATE] of the
    rows whose id is in [rentalIds], which is not restricted to the live
    rows, then [findByIds(rentalIds)]. *)
Definition bulkAddToCollection (rentalIds : list string) (collectionId : string)
  : M (list Rental) :=
  modify (set_rentals
            (map (fun r => if mem_string (r_id r) rentalIds
                           then set_collection_id (Some collectionId) r else r))) ;;;
  s <- get ;;
  ret (findByIds s rentalIds (plain_options false)).

(** [bulkRemoveFromCollection(rentalIds, collectionId)]: the column is set
    to [null] where the id is in [rentalIds] and the row is in the
    collection. *)
Definition bulkRemoveFromCollection (rentalIds : list string) (collectionId : string)
  : M (list Rental) :=
  modify (set_rentals
            (map (fun r => if mem_string (r_id r) rentalIds
                              && opt_eqb (r_collection_id r) (Some collectionId)
                           then set_collection_id None r else r))) ;;;
  s <- get ;;
  ret (findByIds s rentalIds (plain_options false)).

End RentalRepository.

(** ** Service inputs ([src/types]) *)

Record RentalVariantOption : Type := mkRentalVariantOption {
  option_id : option string;
  value : string
}.

Record RentalVariantPrice : Type := mkRentalVariantPrice {
  p_id : option string;
  p_currency_code : option string;
  p_region_id : option string;
  p_amount : Z
}.

Record CreateRentalVariantInput : Type := mkCreateRentalVariantInput {
  cv_title : option string;
  cv_sku : option string;
  cv_variant_rank : option Z;
  cv_inventory_quantity : option Z;
  cv_metadata : list (string * string);
  cv_options : list RentalVariantOption;
  cv_prices : option (list RentalVariantPrice)
}.

Record UpdateRentalVariantInput : Type := mkUpdateRentalVariantInput {
  uv_title : option string;
  uv_rental_id : option string;
  uv_sku : option string;
  uv_variant_rank : option Z;
  uv_inventory_quantity : option Z;
  uv_metadata : option (list (string * string));
  uv_options : option (list RentalVariantOption);
  uv_prices : option (list RentalVariantPrice)
}.

(** JavaScript truthiness of an optional string and of an optional number. *)
Definition truthy_string (x : option string) : bool :=
  match x with
  | Some s => negb (String.eqb s EmptyString)
  | None => false
  end.

Definition truthy_number (x : option Z) : bool :=
  match x with
  | Some n => negb (Z.eqb n 0)
  | None => false
  end.

(** [setMetadata]: the given keys are written over the stored ones. *)
Fixpoint put_meta (k v : string) (m : list (string * string)) : list (string * string) :=
  match m with
  | [] => [(k, v)]
  | (k', v') :: m' =>
      if String.eqb k' k then (k', v) :: m' else (k', v') :: put_meta k v m'
  end.

Definition setMetadata (old new : list (string * string)) : list (string * string) :=
  fold_left (fun acc kv => put_meta (fst kv) (snd kv) acc) new old.

(** ** Collaborators of the host platform *)

(** [RegionService.retrieve(id)] *)
Definition region_retrieve (region_id : string) : M (string * string) :=
  s <- get ;;
  match find (fun r => String.eqb (fst r) region_id) (regions s) with
  | Some r => ret r
  | None => throw (MedusaError NOT_FOUND)
  end.

(** A default price is one outside every price list. *)
Definition is_default (ma : MoneyAmountRow) : bool :=
  match ma_price_list_id ma with
  | None => true
  | Some _ => false
  end.

Definition set_amount (a : Z) (ma : MoneyAmountRow) : MoneyAmountRow :=
  mkMoneyAmountRow (ma_id ma) (ma_variant_id ma) (ma_region_id ma)
    (ma_currency_code ma) a (ma_price_list_id ma) (ma_deleted ma).

(** The columns of [money_amount], a table of the host platform: [amount]
    is a 32-bit integer, [currency_code] is not nullable and [region_id]
    refers to a region.  A write that breaks one of them is a
    [QueryFailedError].  The table of currencies, which the host platform
    seeds, is not part of the model: a currency code that is given is taken
    to be one of them. *)
Definition int4 (n : Z) : bool :=
  (Z.leb (-2147483648) n && Z.leb n 2147483647)%Z.

Definition storable_price (s : Store) (row : MoneyAmountRow) : bool :=
  int4 (ma_amount row)
  && match ma_currency_code row with Some _ => true | None => false end
  && match ma_region_id row with
     | Some r => existsb (fun x => String.eqb (fst x) r) (regions s)
     | None => true
     end.

(** [UPDATE money_amount SET amount = a WHERE id = id] *)
Definition update_amount (id : string) (a : Z) : M unit :=
  if int4 a then
    modify (set_money_amounts
              (map (fun ma => if String.eqb (ma_id ma) id then set_amount a ma else ma)))
  else throw QueryFailedError.

(** [INSERT INTO money_amount] *)
Definition insert_price (row : MoneyAmountRow) : M MoneyAmountRow :=
  s <- get ;;
  if storable_price s row then
    modify (set_money_amounts (fun t => t ++ [row])) ;;;
    ret row
  else throw QueryFailedError.

(** [moneyAmountRepo.save(moneyAmountRepo.create({ ...price, variant_id }))]:
    a price that carries an id is written over the row with that id when
    there is one; otherwise a row is inserted, under a generated id when the
    price carries none. *)
Definition save_new_price (variant_id : string) (price : RentalVariantPrice)
  : M MoneyAmountRow :=
  match p_id price with
  | None =>
      id <- generateEntityId "ma" ;;
      insert_price (mkMoneyAmountRow id variant_id (p_region_id price)
                      (p_currency_code price) (p_amount price) None false)
  | Some id =>
      s <- get ;;
      match find (fun ma => String.eqb (ma_id ma) id) (money_amounts s) with
      | Some old =>
          let row := mkMoneyAmountRow id variant_id
                       (match p_region_id price with
                        | Some r => Some r | None => ma_region_id old end)
                       (match p_currency_code price with
                        | Some c => Some c | None => ma_currency_code old end)
                       (p_amount price) (ma_price_list_id old) (ma_deleted old) in
          if storable_price s row then
            modify (set_money_amounts
                      (map (fun ma => if String.eqb (ma_id ma) id then row else ma))) ;;;
            ret row
          else throw QueryFailedError
      | None =>
          insert_price (mkMoneyAmountRow id variant_id (p_region_id price)
                          (p_currency_code price) (p_amount price) None false)
      end
  end.

(** [MoneyAmountRepository.upsertVariantCurrencyPrice]: the default price
    of the variant for the currency, outside every region, is updated, or
    created when absent. *)
Definition upsertVariantCurrencyPrice (variant_id : string)
  (price : RentalVariantPrice) : M MoneyAmountRow :=
  s <- get ;;
  match find (fun ma => String.eqb (ma_variant_id ma) variant_id
                        && opt_eqb (ma_currency_code ma) (p_currency_code price)
                        && opt_eqb (ma_region_id ma) None
                        && is_default ma && negb (ma_deleted ma))
             (money_amounts s) with
  | Some ma =>
      update_amount (ma_id ma) (p_amount price) ;;;
      ret (set_amount (p_amount price) ma)
  | None => save_new_price variant_id price
  end.

(** [MoneyAmountRepository.findVariantPricesNotIn], a query of the host
    platform.  Modelled from the spec: the stored default prices of the
    variant that are not present in the given list, matched on scope, region
    or currency. *)
Definition findVariantPricesNotIn (s : Store) (variant_id : string)
  (prices : list RentalVariantPrice) : list MoneyAmountRow :=
  filter (fun ma =>
            String.eqb (ma_variant_id ma) variant_id
            && is_default ma && negb (ma_deleted ma)
            && negb (existsb
                       (fun p =>
                          match ma_region_id ma with
                          | Some r => opt_eqb (p_region_id p) (Some r)
                          | None => opt_eqb (p_region_id p) None
                                    && opt_eqb (p_currency_code p) (ma_currency_code ma)
                          end)
                       prices))
         (money_amounts s).

(** [Repository.findOne({ where: { id }, relations })] of the ORM on the
    rental table. *)
Definition findOne_rental (s : Store) (id : string) (relations : list string)
  : option Rental :=
  match find (fun r => String.eqb (r_id r) id && negb (r_deleted r)) (rentals s) with
  | Some r =>
      Some (mkRental r []
              (if mem_string "options" relations
               then Some (load_options s false id) else None)
              (if mem_string "variants" relations
               then Some (load_variants s false relations id) else None)
              [])
  | None => None
  end.

Definition findOne_variant (s : Store) (id : string) : option RentalVariantRow :=
  find (fun v => String.eqb (v_id v) id && negb (v_deleted v)) (rental_variants s).

(** A condition of a [where] object on a column.  An [undefined] value is
    sent to the database as [NULL], and [column = NULL] holds of no row. *)
Definition where_opt (cond : option string) (actual : string) : bool :=
  match cond with
  | Some x => String.eqb actual x
  | None => false
  end.

Definition findOne_option_value (s : Store) (variant_id : string)
  (optionId : option string) : option RentalOptionValueRow :=
  find (fun ov => String.eqb (ov_variant_id ov) variant_id
                  && where_opt optionId (ov_option_id ov)
                  && negb (ov_deleted ov))
       (rental_option_values s).

(** ** [RentalVariantService] ([src/services/rental-variant.ts]) *)

Module RentalVariantService.

Definition UPDATED := "rental-variant.updated".
Definition CREATED := "rental-variant.created".
Definition DELETED := "rental-variant.deleted".

Definition retrieve (variantId : string) : M RentalVariantRow :=
  s <- get ;;
  match findOne_variant s variantId with
  | Some v => ret v
  | None => throw (MedusaError NOT_FOUND)
  end.

(** [setRegionPrice(variantId, price)]: the row is looked up with
    [region_id: price.region_id], which no row satisfies when the price
    carries no region, and with [price_list_id: null]. *)
Definition setRegionPrice (tx : bool) (variantId : string)
  (price : RentalVariantPrice) : M MoneyAmountRow :=
  atomicPhase_ tx (
    s <- get ;;
    let moneyAmount :=
      find (fun ma => String.eqb (ma_variant_id ma) variantId
                      && match p_region_id price with
                         | Some r => opt_eqb (ma_region_id ma) (Some r)
                         | None => false
                         end
                      && is_default ma && negb (ma_deleted ma))
           (money_amounts s) in
    match moneyAmount with
    | None => save_new_price variantId price
    | Some ma =>
        update_amount (ma_id ma) (p_amount price) ;;;
        ret (set_amount (p_amount price) ma)
    end).

Definition setCurrencyPrice (tx : bool) (variantId : string)
  (price : RentalVariantPrice) : M MoneyAmountRow :=
  atomicPhase_ tx (upsertVariantCurrencyPrice variantId price).

(** The loop over [prices] that [create] and [updateVariantPrices] share. *)
Definition set_prices (variantId : string) (prices : list RentalVariantPrice)
  : M unit :=
  forM_ prices (fun price =>
    if truthy_string (p_region_id price) then
      region <- region_retrieve
                  (match p_region_id price with Some r => r | None => EmptyString end) ;;
      setRegionPrice true variantId
        (mkRentalVariantPrice None (Some (snd region)) (p_region_id price)
           (p_amount price)) ;;;
      ret tt
    else
      setCurrencyPrice true variantId price ;;;
      ret tt).

Definition updateVariantPrices (tx : bool) (variantId : string)
  (prices : list RentalVariantPrice) : M unit :=
  atomicPhase_ tx (
    s <- get ;;
    let obsoletePrices := findVariantPricesNotIn s variantId prices in
    set_prices variantId prices ;;;
    modify (set_money_amounts
              (filter (fun ma =>
                         negb (mem_string (ma_id ma) (map ma_id obsoletePrices)))))).

Definition set_value (v : string) (ov : RentalOptionValueRow) : RentalOptionValueRow :=
  mkRentalOptionValueRow (ov_id ov) v (ov_option_id ov) (ov_variant_id ov)
    (ov_deleted ov).

Definition updateOptionValue (tx : bool) (variantId : string)
  (optionId : option string) (optionValue : string) : M RentalOptionValueRow :=
  atomicPhase_ tx (
    s <- get ;;
    match findOne_option_value s variantId optionId with
    | None => throw (MedusaError NOT_FOUND)
    | Some ov =>
        modify (set_rental_option_values
                  (map (fun x => if String.eqb (ov_id x) (ov_id ov)
                                 then set_value optionValue x else x))) ;;;
        ret (set_value optionValue ov)
    end).

(** The foreign keys of [rental_option_value]: [variant_id] names a row of
    [rental_variant] and [option_id] a row of [rental_option]. *)
Definition insertable_value (s : Store) (row : RentalOptionValueRow) : bool :=
  existsb (fun v => String.eqb (v_id v) (ov_variant_id row)) (rental_variants s)
  && existsb (fun o => String.eqb (o_id o) (ov_option_id row)) (rental_options s).

(** [addOptionValue(variantId, optionId, optionValue)]: the row is saved, and
    the insert fails on an id that names no variant or no option. *)
Definition addOptionValue (tx : bool) (variantId optionId optionValue : string)
  : M RentalOptionValueRow :=
  atomicPhase_ tx (
    id <- generateEntityId "optval" ;;
    let rentalOptionValue :=
      mkRentalOptionValueRow id optionValue optionId variantId false in
    s <- get ;;
    if insertable_value s rentalOptionValue then
      modify (set_rental_option_values (fun t => t ++ [rentalOptionValue])) ;;;
      ret rentalOptionValue
    else throw QueryFailedError).

Definition soft_remove_value (ov : RentalOptionValueRow) : RentalOptionValueRow :=
  mkRentalOptionValueRow (ov_id ov) (ov_value ov) (ov_option_id ov)
    (ov_variant_id ov) true.

Definition deleteOptionValue (tx : bool) (variantId optionId : string) : M unit :=
  atomicPhase_ tx (
    s <- get ;;
    match findOne_option_value s variantId (Some optionId) with
    | None => ret tt
    | Some ov =>
        modify (set_rental_option_values
                  (map (fun x => if String.eqb (ov_id x) (ov_id ov)
                                 then soft_remove_value x else x)))
    end).

(** The option values [variantRepo.save] inserts with a new variant; the
    [option_id] column is not nullable. *)
Definition insert_option_values (variant_id : string)
  (options : list RentalVariantOption) : M (list RentalOptionValueRow) :=
  mapM (fun o =>
          match option_id o with
          | None => throw QueryFailedError
          | Some oid =>
              id <- generateEntityId "optval" ;;
              let row := mkRentalOptionValueRow id (value o) oid variant_id false in
              modify (set_rental_option_values (fun t => t ++ [row])) ;;;
              ret row
          end)
       options.

(** [variant.options.find((o) => option_id === o.option_id)] *)
Definition find_option (oid : option string) (options : list RentalVariantOption)
  : option RentalVariantOption :=
  find (fun o => opt_eqb oid (option_id o)) options.

(** The callback of [rental.variants.find] in [create]: every stored
    option value of [v] equals the value the input gives its option. *)
Definition same_options (options : list RentalVariantOption)
  (stored : list RentalOptionValueRow) : bool :=
  forallb (fun option =>
             match find_option (Some (ov_option_id option)) options with
             | Some variantOption => String.eqb (ov_value option) (value variantOption)
             | None => false
             end)
          stored.

(** [rental.variants.find(...)] over variants whose [options] relation may
    be [undefined]. *)
Fixpoint find_variant_exists (options : list RentalVariantOption)
  (variants : list RentalVariant) : Outcome (option RentalVariant) :=
  match variants with
  | [] => Ok None
  | v :: rest =>
      match ve_options v with
      | None => Throw TypeError
      | Some stored =>
          if same_options options stored then Ok (Some v)
          else find_variant_exists options rest
      end
  end.

(** The columns of [rental_variant] as the entity [RentalVariant] declares
    them: [title] and [inventory_quantity] are not nullable and have no
    default, [inventory_quantity] and [variant_rank] are 32-bit integers,
    and no two live variants share a [sku].  An insert that breaks one of
    them is a [QueryFailedError]. *)
Definition insertable_variant (s : Store) (row : RentalVariantRow) : bool :=
  match v_title row with Some _ => true | None => false end
  && match v_inventory_quantity row with Some q => int4 q | None => false end
  && match v_variant_rank row with Some r => int4 r | None => true end
  && match v_sku row with
     | Some sku =>
         negb (existsb (fun v => opt_eqb (v_sku v) (Some sku) && negb (v_deleted v))
                       (rental_variants s))
     | None => true
     end.

(** The tail of [create] once the checks have passed: the rank defaults
    to the number of variants, the variant and its option values are
    saved, the prices are set and [CREATED] is emitted. *)
Definition persist (rental_id : string) (count : nat)
  (variant : CreateRentalVariantInput) : M RentalVariant :=
  let variant_rank :=
    if truthy_number (cv_variant_rank variant)
    then cv_variant_rank variant
    else Some (Z.of_nat count) in
  id <- generateEntityId "variant" ;;
  let row := mkRentalVariantRow id (cv_title variant) rental_id
               (cv_sku variant) variant_rank
               (cv_inventory_quantity variant) (cv_metadata variant)
               false in
  s <- get ;;
  (if insertable_variant s row
   then modify (set_rental_variants (fun t => t ++ [row]))
   else throw QueryFailedError) ;;;
  values <- insert_option_values id (cv_options variant) ;;
  match cv_prices variant with
  | Some prices => set_prices id prices
  | None => ret tt
  end ;;;
  emit CREATED id [] ;;;
  ret (mkRentalVariant row (Some values) None).

(** The checks of [create]: the rental is read and the input is compared
    with the rental's options and variants.  They yield the rental's id and
    the number of its variants. *)
Definition checks (rentalOrRentalId : string + Rental)
  (variant : CreateRentalVariantInput) : M (string * nat) :=
  s <- get ;;
  rental <-
    match rentalOrRentalId with
    | inl id =>
        match findOne_rental s id ["variants"; "variants.options"; "options"] with
        | Some r => ret r
        | None => throw TypeError
        end
    | inr r =>
        if String.eqb (e_id r) EmptyString
        then throw (MedusaError INVALID_DATA) else ret r
    end ;;
  options <- match e_options rental with
             | Some os => ret os
             | None => throw TypeError
             end ;;
  if negb (Nat.eqb (length options) (length (cv_options variant))) then
    throw (MedusaError INVALID_DATA)
  else if negb (forallb
                  (fun option =>
                     match find_option (Some (o_id option)) (cv_options variant) with
                     | Some _ => true
                     | None => false
                     end)
                  options) then
    throw (MedusaError INVALID_DATA)
  else
    variants <- match e_variants rental with
                | Some vs => ret vs
                | None => throw TypeError
                end ;;
    match find_variant_exists (cv_options variant) variants with
    | Throw e => throw e
    | Ok (Some _) => throw (MedusaError DUPLICATE_ERROR)
    | Ok None => ret (e_id rental, length variants)
    end.

(** [create(rentalOrRentalId, variant)] *)
Definition create (tx : bool) (rentalOrRentalId : string + Rental)
  (variant : CreateRentalVariantInput) : M RentalVariant :=
  atomicPhase_ tx (
    checked <- checks rentalOrRentalId variant ;;
    persist (fst checked) (snd checked) variant).

Definition apply_update (update : UpdateRentalVariantInput)
  (v : RentalVariantRow) : RentalVariantRow :=
  let keep {A} (new old : option A) : option A :=
    match new with Some x => Some x | None => old end in
  mkRentalVariantRow
    (v_id v)
    (keep (uv_title update) (v_title v))
    (match uv_rental_id update with Some r => r | None => v_rental_id v end)
    (keep (uv_sku update) (v_sku v))
    (keep (uv_variant_rank update) (v_variant_rank v))
    (keep (uv_inventory_quantity update) (v_inventory_quantity v))
    (match uv_metadata update with
     | Some m => setMetadata (v_metadata v) m
     | None => v_metadata v
     end)
    (v_deleted v).

(** [variantRepo.save(variant)] for a variant that has an id. *)
Definition save_variant (row : RentalVariantRow) : M unit :=
  s <- get ;;
  if existsb (fun v => String.eqb (v_id v) (v_id row)) (rental_variants s) then
    modify (set_rental_variants
              (map (fun v => if String.eqb (v_id v) (v_id row) then row else v)))
  else
    modify (set_rental_variants (fun t => t ++ [row])).

(** [update(variantOrVariantId, update)] *)
Definition update (tx : bool) (variantOrVariantId : string + RentalVariant)
  (update : UpdateRentalVariantInput) : M RentalVariant :=
  atomicPhase_ tx (
    s <- get ;;
    variant <-
      match variantOrVariantId with
      | inl id =>
          match findOne_variant s id with
          | Some v => ret (mkRentalVariant v None None)
          | None => throw (MedusaError NOT_FOUND)
          end
      | inr v =>
          if String.eqb (ve_id v) EmptyString
          then throw (MedusaError INVALID_DATA) else ret v
      end ;;
    match uv_prices update with
    | Some prices => updateVariantPrices true (ve_id variant) prices
    | None => ret tt
    end ;;;
    match uv_options update with
    | Some options =>
        forM_ options (fun option =>
          updateOptionValue true (ve_id variant) (option_id option) (value option) ;;;
          ret tt)
    | None => ret tt
    end ;;;
    let row := apply_update update (ve_row variant) in
    save_variant row ;;;
    emit UPDATED (v_id row) [] ;;;
    ret (mkRentalVariant row (ve_options variant) (ve_prices variant))).

Definition soft_remove_variant (v : RentalVariantRow) : RentalVariantRow :=
  mkRentalVariantRow (v_id v) (v_title v) (v_rental_id v) (v_sku v)
    (v_variant_rank v) (v_inventory_quantity v) (v_metadata v) true.

Definition soft_remove_price (ma : MoneyAmountRow) : MoneyAmountRow :=
  mkMoneyAmountRow (ma_id ma) (ma_variant_id ma) (ma_region_id ma)
    (ma_currency_code ma) (ma_amount ma) (ma_price_list_id ma) true.

(** [variantRepo.softRemove(variant)] with [prices] and [options] loaded:
    the soft removal cascades to both. *)
Definition softRemove (variant_id : string) : M unit :=
  modify (fun s =>
    set_rental_variants
      (map (fun v => if String.eqb (v_id v) variant_id
                     then soft_remove_variant v else v))
      (set_money_amounts
         (map (fun ma => if String.eqb (ma_variant_id ma) variant_id
                         then soft_remove_price ma else ma))
         (set_rental_option_values
            (map (fun ov => if String.eqb (ov_variant_id ov) variant_id
                            then soft_remove_value ov else ov))
            s))).

(** [delete(variantId)] *)
Definition delete (tx : bool) (variantId : string) : M unit :=
  atomicPhase_ tx (
    s <- get ;;
    match findOne_variant s variantId with
    | None => ret tt
    | Some variant =>
        softRemove (v_id variant) ;;;
        emit DELETED (v_id variant) []
    end).

End RentalVariantService.

Record UpdateRentalRentalVariantDTO : Type := mkVariantDTO {
  dto_id : option string;
  dto_title : option string;
  dto_sku : option string;
  dto_inventory_quantity : option Z;
  dto_metadata : option (list (string * string));
  dto_prices : option (list RentalVariantPrice);
  dto_options : option (list RentalVariantOption)
}.

(** [CreateRentalInput]; tags, the type, images and sales channels are
    given by their natural keys. *)
Record CreateRentalInput : Type := mkCreateRentalInput {
  cr_title : string;
  cr_description : option string;
  cr_thumbnail : option string;
  cr_is_giftcard : option bool;
  cr_discountable : option bool;
  cr_profile_id : option string;
  cr_collection_id : option string;
  cr_type : option string;
  cr_images : option (list string);
  cr_tags : option (list string);
  cr_options : option (list string);
  cr_sales_channels : option (list string)
}.

Record UpdateRentalInput : Type := mkUpdateRentalInput {
  up_title : option string;
  up_description : option string;
  up_thumbnail : option string;
  up_is_giftcard : option bool;
  up_discountable : option bool;
  up_profile_id : option string;
  up_collection_id : option string;
  up_type : option string;
  up_images : option (list string);
  up_tags : option (list string);
  up_sales_channels : option (list string);
  up_variants : option (list UpdateRentalRentalVariantDTO)
}.

(** The rows of a join table a [save] writes for one relation of a rental. *)
Definition replace_links (relation rental_id : string) (targets : list string)
  (t : list LinkRow) : list LinkRow :=
  filter (fun l => negb (String.eqb (l_relation l) relation
                         && String.eqb (l_rental_id l) rental_id)) t
  ++ map (mkLinkRow relation rental_id) targets.

(** ** [RentalService] ([src/services/rental.ts]) *)

Module RentalService.

Import RentalRepository.

Definition UPDATED := "rental.updated".
Definition CREATED := "rental.created".
Definition DELETED := "rental.deleted".

(** [retrieve(rentalId, { relations, select })], through [retrieve_] and
    [findOneWithRelations]. *)
Definition retrieve (rentalId : string) (relations select : list string)
  : M Rental :=
  s <- get ;;
  match findOneWithRelations s relations
          (mkOptions (where_id rentalId) None None false select (fun l => l)) with
  | Some rental => ret rental
  | None => throw (MedusaError NOT_FOUND)
  end.

Definition non_empty {A} (l : option (list A)) : bool :=
  match l with
  | Some (_ :: _) => true
  | _ => false
  end.

Definition or_nil {A} (l : option (list A)) : list A :=
  match l with
  | Some x => x
  | None => []
  end.

(** [create(rentalObject)] *)
Definition create (tx : bool) (rentalObject : CreateRentalInput) : M Rental :=
  atomicPhase_ tx (
    s <- get ;;
    let thumbnail :=
      if negb (truthy_string (cr_thumbnail rentalObject))
         && non_empty (cr_images rentalObject)
      then hd_error (or_nil (cr_images rentalObject))
      else cr_thumbnail rentalObject in
    let is_giftcard :=
      match cr_is_giftcard rentalObject with Some b => b | None => false end in
    let discountable :=
      if is_giftcard then false
      else match cr_discountable rentalObject with Some b => b | None => true end in
    match cr_profile_id rentalObject with
    | None => throw QueryFailedError
    | Some profile_id =>
        id <- generateEntityId "rental" ;;
        let row := mkRentalRow id (cr_title rentalObject)
                     (cr_description rentalObject) thumbnail is_giftcard
                     discountable profile_id (cr_type rentalObject)
                     (cr_collection_id rentalObject) false in
        modify (set_rentals (fun t => t ++ [row])) ;;;
        (if non_empty (cr_images rentalObject)
         then modify (set_links (replace_links "images" id
                                   (or_nil (cr_images rentalObject))))
         else ret tt) ;;;
        (if non_empty (cr_tags rentalObject)
         then modify (set_links (replace_links "tags" id
                                   (or_nil (cr_tags rentalObject))))
         else ret tt) ;;;
        (if sales_channels_enabled s then
           match cr_sales_channels rentalObject with
           | Some salesChannels =>
               modify (set_links (replace_links "sales_channels" id salesChannels))
           | None => ret tt
           end
         else ret tt) ;;;
        forM_ (or_nil (cr_options rentalObject)) (fun title =>
          oid <- generateEntityId "opt" ;;
          modify (set_rental_options
                    (fun t => t ++ [mkRentalOptionRow oid title id false]))) ;;;
        result <- retrieve id ["options"] [] ;;
        emit CREATED (e_id result) [] ;;;
        ret result
    end).

(** [rentalVariantRepo.remove(variant)] for a variant that was loaded
    without its relations: the row is deleted, and with it, by the foreign
    key [variant_id] of [rental_option_value] ([ON DELETE CASCADE]), its
    option values.  No foreign key leads from [money_amount] to
    [rental_variant]: the price rows stay. *)
Definition remove_variant (variant_id : string) : M unit :=
  modify (fun s =>
    set_rental_variants
      (filter (fun v => negb (String.eqb (v_id v) variant_id)))
      (set_rental_option_values
         (filter (fun ov => negb (String.eqb (ov_variant_id ov) variant_id)))
         s)).

Definition dto_update (newVariant : UpdateRentalRentalVariantDTO)
  (variant_rank : Z) (rental_id : string) : UpdateRentalVariantInput :=
  mkUpdateRentalVariantInput (dto_title newVariant) (Some rental_id)
    (dto_sku newVariant) (Some variant_rank) (dto_inventory_quantity newVariant)
    (dto_metadata newVariant) (dto_options newVariant) (dto_prices newVariant).

Definition dto_create (newVariant : UpdateRentalRentalVariantDTO)
  (variant_rank : Z) : CreateRentalVariantInput :=
  mkCreateRentalVariantInput (dto_title newVariant) (dto_sku newVariant)
    (Some variant_rank) (dto_inventory_quantity newVariant)
    (or_nil (dto_metadata newVariant))
    (or_nil (dto_options newVariant))
    (Some (or_nil (dto_prices newVariant))).

(** The second loop of [update]: [for (const [i, newVariant] of
    variants.entries())], from index [i] on. *)
Fixpoint update_variants (rental_id : string) (current : list RentalVariant)
  (i : nat) (variants : list UpdateRentalRentalVariantDTO)
  : M (list RentalVariant) :=
  match variants with
  | [] => ret []
  | newVariant :: rest =>
      let variant_rank := Z.of_nat i in
      saved <-
        (if truthy_string (dto_id newVariant) then
           match find (fun v => opt_eqb (Some (ve_id v)) (dto_id newVariant))
                      current with
           | None => throw (MedusaError NOT_FOUND)
           | Some variant =>
               RentalVariantService.update true (inr variant)
                 (dto_update newVariant variant_rank (v_rental_id (ve_row variant)))
           end
         else
           RentalVariantService.create true (inl rental_id)
             (dto_create newVariant variant_rank)) ;;
      newVariants <- update_variants rental_id current (S i) rest ;;
      ret (saved :: newVariants)
  end.

Definition keep {A} (new : option A) (old : A) : A :=
  match new with
  | Some x => x
  | None => old
  end.

Definition keep_opt {A} (new old : option A) : option A :=
  match new with
  | Some x => Some x
  | None => old
  end.

(** [rentalRepo.save(rental)]: the row is written by primary key. *)
Definition save_rental_row (row : RentalRow) : M unit :=
  modify (set_rentals
            (map (fun r => if String.eqb (r_id r) (r_id row) then row else r))).

(** [update(rentalId, update)] *)
Definition update (tx : bool) (rentalId : string) (update : UpdateRentalInput)
  : M Rental :=
  atomicPhase_ tx (
    s <- get ;;
    let flag := sales_channels_enabled s in
    let isDefined_sales_channels :=
      match up_sales_channels update with Some _ => true | None => false end in
    if negb flag && isDefined_sales_channels then
      throw (MedusaError INVALID_DATA)
    else
      let relations :=
        ["variants"; "tags"; "images"]
        ++ (if flag && isDefined_sales_channels then ["sales_channels"] else []) in
      rental <- retrieve rentalId relations [] ;;
      let row0 := e_row rental in
      let thumbnail :=
        if negb (truthy_string (r_thumbnail row0))
           && negb (truthy_string (up_thumbnail update))
           && non_empty (up_images update)
        then hd_error (or_nil (up_images update))
        else r_thumbnail row0 in
      newVariants <-
        match up_variants update with
        | Some variants =>
            current <- match e_variants rental with
                       | Some vs => ret vs
                       | None => throw TypeError
                       end ;;
            forM_ current (fun variant =>
              match find (fun v => truthy_string (dto_id v)
                                   && opt_eqb (Some (ve_id variant)) (dto_id v))
                         variants with
              | Some _ => ret tt
              | None => remove_variant (ve_id variant)
              end) ;;;
            vs <- update_variants (e_id rental) current 0 variants ;;
            ret (Some vs)
        | None => ret (e_variants rental)
        end ;;
      let row :=
        mkRentalRow (r_id row0)
          (keep (up_title update) (r_title row0))
          (keep_opt (up_description update) (r_description row0))
          (keep_opt (up_thumbnail update) thumbnail)
          (keep (up_is_giftcard update) (r_is_giftcard row0))
          (keep (up_discountable update) (r_discountable row0))
          (keep (up_profile_id update) (r_profile_id row0))
          (keep_opt (up_type update) (r_type_id row0))
          (keep_opt (up_collection_id update) (r_collection_id row0))
          (r_deleted row0) in
      save_rental_row row ;;;
      match up_images update with
      | Some images => modify (set_links (replace_links "images" rentalId images))
      | None => ret tt
      end ;;;
      match up_tags update with
      | Some tags => modify (set_links (replace_links "tags" rentalId tags))
      | None => ret tt
      end ;;;
      (if flag then
         match up_sales_channels update with
         | Some salesChannels =>
             modify (set_links (replace_links "sales_channels" rentalId salesChannels))
         | None => ret tt
         end
       else ret tt) ;;;
      emit UPDATED (r_id row) [] ;;;
      (* [rental.images], [rental.tags] and [rental.sales_channels] were
         assigned before the save, which returns the entity it was given *)
      let with_images :=
        match up_images update with
        | Some images => RentalRepository.put_link "images" images (e_links rental)
        | None => e_links rental
        end in
      let with_tags :=
        match up_tags update with
        | Some tags => RentalRepository.put_link "tags" tags with_images
        | None => with_images
        end in
      let with_sales_channels :=
        if flag then
          match up_sales_channels update with
          | Some salesChannels =>
              RentalRepository.put_link "sales_channels" salesChannels with_tags
          | None => with_tags
          end
        else with_tags in
      ret (mkRental row (e_select rental) (e_options rental) newVariants
             with_sales_channels)).

Definition soft_remove_rental (r : RentalRow) : RentalRow :=
  mkRentalRow (r_id r) (r_title r) (r_description r) (r_thumbnail r)
    (r_is_giftcard r) (r_discountable r) (r_profile_id r) (r_type_id r)
    (r_collection_id r) true.

(** [delete(rentalId)] *)
Definition delete (tx : bool) (rentalId : string) : M unit :=
  atomicPhase_ tx (
    s <- get ;;
    match findOne_rental s rentalId
            ["variants"; "variants.prices"; "variants.options"] with
    | None => ret tt
    | Some rental =>
        modify (set_rentals
                  (map (fun r => if String.eqb (r_id r) (e_id rental)
                                 then soft_remove_rental r else r))) ;;;
        forM_ (or_nil (e_variants rental))
          (fun v => RentalVariantService.softRemove (ve_id v)) ;;;
        emit DELETED rentalId []
    end).

(** [addOption(rentalId, optionTitle)] *)
Definition addOption (tx : bool) (rentalId optionTitle : string) : M Rental :=
  atomicPhase_ tx (
    rental <- retrieve rentalId ["options"; "variants"] [] ;;
    options <- match e_options rental with
               | Some os => ret os
               | None => throw TypeError
               end ;;
    match find (fun o => String.eqb (o_title o) optionTitle) options with
    | Some _ => throw (MedusaError DUPLICATE_ERROR)
    | None =>
        oid <- generateEntityId "opt" ;;
        let option := mkRentalOptionRow oid optionTitle rentalId false in
        modify (set_rental_options (fun t => t ++ [option])) ;;;
        variants <- match e_variants rental with
                    | Some vs => ret vs
                    | None => throw TypeError
                    end ;;
        forM_ variants (fun variant =>
          RentalVariantService.addOptionValue true (ve_id variant) (o_id option)
            "Default Value" ;;;
          ret tt) ;;;
        result <- retrieve rentalId [] [] ;;
        emit UPDATED (e_id result) [] ;;;
        ret result
    end).

(** [variantOrder.map((vId) => ...)]: the first unknown id throws. *)
Fixpoint map_order (variants : list RentalVariant) (variantOrder : list string)
  : Outcome (list RentalVariant) :=
  match variantOrder with
  | [] => Ok []
  | vId :: rest =>
      match find (fun v => String.eqb (ve_id v) vId) variants with
      | None => Throw (MedusaError INVALID_DATA)
      | Some variant =>
          match map_order variants rest with
          | Ok vs => Ok (variant :: vs)
          | Throw e => Throw e
          end
      end
  end.

(** The first part of [reorderVariants]: the rental is read with its
    variants, the list is checked against them and mapped to the variant
    objects, the collection [rental.variants] is set to. *)
Definition reorder_checks (rentalId : string) (variantOrder : list string)
  : M (Rental * list RentalVariant) :=
  rental <- retrieve rentalId ["variants"] [] ;;
  variants <- match e_variants rental with
              | Some vs => ret vs
              | None => throw TypeError
              end ;;
  if negb (Nat.eqb (length variants) (length variantOrder)) then
    throw (MedusaError INVALID_DATA)
  else
    match map_order variants variantOrder with
    | Throw e => throw e
    | Ok reordered => ret (rental, reordered)
    end.

(** [rentalRepo.save(rental)] for a rental that was loaded with its
    variants and whose [variants] collection was replaced.  [variants] is a
    one-to-many relation with [cascade: true]: the variants of the collection
    are saved with the rental, and a live variant of the rental that the
    collection no longer holds is detached, its [rental_id] set to [NULL],
    which the column, not nullable, refuses. *)
Definition save_with_variants (row : RentalRow) (variants : list RentalVariant)
  : M unit :=
  s <- get ;;
  if forallb (fun v => mem_string (v_id v) (map ve_id variants))
             (variant_rows s false (r_id row))
  then
    save_rental_row row ;;;
    forM_ variants (fun v => RentalVariantService.save_variant (ve_row v))
  else throw QueryFailedError.

(** [reorderVariants(rentalId, variantOrder)].  The promise of [save] is not
    awaited where it is made: it is handed to the event bus as the data of
    the event and awaited only as the value the work returns.  What
    [eventBus_.emit] does with a pending promise is the host platform's, and
    a parameter here: [emitPromise]. *)
Definition reorderVariants (emitPromise : M unit) (tx : bool) (rentalId : string)
  (variantOrder : list string) : M Rental :=
  atomicPhase_ tx (
    checked <- reorder_checks rentalId variantOrder ;;
    let rental := fst checked in
    let reordered := snd checked in
    result <- started (
      save_with_variants (e_row rental) reordered ;;;
      ret (mkRental (e_row rental) (e_select rental) (e_options rental)
             (Some reordered) (e_links rental))) ;;
    emitPromise ;;;
    settled result).

(** [RentalOptionInput] for data that carries no [values]. *)
Record RentalOptionInput : Type := mkRentalOptionInput {
  oi_title : string
}.

(** What [toUpperCase] does to a string of ASCII characters. *)
Fixpoint upper (s : string) : string :=
  match s with
  | EmptyString => EmptyString
  | String c s' =>
      let n := Ascii.nat_of_ascii c in
      String (if Nat.leb 97 n && Nat.leb n 122 then Ascii.ascii_of_nat (n - 32) else c)
             (upper s')
  end.

(** [updateOption(rentalId, optionId, data)].  [String.prototype.toUpperCase]
    follows the Unicode case mapping of the JavaScript runtime and is a
    parameter here. *)
Definition updateOption (toUpperCase : string -> string) (tx : bool)
  (rentalId optionId : string) (data : RentalOptionInput) : M Rental :=
  atomicPhase_ tx (
    rental <- retrieve rentalId ["options"] [] ;;
    options <- match e_options rental with
               | Some os => ret os
               | None => throw TypeError
               end ;;
    let title := oi_title data in
    if existsb (fun o => String.eqb (toUpperCase (o_title o)) (toUpperCase title)
                         && negb (String.eqb (o_id o) optionId)) options then
      throw (MedusaError NOT_FOUND)
    else
      s <- get ;;
      match find (fun o => String.eqb (o_id o) optionId && negb (o_deleted o))
                 (rental_options s) with
      | None => throw (MedusaError NOT_FOUND)
      | Some rentalOption =>
          modify (set_rental_options
                    (map (fun o => if String.eqb (o_id o) (o_id rentalOption)
                                   then mkRentalOptionRow (o_id o) title
                                          (o_rental_id o) (o_deleted o)
                                   else o))) ;;;
          emit UPDATED (e_id rental) [] ;;;
          ret rental
      end).

(** [v.options.find((o) => o.option_id === optionId)?.value] *)
Definition held_value (optionId : string) (options : list RentalOptionValueRow)
  : option string :=
  match find (fun o => String.eqb (ov_option_id o) optionId) options with
  | Some o => Some (ov_value o)
  | None => None
  end.

(** [rental.variants.map(async (v) => ...)] of [deleteOption]: one boolean
    per variant; a variant without loaded [options] is a [TypeError]. *)
Fixpoint equals_first (optionId : string) (valueToMatch : option string)
  (variants : list RentalVariant) : Outcome (list bool) :=
  match variants with
  | [] => Ok []
  | v :: rest =>
      match ve_options v with
      | None => Throw TypeError
      | Some os =>
          match equals_first optionId valueToMatch rest with
          | Ok bs => Ok (opt_eqb (held_value optionId os) valueToMatch :: bs)
          | Throw e => Throw e
          end
      end
  end.

Definition soft_remove_option (o : RentalOptionRow) : RentalOptionRow :=
  mkRentalOptionRow (o_id o) (o_title o) (o_rental_id o) true.

(** [rentalOptionRepo.softRemove(rentalOption)] with [values] loaded: the
    option's values are soft-removed with it. *)
Definition softRemove_option (optionId : string) : M unit :=
  modify (fun s =>
    set_rental_options
      (map (fun o => if String.eqb (o_id o) optionId
                     then soft_remove_option o else o))
      (set_rental_option_values
         (map (fun ov => if String.eqb (ov_option_id ov) optionId
                         then RentalVariantService.soft_remove_value ov else ov))
         s)).

(** [deleteOption(rentalId, optionId)]; [None] is the [void] result. *)
Definition deleteOption (tx : bool) (rentalId optionId : string)
  : M (option Rental) :=
  atomicPhase_ tx (
    rental <- retrieve rentalId ["variants"; "variants.options"] [] ;;
    s <- get ;;
    match find (fun o => String.eqb (o_id o) optionId
                         && String.eqb (o_rental_id o) rentalId
                         && negb (o_deleted o))
               (rental_options s) with
    | None => ret None
    | Some rentalOption =>
        match e_variants rental with
        | Some (firstVariant :: rest) =>
            match ve_options firstVariant with
            | None => throw TypeError
            | Some firstOptions =>
                let valueToMatch := held_value optionId firstOptions in
                match equals_first optionId valueToMatch (firstVariant :: rest) with
                | Throw e => throw e
                | Ok equalsFirst =>
                    if negb (forallb (fun v => v) equalsFirst)
                    then throw (MedusaError INVALID_DATA)
                    else ret tt
                end
            end
        | _ => ret tt
        end ;;;
        softRemove_option (o_id rentalOption) ;;;
        emit UPDATED (e_id rental) [] ;;;
        ret (Some rental)
    end).

(** [listAndCount]: [q], [query] and [relations] are what
    [prepareListQuery_] extracts from the selector and the config. *)
Definition listAndCount (s : Store) (q : option string)
  (query : FindWithoutRelationsOptions) (relations : list string)
  : Outcome (list (option Rental) * nat) :=
  if truthy_string q then
    Ok (getFreeTextSearchResultsAndCount s
          (match q with Some x => x | None => EmptyString end) query relations)
  else
    match findWithRelationsAndCount s relations query with
    | Ok (rentals, count) => Ok (map Some rentals, count)
    | Throw e => Throw e
    end.

(** [retrieveVariants(rentalId, config)], for a [config] that carries
    [relations] and [select]: [variants] is added to the relations and the
    rental's [variants] property is returned. *)
Definition retrieveVariants (rentalId : string) (givenRelations select : list string)
  : M (option (list RentalVariant)) :=
  let relationsSet := dedup (givenRelations ++ ["variants"]) in
  rental <- retrieve rentalId relationsSet select ;;
  ret (e_variants rental).

(** [isRentalInSalesChannels(id, salesChannelIds)]: the rental is read with
    its sales channels, and some channel id of the rental has to be among
    the given ones. *)
Definition isRentalInSalesChannels (id : string) (salesChannelIds : list string)
  : M bool :=
  rental <- retrieve id ["sales_channels"] [] ;;
  match lookup "sales_channels" (e_links rental) with
  | None => throw TypeError
  | Some rentalsSalesChannels =>
      ret (existsb (fun id => mem_string id salesChannelIds) rentalsSalesChannels)
  end.

(** [rentals.map((rental) => ...)] reads [rental.id] of every element. *)
Fixpoint defined_rentals (l : list (option Rental)) : Outcome (list Rental) :=
  match l with
  | [] => Ok []
  | None :: _ => Throw TypeError
  | Some r :: l' =>
      match defined_rentals l' with
      | Ok rs => Ok (r :: rs)
      | Throw e => Throw e
      end
  end.

(** [filterRentalsBySalesChannel(rentalIds, salesChannelId, config)]:
    [list({ id: rentalIds }, config)] with [sales_channels] among the
    relations, then the rentals one of whose channels is
    [salesChannelId].  [skip], [take], [select] and [order] are those of
    [config]; the selector has no [deleted_at], so the query does not run
    [withDeleted]. *)
Definition filterRentalsBySalesChannel (s : Store) (rentalIds : list string)
  (salesChannelId : string) (config : FindWithoutRelationsOptions)
  (givenRelations : list string) : Outcome (list Rental) :=
  let relationsSet := dedup (givenRelations ++ ["sales_channels"]) in
  let query :=
    mkOptions (mkWhere (Some rentalIds) None None (fun _ => true) None None None None)
      (skip config) (take config) false (select config) (order config) in
  match listAndCount s None query relationsSet with
  | Throw e => Throw e
  | Ok (listed, _) =>
      match defined_rentals listed with
      | Throw e => Throw e
      | Ok rentals =>
          (* new Map(rentals.map((rental) => [rental.id, rental.sales_channels])):
             a later entry replaces an earlier one with the same key *)
          let rentalSalesChannelsMap :=
            map (fun rental => (e_id rental, lookup "sales_channels" (e_links rental)))
                (rev rentals) in
          Ok (filter (fun rental =>
                        match lookup (e_id rental) rentalSalesChannelsMap with
                        | Some (Some channels) =>
                            existsb (fun sc => String.eqb sc salesChannelId) channels
                        | _ => false
                        end)
                     rentals)
      end
  end.

End RentalService.

(** ** [RentalCollectionService] *)

Module RentalCollectionService.

(** [retrieve(collectionId)] *)
Definition retrieve (collectionId : string) : M RentalCollectionRow :=
  s <- get ;;
  match find (fun c => String.eqb (c_id c) collectionId && negb (c_deleted c))
             (rental_collections s) with
  | Some collection => ret collection
  | None => throw (MedusaError NOT_FOUND)
  end.

Definition create (tx : bool) (title : string) : M RentalCollectionRow :=
  atomicPhase_ tx (
    id <- generateEntityId "pcol" ;;
    let rentalCollection := mkRentalCollectionRow id title false in
    modify (set_rental_collections (fun t => t ++ [rentalCollection])) ;;;
    ret rentalCollection).

(** [delete(collectionId)]: the collection is fetched through [retrieve]. *)
Definition delete (tx : bool) (collectionId : string) : M unit :=
  atomicPhase_ tx (
    collection <- retrieve collectionId ;;
    modify (set_rental_collections
              (map (fun c => if String.eqb (c_id c) (c_id collection)
                             then mkRentalCollectionRow (c_id c) (c_title c) true
                             else c)))).

(** [UpdateRentalCollection], as far as the row is represented. *)
Record UpdateRentalCollection : Type := mkUpdateRentalCollection {
  uc_title : option string
}.

(** [update(collectionId, update)] *)
Definition update (tx : bool) (collectionId : string)
  (update : UpdateRentalCollection) : M RentalCollectionRow :=
  atomicPhase_ tx (
    collection <- retrieve collectionId ;;
    let saved :=
      mkRentalCollectionRow (c_id collection)
        (match uc_title update with Some t => t | None => c_title collection end)
        (c_deleted collection) in
    modify (set_rental_collections
              (map (fun c => if String.eqb (c_id c) (c_id saved) then saved else c))) ;;;
    ret saved).

(** The [rentals] relation of a collection: its live rentals. *)
Definition load_rentals (s : Store) (collection_id : string) : list RentalRow :=
  filter (fun r => opt_eqb (r_collection_id r) (Some collection_id)
                   && negb (r_deleted r))
         (rentals s).

(** [addRentals(collectionId, rentalIds)]: the collection is returned with
    its [rentals] relation. *)
Definition addRentals (tx : bool) (collectionId : string) (rentalIds : list string)
  : M (RentalCollectionRow * list RentalRow) :=
  atomicPhase_ tx (
    collection <- retrieve collectionId ;;
    let id := c_id collection in
    RentalRepository.bulkAddToCollection rentalIds id ;;;
    result <- retrieve id ;;
    s <- get ;;
    ret (result, load_rentals s id)).

(** [removeRentals(collectionId, rentalIds)] *)
Definition removeRentals (tx : bool) (collectionId : string) (rentalIds : list string)
  : M unit :=
  atomicPhase_ tx (
    collection <- retrieve collectionId ;;
    let id := c_id collection in
    RentalRepository.bulkRemoveFromCollection rentalIds id ;;;
    ret tt).

End RentalCollectionService.

(** ** [RentalTypeRepository] and [RentalTagRepository] *)

(** The type and tag tables stand beside the rental tables: a row holds its
    id, its value and whether it is soft-deleted. *)
Record RentalTypeRow : Type := mkRentalTypeRow {
  ty_id : string;
  ty_value : string;
  ty_deleted : bool
}.

Module RentalTypeRepository.

(** The table and the supply for [generateEntityId]. *)
Record Table : Type := mkTable {
  rows : list RentalTypeRow;
  next : nat
}.

(** [findOne({ where: { value } })] *)
Definition findOne_value (t : Table) (value : string) : option RentalTypeRow :=
  find (fun r => String.eqb (ty_value r) value && negb (ty_deleted r)) (rows t).

(** [upsertType(type)]: [type] is [undefined] ([None]) or an object of
    which [value] is read. *)
Definition upsertType (type : option string) (t : Table)
  : option RentalTypeRow * Table :=
  match type with
  | None => (None, t)
  | Some value =>
      match findOne_value t value with
      | Some existing => (Some existing, t)
      | None =>
          let created :=
            mkRentalTypeRow ("ptyp_" ++ string_of_nat (next t))%string value false in
          (Some created, mkTable (rows t ++ [created]) (S (next t)))
      end
  end.

End RentalTypeRepository.

Record RentalTagRow : Type := mkRentalTagRow {
  tg_id : string;
  tg_value : string;
  tg_deleted : bool
}.

(** An element of [UpsertTagsInput]: [Partial<RentalTag> & { value }]. *)
Record UpsertTagInput : Type := mkUpsertTagInput {
  ti_id : option string;
  ti_value : string
}.

Module RentalTagRepository.

Section UpsertTags.

(** The state of the database as far as the tag repository writes it. *)
Variable Table : Type.

(** The tag rows of the table. *)
Variable rows : Table -> list RentalTagRow.

(** [this.save(this.create(tag))]: the saved entity and the table after
    the write. *)
Variable save : UpsertTagInput -> Table -> RentalTagRow * Table.

(** [this.find({ where: { value: In(tagsValues) } })] *)
Definition find_values (t : Table) (tagsValues : list string) : list RentalTagRow :=
  filter (fun r => mem_string (tg_value r) tagsValues && negb (tg_deleted r)) (rows t).

(** [existingTagsMap.get(value)] for the map built from [existingTags]: a
    later tag replaces an earlier one with the same value. *)
Definition existing_get (existingTags : list RentalTagRow) (value : string)
  : option RentalTagRow :=
  find (fun r => String.eqb (tg_value r) value) (rev existingTags).

(** The loop [for (const tag of tags)] over the map read before it. *)
Fixpoint upsert_loop (existingTags : list RentalTagRow) (tags : list UpsertTagInput)
  (t : Table) : list RentalTagRow * Table :=
  match tags with
  | [] => ([], t)
  | tag :: rest =>
      match existing_get existingTags (ti_value tag) with
      | Some aTag =>
          let '(upserted, t') := upsert_loop existingTags rest t in
          (aTag :: upserted, t')
      | None =>
          let '(savedTag, t1) := save tag t in
          let '(upserted, t') := upsert_loop existingTags rest t1 in
          (savedTag :: upserted, t')
      end
  end.

(** [upsertTags(tags)] *)
Definition upsertTags (tags : list UpsertTagInput) (t : Table)
  : list RentalTagRow * Table :=
  let tagsValues := map ti_value tags in
  let existingTags := find_values t tagsValues in
  upsert_loop existingTags tags t.

End UpsertTags.

(** A table of tag rows with an id supply, and [save] on it for a tag that
    carries no id: a row is inserted under a generated id. *)
Record TagTable : Type := mkTagTable {
  tag_rows : list RentalTagRow;
  tag_next : nat
}.

Definition insert_tag (tag : UpsertTagInput) (t : TagTable) : RentalTagRow * TagTable :=
  let row :=
    mkRentalTagRow
      (match ti_id tag with
       | Some id => id
       | None => ("ptag_" ++ string_of_nat (tag_next t))%string
       end)
      (ti_value tag) false in
  (row, mkTagTable (tag_rows t ++ [row]) (S (tag_next t))).

End RentalTagRepository.

(** ** The admin delete-rental route *)

Module AdminDeleteRental.

(** The body of the response. *)
Record Res : Type := mkRes {
  res_id : string;
  res_object : string;
  res_deleted : bool
}.

(** The handler: [rentalService.withTransaction(manager).delete(id)] inside
    [manager.transaction], then the response. *)
Definition handler (id : string) : M Res :=
  transaction (RentalService.delete true id) ;;;
  ret (mkRes id "rental" true).

End AdminDeleteRental.

(** ** The admin create-rental route *)

Module AdminPostRentals.

(** The validated request classes: a field that the class declares with a
    default carries it when the body gives none. *)
Record RentalVariantReq : Type := mkRentalVariantReq {
  rq_title : string;
  rq_sku : option string;
  (** [inventory_quantity?: number = 0] *)
  rq_inventory_quantity : Z;
  rq_metadata : list (string * string);
  rq_prices : list RentalVariantPrice;
  (** [options?: RentalVariantOptionReq[] = []], the values only *)
  rq_options : list string
}.

Record AdminPostRentalsReq : Type := mkAdminPostRentalsReq {
  title : string;
  description : option string;
  is_giftcard : bool;
  discountable : bool;
  images : option (list string);
  thumbnail : option string;
  type : option string;
  collection_id : option string;
  tags : option (list string);
  sales_channels : option (list string);
  (** [options?: RentalOptionReq[]], the titles *)
  options : option (list string);
  variants : option (list RentalVariantReq)
}.

Definition defaultAdminRentalRelations : list string :=
  ["variants"; "variants.prices"; "variants.options"; "images"; "options";
   "tags"; "type"; "collection"].

Definition defaultAdminRentalFields : list string :=
  ["id"; "title"; "description"; "thumbnail"; "is_giftcard"; "discountable";
   "profile_id"; "type_id"; "collection_id"; "deleted_at"].

(** The first half of the transaction callback: the shipping profile is
    looked up and [rentalService.withTransaction(manager).create] runs. *)
Definition create_rental (validated : AdminPostRentalsReq) : M Rental :=
  s <- get ;;
  let thumbnail :=
    if negb (truthy_string (thumbnail validated))
       && RentalService.non_empty (images validated)
    then hd_error (RentalService.or_nil (images validated))
    else thumbnail validated in
  let shippingProfile :=
    if is_giftcard validated then gift_card_profile s else default_profile s in
  RentalService.create true
    (mkCreateRentalInput (title validated) (description validated) thumbnail
       (Some (is_giftcard validated)) (Some (discountable validated))
       (Some shippingProfile) (collection_id validated) (type validated)
       (images validated) (tags validated) (options validated)
       (sales_channels validated)).

(** [v.options.map((o, index) => ({ ...o, option_id: optionIds[index] }))] *)
Fixpoint with_option_ids (optionIds : list (option string)) (values : list string)
  : list RentalVariantOption :=
  match values with
  | [] => []
  | v :: values' =>
      mkRentalVariantOption (match optionIds with
                             | oid :: _ => oid
                             | [] => None
                             end) v
      :: with_option_ids (tl optionIds) values'
  end.

(** The inputs of the calls of [create], one per variant, after
    [variant["variant_rank"] = i]. *)
Fixpoint inputs_from (optionIds : list (option string)) (i : nat)
  (variants : list RentalVariantReq) : list CreateRentalVariantInput :=
  match variants with
  | [] => []
  | v :: rest =>
      mkCreateRentalVariantInput (Some (rq_title v)) (rq_sku v)
        (Some (Z.of_nat i)) (Some (rq_inventory_quantity v)) (rq_metadata v)
        (with_option_ids optionIds (rq_options v))
        (Some (rq_prices v))
      :: inputs_from optionIds (S i) rest
  end.

(** [Promise.all(variants.map(async (v) => ... create(newRental.id, variant)))].
    The calls are started one after the other and each begins with its read
    of the rental; the reads are queued on the connection of the transaction
    before any call goes on, so the checks of every call see the database
    as it is before the first write, and the first call whose checks fail
    rejects the [Promise.all].  What the other calls write by then is undone
    with the transaction of the handler, the only caller, and is left out
    here.  The writes of the calls are taken in array order. *)
Definition create_variants_from (rental_id : string) (optionIds : list (option string))
  (i : nat) (variants : list RentalVariantReq) : M unit :=
  let inputs := inputs_from optionIds i variants in
  s0 <- get ;;
  checked <- mapM (fun input =>
                     settled (fst (RentalVariantService.checks (inl rental_id)
                                     input s0)))
                  inputs ;;
  forM_ (combine inputs checked)
        (fun call =>
           RentalVariantService.persist (fst (snd call)) (snd (snd call)) (fst call) ;;;
           ret tt).

(** The second half of the transaction callback: [if (variants) { ... }]. *)
Definition create_variants (validated : AdminPostRentalsReq) (newRental : Rental)
  : M unit :=
  match variants validated with
  | None => ret tt
  | Some variants =>
      optionIds <-
        match options validated with
        | None => ret []
        | Some os =>
            match e_options newRental with
            | None => throw TypeError
            | Some newOptions =>
                ret (map (fun title =>
                            option_map o_id
                              (find (fun newO => String.eqb (o_title newO) title)
                                    newOptions))
                         os)
            end
        end ;;
      create_variants_from (e_id newRental) optionIds 0 variants
  end.

(** The handler: one [entityManager.transaction] around both halves, then
    the rental is read back for the response. *)
Definition handler (validated : AdminPostRentalsReq) : M Rental :=
  newRental <- transaction (
    newRental <- create_rental validated ;;
    create_variants validated newRental ;;;
    ret newRental) ;;
  RentalService.retrieve (e_id newRental) defaultAdminRentalRelations
    defaultAdminRentalFields.

End AdminPostRentals.

(** * Example data *)

Definition empty_store : Store :=
  mkStore [] [] [] [] [] [] [] [("reg_eu", "eur")] "sp_default" "sp_gift"
    false [] 0.

(** The request of the spec's example scenario: a tent with the option
    "Size" and the variant "Small". *)
Definition tent_request : AdminPostRentals.AdminPostRentalsReq :=
  AdminPostRentals.mkAdminPostRentalsReq "Tent" None false true None None None
    None None None (Some ["Size"])
    (Some [AdminPostRentals.mkRentalVariantReq "Small" None 0 []
             [mkRentalVariantPrice None (Some "usd") None 2000] ["S"]]).

(** The database after that request: rental [rental_0], option [opt_1],
    variant [variant_2] holding "S", one price. *)
Definition tent_store : Store :=
  Eval vm_compute in snd (AdminPostRentals.handler tent_request empty_store).

Definition tent_row : RentalRow :=
  mkRentalRow "rental_0" "Tent" None None false true "sp_default" None None false.

Definition small_row : RentalVariantRow :=
  mkRentalVariantRow "variant_2" (Some "Small") "rental_0" None (Some 0%Z)
    (Some 0%Z) [] false.

Definition variant_input (title size : string) : CreateRentalVariantInput :=
  mkCreateRentalVariantInput (Some title) None None (Some 0%Z) []
    [mkRentalVariantOption (Some "opt_1") size] None.

Definition variant_input_without_options : CreateRentalVariantInput :=
  mkCreateRentalVariantInput (Some "Bare") None None (Some 0%Z) [] [] None.

(** An update of the tent that puts a new variant "Medium", with nothing in
    stock, in front of the existing variant [variant_2]. *)
Definition medium_in_front : UpdateRentalInput :=
  mkUpdateRentalInput None None None None None None None None None None None
    (Some [mkVariantDTO None (Some "Medium") None (Some 0%Z) None None
             (Some [mkRentalVariantOption (Some "opt_1") "M"]);
           mkVariantDTO (Some "variant_2") None None None None None None]).

(** The ranks of the variants an update returns, position by position. *)
Definition returned_ranks (r : Outcome Rental * Store) : list (string * option Z) :=
  match fst r with
  | Ok rental =>
      match e_variants rental with
      | Some vs => map (fun v => (ve_id v, v_variant_rank (ve_row v))) vs
      | None => []
      end
  | Throw _ => []
  end.

(** The tent with a second variant "Medium" ([variant_5]). *)
Definition two_variant_store : Store :=
  Eval vm_compute in
    snd (RentalVariantService.create false (inl "rental_0")
           (variant_input "Medium" "M") tent_store).

(** A request the variant half of the route rejects: the rental declares
    the option "Size", its variant supplies no option value. *)
Definition tent_request_without_values : AdminPostRentals.AdminPostRentalsReq :=
  AdminPostRentals.mkAdminPostRentalsReq "Tent" None false true None None None
    None None None (Some ["Size"])
    (Some [AdminPostRentals.mkRentalVariantReq "Small" None 0 [] [] []]).

(** A second rental, a tarp, next to the tent. *)
Definition tarp_request : AdminPostRentals.AdminPostRentalsReq :=
  AdminPostRentals.mkAdminPostRentalsReq "Tarp" (Some "A tarp for the tent") false
    true None None None None None None (Some ["Size"])
    (Some [AdminPostRentals.mkRentalVariantReq "Large" None 0 [] [] ["L"]]).

Definition camp_store : Store :=
  Eval vm_compute in snd (AdminPostRentals.handler tarp_request tent_store).


(** Two event buses for [reorderVariants], which hands the bus the pending
    promise of the save as the data of the event.  The first stages the
    event, with data that names no rental; the second is a bus whose staged
    job cannot take a promise as its data and fails. *)
Definition bus_stages : M unit := emit RentalService.UPDATED "" [].

Definition bus_refuses : M unit := throw QueryFailedError.

(** * Vocabulary of the properties *)

(** The options a rental declares, as [RentalVariantService.create] reads
    them: from the database for a rental id, from the object otherwise. *)
Definition declared_options (s : Store) (rentalOrRentalId : string + Rental)
  : option (list RentalOptionRow) :=
  match rentalOrRentalId with
  | inl id =>
      match findOne_rental s id ["variants"; "variants.options"; "options"] with
      | Some r => e_options r
      | None => None
      end
  | inr r => e_options r
  end.

(** The supplied values cover the option set exactly: as many values as
    options, and a value for every option. *)
Definition covers (options : list RentalOptionRow)
  (supplied : list RentalVariantOption) : Prop :=
  length supplied = length options /\
  forall o, In o options ->
    exists vo, In vo supplied /\ option_id vo = Some (o_id o).

(** The option-value assignment of a stored variant and the one an input
    supplies, as lists of (option id, value) pairs. *)
Definition stored_assignment (stored : list RentalOptionValueRow)
  : list (option string * string) :=
  map (fun ov => (Some (ov_option_id ov), ov_value ov)) stored.

Definition supplied_assignment (supplied : list RentalVariantOption)
  : list (option string * string) :=
  map (fun o => (option_id o, value o)) supplied.

(** The id [generateEntityId] hands out next for the prefix. *)
Definition next_generated (prefix : string) (s : Store) : string :=
  (prefix ++ "_" ++ string_of_nat (next_id s))%string.

(** The tables of the aggregate other than prices. *)
Definition same_catalog (s s' : Store) : Prop :=
  rentals s' = rentals s /\
  rental_options s' = rental_options s /\
  rental_variants s' = rental_variants s /\
  rental_option_values s' = rental_option_values s.

(** A computation that leaves those tables as they are, whatever it
    returns. *)
Definition preserves_catalog {A : Type} (m : M A) : Prop :=
  forall s, same_catalog s (snd (m s)).

(** The default price rows of a (variant, region) scope: live rows outside
    every price list. *)
Definition default_prices (s : Store) (variant_id region_id : string)
  : list MoneyAmountRow :=
  filter (fun ma => String.eqb (ma_variant_id ma) variant_id
                    && opt_eqb (ma_region_id ma) (Some region_id)
                    && is_default ma && negb (ma_deleted ma))
         (money_amounts s).

(** The last defined value of a list, the result of merging optional
    properties in order. *)
Definition last_some {A : Type} (l : list (option A)) : option A :=
  fold_left RentalRepository.merge_opt l None.

(** What the group-join-merge of [findWithRelations] loads for a rental
    under [variants] and under [options]: the relation is defined when a
    group of that name was asked for. *)
Definition group_variants (s : Store) (wd : bool) (rid : string)
  (groupedRelations : list (string * list string)) : option (list RentalVariant) :=
  last_some
    (map (fun g => if String.eqb (fst g) "variants"
                   then Some (load_variants s wd (filter has_rest (snd g)) rid)
                   else None)
         groupedRelations).

Definition group_options (s : Store) (wd : bool) (rid : string)
  (groupedRelations : list (string * list string)) : option (list RentalOptionRow) :=
  last_some
    (map (fun g => if String.eqb (fst g) "variants" then None
                   else if String.eqb (fst g) "options"
                        then Some (load_options s wd rid) else None)
         groupedRelations).

(** The variants [retrieve] loads for the relation list [["variants"]]: the
    live variants of the rental, without nested relations. *)
Definition current_variants (s : Store) (rid : string) : list RentalVariant :=
  load_variants s false [] rid.

(** [v] is the variant object the id stands for: the first current variant
    with that id. *)
Definition variant_for (s : Store) (rid vId : string) (v : RentalVariant) : Prop :=
  find (fun v => String.eqb (ve_id v) vId) (current_variants s rid) = Some v.

(** The option [deleteOption] looks up: a live option with the id on the
    rental. *)
Definition option_on_rental (s : Store) (rid optionId : string)
  : option RentalOptionRow :=
  find (fun o => String.eqb (o_id o) optionId && String.eqb (o_rental_id o) rid
                 && negb (o_deleted o))
       (rental_options s).

(** The value a variant holds for an option, if any. *)
Definition held (s : Store) (optionId : string) (v : RentalVariantRow)
  : option string :=
  RentalService.held_value optionId (load_option_values s false (v_id v)).

(** The reading of the create route as two transactions: whenever the
    rental half succeeds and the variant half throws, the handler leaves
    the rental row in the database. *)
Definition rental_persists_on_variant_failure : Prop :=
  forall validated s newRental s1 e s2,
    AdminPostRentals.create_rental validated s = (Ok newRental, s1) ->
    AdminPostRentals.create_variants validated newRental s1 = (Throw e, s2) ->
    exists row,
      In row (rentals (snd (AdminPostRentals.handler validated s))) /\
      r_id row = e_id newRental.

(** The relations an entity carries. *)
Definition rels_of (e : Rental)
  : option (list RentalOptionRow) * option (list RentalVariant)
    * list (string * list string) :=
  (e_options e, e_variants e, e_links e).

Definition no_rels
  : option (list RentalOptionRow) * option (list RentalVariant)
    * list (string * list string) :=
  (None, None, []).

Definition merge_rels
  (a b : option (list RentalOptionRow) * option (list RentalVariant)
         * list (string * list string)) :=
  (RentalRepository.merge_opt (fst (fst a)) (fst (fst b)),
   RentalRepository.merge_opt (snd (fst a)) (snd (fst b)),
   RentalRepository.merge_links (snd a) (snd b)).

(** The group-join-merge of one rental row: every group of the relation
    list joins its top-level relation, and the joined relations are merged
    in the order of the groups. *)
Definition hydrate (s : Store) (wd : bool)
  (groupedRelations : list (string * list string)) (r : RentalRow) :=
  fold_left merge_rels
    (map (fun g => rels_of (RentalRepository.join_group s wd [] (fst g) (snd g) r))
         groupedRelations)
    no_rels.

(** A group of [groupBy], as the list of its members. *)
Definition members (g : string * (Rental * list Rental)) : list Rental :=
  fst (snd g) :: snd (snd g).

(** ** Further example data and vocabulary *)

(** The tent after its only option was deleted: the variant [variant_2]
    holds no live option value. *)
Definition tent_without_size : Store :=
  Eval vm_compute in
    snd (RentalService.deleteOption false "rental_0" "opt_1" tent_store).

(** A computation that throws nothing but errors satisfying [P]. *)
Definition throws_only {A : Type} (P : Exn -> Prop) (m : M A) : Prop :=
  forall s e s', m s = (Throw e, s') -> P e.


(** The camp with the sales-channel feature enabled and the tent sold in
    the channel [sc_web]. *)
Definition channel_store : Store :=
  mkStore (rentals camp_store) (rental_options camp_store)
    (rental_variants camp_store) (rental_option_values camp_store)
    (money_amounts camp_store) (rental_collections camp_store)
    [mkLinkRow "sales_channels" "rental_0" "sc_web"]
    (regions camp_store) (default_profile camp_store)
    (gift_card_profile camp_store) true (events camp_store) (next_id camp_store).

(** The camp with a collection "Summer" ([pcol_9]). *)
Definition summer_store : Store :=
  Eval vm_compute in snd (RentalCollectionService.create false "Summer" camp_store).

(** The tent with a second option "Color" ([opt_5]). *)
Definition color_store : Store :=
  Eval vm_compute in snd (RentalService.addOption false "rental_0" "Color" tent_store).

(** A gift card with two images and no thumbnail. *)
Definition gift_card_input : CreateRentalInput :=
  mkCreateRentalInput "Gift card" None None (Some true) (Some true)
    (Some "sp_gift") None None (Some ["front.png"; "back.png"]) None
    (Some ["Amount"]) None.

(** The tent put into the collection "Summer". *)
Definition summer_tent_store : Store :=
  Eval vm_compute in
    snd (RentalCollectionService.addRentals false "pcol_9" ["rental_0"] summer_store).





(** * Properties *)

Unset Implicit Arguments.

(** ** The monad *)

Lemma atomicPhase_fst : forall (A : Type) (tx : bool) (work : M A) (s : Store),
  fst (atomicPhase_ tx work s) = fst (work s).
Proof.
  intros A tx work s. unfold atomicPhase_, transaction.
  destruct tx; [reflexivity|].
  destruct (work s) as [[a|e] s']; reflexivity.
Qed.

Lemma atomicPhase_ok : forall (A : Type) (tx : bool) (work : M A) (s s' : Store) (a : A),
  work s = (Ok a, s') -> atomicPhase_ tx work s = (Ok a, s').
Proof.
  intros A tx work s s' a H. unfold atomicPhase_, transaction.
  destruct tx; rewrite H; reflexivity.
Qed.

Lemma atomicPhase_ok_inv : forall (A : Type) (tx : bool) (work : M A) (s s' : Store) (a : A),
  atomicPhase_ tx work s = (Ok a, s') -> work s = (Ok a, s').
Proof.
  intros A tx work s s' a. unfold atomicPhase_, transaction.
  destruct tx; [tauto|].
  destruct (work s) as [[x|e] s1]; intros H; inversion H; reflexivity.
Qed.

Lemma transaction_throw : forall (A : Type) (body : M A) (s s' : Store) (e : Exn),
  body s = (Throw e, s') -> transaction body s = (Throw e, s).
Proof.
  intros A body s s' e H. unfold transaction. rewrite H. reflexivity.
Qed.

Lemma bind_ok : forall (A B : Type) (m : M A) (k : A -> M B) (s s' : Store) (a : A),
  m s = (Ok a, s') -> bind m k s = k a s'.
Proof. intros. unfold bind. rewrite H. reflexivity. Qed.

Lemma bind_throw : forall (A B : Type) (m : M A) (k : A -> M B) (s s' : Store) (e : Exn),
  m s = (Throw e, s') -> bind m k s = (Throw e, s').
Proof. intros. unfold bind. rewrite H. reflexivity. Qed.

(** ** Strings and lists *)

Lemma mem_string_In : forall (x : string) (l : list string),
  mem_string x l = true <-> In x l.
Proof.
  intros x l. unfold mem_string. rewrite existsb_exists. split.
  - intros [y [Hy E]]. apply String.eqb_eq in E. subst. exact Hy.
  - intros H. exists x. split; [exact H | apply String.eqb_refl].
Qed.

Lemma opt_eqb_eq : forall a b : option string, opt_eqb a b = true <-> a = b.
Proof.
  intros [a|] [b|]; simpl; split; intros H; try discriminate; try reflexivity.
  - apply String.eqb_eq in H. subst. reflexivity.
  - inversion H. apply String.eqb_refl.
Qed.

Lemma opt_eqb_refl : forall a : option string, opt_eqb a a = true.
Proof. intros a. apply opt_eqb_eq. reflexivity. Qed.

(** ** Variant creation: the option set must be covered exactly *)

Lemma find_option_some : forall oid options vo,
  RentalVariantService.find_option oid options = Some vo ->
  In vo options /\ option_id vo = oid.
Proof.
  intros oid options vo H. unfold RentalVariantService.find_option in H.
  apply find_some in H. destruct H as [Hin E].
  apply opt_eqb_eq in E. split; [exact Hin | symmetry; exact E].
Qed.

Lemma find_option_none : forall oid options vo,
  RentalVariantService.find_option oid options = None ->
  In vo options -> option_id vo <> oid.
Proof.
  intros oid options vo H Hin E.
  unfold RentalVariantService.find_option in H.
  apply (find_none _ _ H) in Hin. subst oid.
  rewrite opt_eqb_refl in Hin. discriminate.
Qed.

Lemma covers_checks : forall options supplied,
  Nat.eqb (length options) (length supplied) = true ->
  forallb (fun option =>
             match RentalVariantService.find_option (Some (o_id option)) supplied with
             | Some _ => true
             | None => false
             end) options = true ->
  covers options supplied.
Proof.
  intros options supplied Hlen Hall. split.
  - apply Nat.eqb_eq in Hlen. symmetry. exact Hlen.
  - intros o Ho. rewrite forallb_forall in Hall. specialize (Hall o Ho).
    destruct (RentalVariantService.find_option (Some (o_id o)) supplied) as [vo|] eqn:E;
      [|discriminate].
    apply find_option_some in E. exists vo. exact E.
Qed.

(** C4. For a rental with N declared options, [RentalVariantService.create]
    fails with [INVALID_DATA] whenever the supplied option values do not
    cover the rental's option set exactly: when their number differs from N
    or when some option of the rental has no supplied value with its
    [option_id]. *)
Theorem C4_create_rejects_uncovered_option_set :
  forall (tx : bool) (s : Store) (rentalOrRentalId : string + Rental)
         (options : list RentalOptionRow) (variant : CreateRentalVariantInput),
    declared_options s rentalOrRentalId = Some options ->
    ~ covers options (cv_options variant) ->
    fst (RentalVariantService.create tx rentalOrRentalId variant s)
    = Throw (MedusaError INVALID_DATA).
Proof.
  intros tx s x options variant Hdecl Hnot.
  unfold RentalVariantService.create, RentalVariantService.checks. rewrite atomicPhase_fst.
  unfold bind, get, ret, throw. unfold declared_options in Hdecl.
  destruct x as [id|r].
  - destruct (findOne_rental s id ["variants"; "variants.options"; "options"])
      as [rental|]; [|discriminate].
    rewrite Hdecl.
    destruct (Nat.eqb (length options) (length (cv_options variant))) eqn:Hlen;
      simpl; [|reflexivity].
    match goal with
    | |- context [forallb ?f options] => destruct (forallb f options) eqn:Hall
    end; simpl; [|reflexivity].
    exfalso. apply Hnot. apply covers_checks; assumption.
  - destruct (String.eqb (e_id r) EmptyString); [reflexivity|].
    rewrite Hdecl.
    destruct (Nat.eqb (length options) (length (cv_options variant))) eqn:Hlen;
      simpl; [|reflexivity].
    match goal with
    | |- context [forallb ?f options] => destruct (forallb f options) eqn:Hall
    end; simpl; [|reflexivity].
    exfalso. apply Hnot. apply covers_checks; assumption.
Qed.

(** ** Variant creation: no second variant with the same assignment *)

Lemma NoDup_map_In_inj : forall (A B : Type) (f : A -> B) (l : list A) (x y : A),
  NoDup (map f l) -> In x l -> In y l -> f x = f y -> x = y.
Proof.
  intros A B f l. induction l as [|a l IH]; intros x y Hnd Hx Hy E.
  - destruct Hx.
  - simpl in Hnd. inversion Hnd as [|? ? Hnotin Hnd']; subst.
    destruct Hx as [Hx|Hx], Hy as [Hy|Hy]; subst.
    + reflexivity.
    + exfalso. apply Hnotin. rewrite E. apply in_map. exact Hy.
    + exfalso. apply Hnotin. rewrite <- E. apply in_map. exact Hx.
    + apply IH; assumption.
Qed.

Lemma covers_NoDup : forall options supplied,
  NoDup (map o_id options) ->
  covers options supplied ->
  NoDup (map option_id supplied).
Proof.
  intros options supplied Hnd [Hlen Hcov].
  assert (Hnd' : NoDup (map (fun o => Some (o_id o)) options)).
  { rewrite <- (map_map o_id Some).
    apply Finite.Injective_map_NoDup; [|exact Hnd].
    intros a b E. inversion E. reflexivity. }
  apply (Permutation_NoDup (l := map (fun o => Some (o_id o)) options));
    [|exact Hnd'].
  apply NoDup_Permutation_bis.
  - exact Hnd'.
  - rewrite !length_map. rewrite Hlen. apply Nat.le_refl.
  - intros x Hx. apply in_map_iff in Hx. destruct Hx as [o [E Ho]]. subst x.
    destruct (Hcov o Ho) as [vo [Hvo E]]. rewrite <- E. apply in_map. exact Hvo.
Qed.

Lemma same_options_of_permutation : forall supplied stored,
  NoDup (map option_id supplied) ->
  Permutation (stored_assignment stored) (supplied_assignment supplied) ->
  RentalVariantService.same_options supplied stored = true.
Proof.
  intros supplied stored Hnd Hperm.
  unfold RentalVariantService.same_options. apply forallb_forall.
  intros ov Hov.
  assert (Hin : In (Some (ov_option_id ov), ov_value ov) (supplied_assignment supplied)).
  { apply (Permutation_in _ Hperm). unfold stored_assignment.
    apply (in_map (fun ov => (Some (ov_option_id ov), ov_value ov))). exact Hov. }
  unfold supplied_assignment in Hin. apply in_map_iff in Hin.
  destruct Hin as [vo [E Hvo]].
  assert (E1 : option_id vo = Some (ov_option_id ov)) by congruence.
  assert (E2 : value vo = ov_value ov) by congruence.
  clear E.
  destruct (RentalVariantService.find_option (Some (ov_option_id ov)) supplied)
    as [vo'|] eqn:F.
  - apply find_option_some in F. destruct F as [Hvo' E'].
    assert (vo' = vo).
    { apply (NoDup_map_In_inj _ _ option_id supplied); try assumption.
      rewrite E', E1. reflexivity. }
    subst vo'. rewrite E2. apply String.eqb_refl.
  - exfalso. apply (find_option_none _ _ vo F Hvo). exact E1.
Qed.

Lemma find_variant_exists_hit : forall supplied variants v stored,
  Forall (fun v => ve_options v <> None) variants ->
  In v variants ->
  ve_options v = Some stored ->
  RentalVariantService.same_options supplied stored = true ->
  exists v', RentalVariantService.find_variant_exists supplied variants = Ok (Some v').
Proof.
  intros supplied variants v stored Hall. induction Hall as [|w ws Hw Hws IH];
    intros Hin Hv Hsame.
  - destruct Hin.
  - simpl. destruct (ve_options w) as [sw|] eqn:Ew; [|congruence].
    destruct (RentalVariantService.same_options supplied sw) eqn:Esw.
    + exists w. reflexivity.
    + destruct Hin as [Hin|Hin].
      * subst w. rewrite Hv in Ew. inversion Ew. subst sw. congruence.
      * apply IH; assumption.
Qed.

Lemma load_variants_options_loaded : forall s wd rels rid,
  mem_string "variants.options" rels = true ->
  Forall (fun v => ve_options v <> None) (load_variants s wd rels rid).
Proof.
  intros s wd rels rid Hmem. unfold load_variants. apply Forall_forall.
  intros v Hv. apply in_map_iff in Hv. destruct Hv as [row [E _]]. subst v.
  simpl. rewrite Hmem. discriminate.
Qed.

Lemma load_variants_In : forall s wd rels rid row,
  In row (rental_variants s) -> v_rental_id row = rid -> v_deleted row = false ->
  mem_string "variants.options" rels = true ->
  exists v, In v (load_variants s wd rels rid) /\
            ve_row v = row /\
            ve_options v = Some (load_option_values s wd (v_id row)).
Proof.
  intros s wd rels rid row Hin Hrid Hdel Hmem.
  eexists. split; [|split].
  - unfold load_variants. apply in_map. unfold variant_rows. apply filter_In.
    split; [exact Hin|]. rewrite Hrid, String.eqb_refl, Hdel. reflexivity.
  - reflexivity.
  - simpl. rewrite Hmem. reflexivity.
Qed.

Lemma findOne_rental_live : forall s rid relations r,
  In r (rentals s) -> r_id r = rid -> r_deleted r = false ->
  exists r', findOne_rental s rid relations
             = Some (mkRental r' []
                       (if mem_string "options" relations
                        then Some (load_options s false rid) else None)
                       (if mem_string "variants" relations
                        then Some (load_variants s false relations rid) else None)
                       [])
             /\ r_id r' = rid.
Proof.
  intros s rid relations r Hin Hid Hdel. unfold findOne_rental.
  destruct (find (fun r0 => String.eqb (r_id r0) rid && negb (r_deleted r0)) (rentals s))
    as [r'|] eqn:F.
  - exists r'. split; [reflexivity|].
    apply find_some in F. destruct F as [_ F].
    apply andb_true_iff in F. destruct F as [F _]. apply String.eqb_eq. exact F.
  - exfalso. apply (find_none _ _ F) in Hin.
    rewrite Hid, String.eqb_refl, Hdel in Hin. discriminate.
Qed.

(** An input whose assignment is that of an existing variant is rejected
    with [DUPLICATE_ERROR]. *)
Lemma create_duplicate_assignment :
  forall (tx : bool) (s : Store) (rid : string) (r : RentalRow)
         (variant : CreateRentalVariantInput) (existing : RentalVariantRow),
    In r (rentals s) -> r_id r = rid -> r_deleted r = false ->
    NoDup (map o_id (load_options s false rid)) ->
    covers (load_options s false rid) (cv_options variant) ->
    In existing (rental_variants s) ->
    v_rental_id existing = rid -> v_deleted existing = false ->
    Permutation (stored_assignment (load_option_values s false (v_id existing)))
                (supplied_assignment (cv_options variant)) ->
    fst (RentalVariantService.create tx (inl rid) variant s)
    = Throw (MedusaError DUPLICATE_ERROR).
Proof.
  intros tx s rid r variant existing Hr Hid Hdel Hnd Hcov Hex Hexr Hexd Hperm.
  unfold RentalVariantService.create, RentalVariantService.checks. rewrite atomicPhase_fst.
  unfold bind, get, ret, throw.
  destruct (findOne_rental_live s rid ["variants"; "variants.options"; "options"]
              r Hr Hid Hdel)
    as [r' [F Hr']].
  rewrite F. cbn [e_options e_variants e_id e_row].
  replace (mem_string "options" ["variants"; "variants.options"; "options"])
    with true by reflexivity.
  replace (mem_string "variants" ["variants"; "variants.options"; "options"])
    with true by reflexivity.
  cbv iota.
  destruct Hcov as [Hlen Hcov'].
  assert (Hlenb : Nat.eqb (length (load_options s false rid))
                          (length (cv_options variant)) = true).
  { apply Nat.eqb_eq. symmetry. exact Hlen. }
  rewrite Hlenb. simpl negb. cbv iota.
  match goal with
  | |- context [forallb ?f (load_options s false rid)] =>
      assert (Hall : forallb f (load_options s false rid) = true)
  end.
  { apply forallb_forall. intros o Ho. destruct (Hcov' o Ho) as [vo [Hvo E]].
    destruct (RentalVariantService.find_option (Some (o_id o)) (cv_options variant))
      eqn:Fo; [reflexivity|].
    exfalso. exact (find_option_none _ _ vo Fo Hvo E). }
  rewrite Hall. simpl negb. cbv iota.
  destruct (load_variants_In s false ["variants"; "variants.options"; "options"]
              rid existing Hex Hexr Hexd eq_refl) as [v [Hv [_ Hvo]]].
  destruct (find_variant_exists_hit (cv_options variant) _ v _
              (load_variants_options_loaded s false
                 ["variants"; "variants.options"; "options"] rid eq_refl)
              Hv Hvo) as [v' Hhit].
  { apply same_options_of_permutation; [|exact Hperm].
    apply (covers_NoDup _ _ Hnd). split; assumption. }
  rewrite Hhit. reflexivity.
Qed.

(** *** Price operations leave the catalog tables alone *)

Lemma same_catalog_refl : forall s, same_catalog s s.
Proof. intros s. repeat split. Qed.

Lemma same_catalog_trans : forall s1 s2 s3,
  same_catalog s1 s2 -> same_catalog s2 s3 -> same_catalog s1 s3.
Proof.
  intros s1 s2 s3 [A1 [A2 [A3 A4]]] [B1 [B2 [B3 B4]]].
  repeat split; congruence.
Qed.

Lemma preserves_ret : forall (A : Type) (a : A), preserves_catalog (ret a).
Proof. intros A a s. apply same_catalog_refl. Qed.

Lemma preserves_throw : forall (A : Type) (e : Exn), preserves_catalog (@throw A e).
Proof. intros A e s. apply same_catalog_refl. Qed.

Lemma preserves_get : preserves_catalog get.
Proof. intros s. apply same_catalog_refl. Qed.

Lemma preserves_bind : forall (A B : Type) (m : M A) (k : A -> M B),
  preserves_catalog m -> (forall a, preserves_catalog (k a)) ->
  preserves_catalog (bind m k).
Proof.
  intros A B m k Hm Hk s. unfold bind. specialize (Hm s).
  destruct (m s) as [[a|e] s1]; simpl in Hm.
  - apply (same_catalog_trans _ _ _ Hm). apply Hk.
  - exact Hm.
Qed.

Lemma preserves_transaction : forall (A : Type) (body : M A),
  preserves_catalog body -> preserves_catalog (transaction body).
Proof.
  intros A body Hb s. unfold transaction. specialize (Hb s).
  destruct (body s) as [[a|e] s1]; simpl in *.
  - exact Hb.
  - apply same_catalog_refl.
Qed.

Lemma preserves_atomicPhase : forall (A : Type) (tx : bool) (work : M A),
  preserves_catalog work -> preserves_catalog (atomicPhase_ tx work).
Proof.
  intros A tx work H. unfold atomicPhase_. destruct tx;
    [exact H | apply preserves_transaction; exact H].
Qed.

Lemma preserves_set_money_amounts : forall f,
  preserves_catalog (modify (set_money_amounts f)).
Proof. intros f s. repeat split. Qed.

Lemma preserves_emit : forall name id fields, preserves_catalog (emit name id fields).
Proof. intros name id fields s. repeat split. Qed.

Lemma preserves_generateEntityId : forall prefix,
  preserves_catalog (generateEntityId prefix).
Proof. intros prefix s. repeat split. Qed.

Lemma preserves_forM_ : forall (A : Type) (xs : list A) (body : A -> M unit),
  (forall x, preserves_catalog (body x)) -> preserves_catalog (forM_ xs body).
Proof.
  intros A xs body H. induction xs as [|x xs IH]; simpl.
  - apply preserves_ret.
  - apply preserves_bind; [apply H | intros _; exact IH].
Qed.

Lemma preserves_update_amount : forall id a, preserves_catalog (update_amount id a).
Proof.
  intros id a. unfold update_amount.
  destruct (int4 a); [apply preserves_set_money_amounts | apply preserves_throw].
Qed.

Lemma preserves_insert_price : forall row, preserves_catalog (insert_price row).
Proof.
  intros row. unfold insert_price.
  apply preserves_bind; [apply preserves_get|]. intros s.
  destruct (storable_price s row); [|apply preserves_throw].
  apply preserves_bind; [apply preserves_set_money_amounts|].
  intros _. apply preserves_ret.
Qed.

Lemma preserves_save_new_price : forall variant_id price,
  preserves_catalog (save_new_price variant_id price).
Proof.
  intros variant_id price. unfold save_new_price.
  destruct (p_id price) as [id|].
  - apply preserves_bind; [apply preserves_get|]. intros s.
    destruct (find _ (money_amounts s)); [|apply preserves_insert_price].
    destruct (storable_price s _); [|apply preserves_throw].
    apply preserves_bind; [apply preserves_set_money_amounts|].
    intros _. apply preserves_ret.
  - apply preserves_bind; [apply preserves_generateEntityId|]. intros id.
    apply preserves_insert_price.
Qed.

Lemma preserves_setRegionPrice : forall tx variantId price,
  preserves_catalog (RentalVariantService.setRegionPrice tx variantId price).
Proof.
  intros tx variantId price. unfold RentalVariantService.setRegionPrice.
  apply preserves_atomicPhase.
  apply preserves_bind; [apply preserves_get|]. intros s.
  destruct (find _ (money_amounts s)).
  - apply preserves_bind; [apply preserves_update_amount|].
    intros _. apply preserves_ret.
  - apply preserves_save_new_price.
Qed.

Lemma preserves_setCurrencyPrice : forall tx variantId price,
  preserves_catalog (RentalVariantService.setCurrencyPrice tx variantId price).
Proof.
  intros tx variantId price. unfold RentalVariantService.setCurrencyPrice.
  apply preserves_atomicPhase. unfold upsertVariantCurrencyPrice.
  apply preserves_bind; [apply preserves_get|]. intros s.
  destruct (find _ (money_amounts s)).
  - apply preserves_bind; [apply preserves_update_amount|].
    intros _. apply preserves_ret.
  - apply preserves_save_new_price.
Qed.

Lemma preserves_region_retrieve : forall region_id,
  preserves_catalog (region_retrieve region_id).
Proof.
  intros region_id. unfold region_retrieve.
  apply preserves_bind; [apply preserves_get|]. intros s.
  destruct (find _ (regions s)); [apply preserves_ret | apply preserves_throw].
Qed.

Lemma preserves_set_prices : forall variantId prices,
  preserves_catalog (RentalVariantService.set_prices variantId prices).
Proof.
  intros variantId prices. unfold RentalVariantService.set_prices.
  apply preserves_forM_. intros price.
  destruct (truthy_string (p_region_id price)).
  - apply preserves_bind; [apply preserves_region_retrieve|]. intros region.
    apply preserves_bind; [apply preserves_setRegionPrice|].
    intros _. apply preserves_ret.
  - apply preserves_bind; [apply preserves_setCurrencyPrice|].
    intros _. apply preserves_ret.
Qed.

(** *** What a successful [create] leaves behind *)

Lemma bind_ok_inv : forall (A B : Type) (m : M A) (k : A -> M B) (s s' : Store) (b : B),
  bind m k s = (Ok b, s') ->
  exists a s1, m s = (Ok a, s1) /\ k a s1 = (Ok b, s').
Proof.
  intros A B m k s s' b H. unfold bind in H.
  destruct (m s) as [[a|e] s1]; [|discriminate].
  exists a, s1. split; [reflexivity | exact H].
Qed.

Ltac bind_inv H a s Ha :=
  apply bind_ok_inv in H; destruct H as (a & s & Ha & H).

Lemma insert_option_values_ok : forall vid opts s rows s',
  RentalVariantService.insert_option_values vid opts s = (Ok rows, s') ->
  rentals s' = rentals s /\
  rental_options s' = rental_options s /\
  rental_variants s' = rental_variants s /\
  rental_option_values s' = rental_option_values s ++ rows /\
  Forall (fun ov => ov_variant_id ov = vid /\ ov_deleted ov = false) rows /\
  stored_assignment rows = supplied_assignment opts.
Proof.
  intros vid opts. unfold RentalVariantService.insert_option_values.
  induction opts as [|o opts IH]; intros s rows s' H.
  - simpl in H. unfold ret in H. inversion H; subst.
    rewrite app_nil_r. repeat split. constructor.
  - simpl in H. bind_inv H row s1 Hrow. bind_inv H rows' s2 Hrows.
    unfold ret in H. inversion H; subst; clear H.
    apply IH in Hrows. destruct Hrows as [E1 [E2 [E3 [E4 [E5 E6]]]]].
    destruct (option_id o) as [oid|] eqn:Eo; [|discriminate].
    bind_inv Hrow newid s3 Hid. bind_inv Hrow u s4 Hu.
    unfold ret in Hrow. inversion Hrow; subst; clear Hrow.
    unfold generateEntityId in Hid. inversion Hid; subst; clear Hid.
    unfold modify in Hu. inversion Hu; subst; clear Hu.
    simpl in *.
    repeat split; try assumption.
    + rewrite E4. rewrite <- app_assoc. reflexivity.
    + constructor; [split; reflexivity | exact E5].
    + rewrite Eo, E6. reflexivity.
Qed.

Lemma persist_ok : forall rental_id count variant s created s1,
  RentalVariantService.persist rental_id count variant s = (Ok created, s1) ->
  rentals s1 = rentals s /\
  rental_options s1 = rental_options s /\
  exists values,
    rental_variants s1 = rental_variants s ++ [ve_row created] /\
    v_id (ve_row created) = next_generated "variant" s /\
    v_rental_id (ve_row created) = rental_id /\
    v_deleted (ve_row created) = false /\
    rental_option_values s1 = rental_option_values s ++ values /\
    Forall (fun ov => ov_variant_id ov = v_id (ve_row created) /\ ov_deleted ov = false)
           values /\
    stored_assignment values = supplied_assignment (cv_options variant).
Proof.
  intros rental_id count variant s created s1 H.
  unfold RentalVariantService.persist in H.
  bind_inv H newid sa Hid. bind_inv H st sg Hget. bind_inv H u sb Hu.
  bind_inv H values sc Hvalues.
  bind_inv H u' sd Hprices. bind_inv H u'' se Hemit.
  unfold ret in H. inversion H; subst; clear H.
  unfold generateEntityId in Hid. inversion Hid; subst; clear Hid.
  unfold get in Hget. inversion Hget; subst; clear Hget.
  destruct (RentalVariantService.insertable_variant _ _) in Hu; [|discriminate].
  unfold modify in Hu. inversion Hu; subst; clear Hu.
  unfold emit, modify in Hemit. inversion Hemit; subst; clear Hemit.
  apply insert_option_values_ok in Hvalues. simpl in Hvalues.
  destruct Hvalues as [E1 [E2 [E3 [E4 [E5 E6]]]]].
  assert (Hp : same_catalog sc sd).
  { destruct (cv_prices variant) as [prices|].
    - match type of Hprices with
      | RentalVariantService.set_prices ?i ?p ?st = _ =>
          pose proof (preserves_set_prices i p st) as P
      end.
      rewrite Hprices in P. exact P.
    - unfold ret in Hprices. inversion Hprices. apply same_catalog_refl. }
  destruct Hp as [P1 [P2 [P3 P4]]]. simpl.
  split; [congruence|]. split; [congruence|].
  exists values. repeat split; try assumption; try congruence.
Qed.

Lemma filter_none : forall (A : Type) (f : A -> bool) (l : list A),
  (forall x, In x l -> f x = false) -> filter f l = [].
Proof.
  intros A f l H. induction l as [|a l IH]; [reflexivity|].
  simpl. rewrite (H a (or_introl eq_refl)). apply IH.
  intros x Hx. apply H. right. exact Hx.
Qed.

Lemma findOne_rental_some : forall s rid relations rental,
  findOne_rental s rid relations = Some rental ->
  In (e_row rental) (rentals s) /\ e_id rental = rid /\
  r_deleted (e_row rental) = false /\
  e_options rental = (if mem_string "options" relations
                      then Some (load_options s false rid) else None) /\
  e_variants rental = (if mem_string "variants" relations
                       then Some (load_variants s false relations rid) else None).
Proof.
  intros s rid relations rental H. unfold findOne_rental in H.
  destruct (find (fun r => String.eqb (r_id r) rid && negb (r_deleted r)) (rentals s))
    as [r|] eqn:F; [|discriminate].
  inversion H; subst; clear H. apply find_some in F. destruct F as [Hin F].
  apply andb_true_iff in F. destruct F as [F1 F2].
  apply String.eqb_eq in F1. apply negb_true_iff in F2.
  simpl. unfold e_id. simpl. repeat split; assumption.
Qed.

(** What passing the checks of [create] says about a rental given by its
    id. *)
Lemma checks_ok_inv : forall s rid variant checked s1,
  RentalVariantService.checks (inl rid) variant s = (Ok checked, s1) ->
  s1 = s /\
  checked = (rid, length (variant_rows s false rid)) /\
  (exists r, In r (rentals s) /\ r_id r = rid /\ r_deleted r = false) /\
  covers (load_options s false rid) (cv_options variant).
Proof.
  intros s rid variant checked s1 H. unfold RentalVariantService.checks in H.
  bind_inv H s' sa Hget. unfold get in Hget. inversion Hget; subst s' sa; clear Hget.
  bind_inv H rental sa Hrental.
  destruct (findOne_rental s rid ["variants"; "variants.options"; "options"])
    as [rental'|] eqn:F; [|discriminate].
  unfold ret in Hrental. inversion Hrental; subst rental' sa; clear Hrental.
  apply findOne_rental_some in F. destruct F as [Hin [Hid [Hdel [Hopts Hvars]]]].
  replace (mem_string "options" ["variants"; "variants.options"; "options"])
    with true in Hopts by reflexivity.
  replace (mem_string "variants" ["variants"; "variants.options"; "options"])
    with true in Hvars by reflexivity.
  bind_inv H options sa Hoptions. rewrite Hopts in Hoptions.
  unfold ret in Hoptions. inversion Hoptions; subst options sa; clear Hoptions.
  destruct (Nat.eqb (length (load_options s false rid)) (length (cv_options variant)))
    eqn:Hlen; simpl in H; [|discriminate].
  match type of H with
  | context [forallb ?f (load_options s false rid)] =>
      destruct (forallb f (load_options s false rid)) eqn:Hall
  end; simpl in H; [|discriminate].
  bind_inv H variants sa Hvariants. rewrite Hvars in Hvariants.
  unfold ret in Hvariants. inversion Hvariants; subst variants sa; clear Hvariants.
  destruct (RentalVariantService.find_variant_exists (cv_options variant)
              (load_variants s false ["variants"; "variants.options"; "options"] rid))
    as [[v|]|e]; try discriminate.
  unfold ret in H. inversion H; subst checked s1; clear H.
  split; [reflexivity|]. split; [|split].
  - rewrite Hid. unfold load_variants. rewrite length_map. reflexivity.
  - exists (e_row rental). repeat split; assumption.
  - apply covers_checks; assumption.
Qed.

Lemma create_ok_persist : forall tx s rid variant created s1,
  RentalVariantService.create tx (inl rid) variant s = (Ok created, s1) ->
  RentalVariantService.persist rid (length (variant_rows s false rid)) variant s
  = (Ok created, s1).
Proof.
  intros tx s rid variant created s1 H.
  unfold RentalVariantService.create in H. apply atomicPhase_ok_inv in H.
  bind_inv H checked sp Hchecks.
  destruct (checks_ok_inv _ _ _ _ _ Hchecks) as [Es [Ec _]]. subst sp checked.
  exact H.
Qed.

Lemma create_ok_inv : forall tx s rid variant created s1,
  RentalVariantService.create tx (inl rid) variant s = (Ok created, s1) ->
  (exists r, In r (rentals s) /\ r_id r = rid /\ r_deleted r = false) /\
  covers (load_options s false rid) (cv_options variant) /\
  exists count, RentalVariantService.persist rid count variant s = (Ok created, s1).
Proof.
  intros tx s rid variant created s1 H.
  pose proof (create_ok_persist _ _ _ _ _ _ H) as Hp.
  unfold RentalVariantService.create in H. apply atomicPhase_ok_inv in H.
  bind_inv H checked sp Hchecks.
  destruct (checks_ok_inv _ _ _ _ _ Hchecks) as [_ [_ [Hr Hcov]]].
  split; [exact Hr|]. split; [exact Hcov|]. eexists. exact Hp.
Qed.

(** After a successful [create], a second call with the same option values
    is rejected with [DUPLICATE_ERROR]. *)
Lemma create_twice_duplicate :
  forall (tx1 tx2 : bool) (s s1 : Store) (rid : string)
         (variant1 variant2 : CreateRentalVariantInput) (created : RentalVariant),
    NoDup (map o_id (load_options s false rid)) ->
    (forall ov, In ov (rental_option_values s) ->
                ov_variant_id ov <> next_generated "variant" s) ->
    RentalVariantService.create tx1 (inl rid) variant1 s = (Ok created, s1) ->
    cv_options variant2 = cv_options variant1 ->
    fst (RentalVariantService.create tx2 (inl rid) variant2 s1)
    = Throw (MedusaError DUPLICATE_ERROR).
Proof.
  intros tx1 tx2 s s1 rid variant1 variant2 created Hnd Hfresh Hc Hsame.
  apply create_ok_inv in Hc. destruct Hc as [[r [Hr [Hid Hdel]]] [Hcov [count Hp]]].
  apply persist_ok in Hp.
  destruct Hp as [E1 [E2 [values [E3 [E4 [E5 [E6 [E7 [E8 E9]]]]]]]]].
  assert (Hopts : load_options s1 false rid = load_options s false rid).
  { unfold load_options. rewrite E2. reflexivity. }
  assert (Hvals : load_option_values s1 false (v_id (ve_row created)) = values).
  { unfold load_option_values. rewrite E7, filter_app.
    rewrite (filter_none _ _ (rental_option_values s)).
    - simpl. apply forallb_filter_id. apply forallb_forall. intros ov Hov.
      rewrite Forall_forall in E8. destruct (E8 ov Hov) as [A B].
      rewrite A, B, String.eqb_refl. reflexivity.
    - intros ov Hov. apply andb_false_iff. left.
      apply String.eqb_neq. rewrite E4. apply Hfresh. exact Hov. }
  apply (create_duplicate_assignment tx2 s1 rid r variant2 (ve_row created)).
  - rewrite E1. exact Hr.
  - exact Hid.
  - exact Hdel.
  - rewrite Hopts. exact Hnd.
  - rewrite Hopts, Hsame. exact Hcov.
  - rewrite E3. apply in_or_app. right. left. reflexivity.
  - exact E5.
  - exact E6.
  - rewrite Hvals, Hsame, E9. apply Permutation_refl.
Qed.

(** C5. A variant input whose option-value assignment is that of an
    existing variant of the rental is rejected with [DUPLICATE_ERROR]; in
    particular, once [create] has succeeded, a second [create] with the same
    option values fails with [DUPLICATE_ERROR].  The rental's option ids are
    distinct (primary key), the input covers the rental's option set, and
    the id generated for the first variant is not in use. *)
Theorem C5_create_rejects_duplicate_assignment :
  (forall (tx : bool) (s : Store) (rid : string) (r : RentalRow)
          (variant : CreateRentalVariantInput) (existing : RentalVariantRow),
      In r (rentals s) -> r_id r = rid -> r_deleted r = false ->
      NoDup (map o_id (load_options s false rid)) ->
      covers (load_options s false rid) (cv_options variant) ->
      In existing (rental_variants s) ->
      v_rental_id existing = rid -> v_deleted existing = false ->
      Permutation (stored_assignment (load_option_values s false (v_id existing)))
                  (supplied_assignment (cv_options variant)) ->
      fst (RentalVariantService.create tx (inl rid) variant s)
      = Throw (MedusaError DUPLICATE_ERROR))
  /\
  (forall (tx1 tx2 : bool) (s s1 : Store) (rid : string)
          (variant1 variant2 : CreateRentalVariantInput) (created : RentalVariant),
      NoDup (map o_id (load_options s false rid)) ->
      (forall ov, In ov (rental_option_values s) ->
                  ov_variant_id ov <> next_generated "variant" s) ->
      RentalVariantService.create tx1 (inl rid) variant1 s = (Ok created, s1) ->
      cv_options variant2 = cv_options variant1 ->
      fst (RentalVariantService.create tx2 (inl rid) variant2 s1)
      = Throw (MedusaError DUPLICATE_ERROR)).
Proof.
  split.
  - exact create_duplicate_assignment.
  - exact create_twice_duplicate.
Qed.

Lemma C4_witness :
  declared_options tent_store (inl "rental_0")
  = Some [mkRentalOptionRow "opt_1" "Size" "rental_0" false]
  /\ fst (RentalVariantService.create false (inl "rental_0")
            variant_input_without_options tent_store)
     = Throw (MedusaError INVALID_DATA).
Proof.
  split.
  - reflexivity.
  - apply (C4_create_rejects_uncovered_option_set false tent_store (inl "rental_0")
             [mkRentalOptionRow "opt_1" "Size" "rental_0" false]
             variant_input_without_options).
    + reflexivity.
    + intros [Hlen _]. simpl in Hlen. discriminate Hlen.
Defined.

Lemma C5_witness :
  fst (RentalVariantService.create false (inl "rental_0")
         (variant_input "Small again" "S") tent_store)
  = Throw (MedusaError DUPLICATE_ERROR)
  /\ fst (RentalVariantService.create false (inl "rental_0")
            (variant_input "Medium again" "M")
            (snd (RentalVariantService.create false (inl "rental_0")
                    (variant_input "Medium" "M") tent_store)))
     = Throw (MedusaError DUPLICATE_ERROR).
Proof.
  split.
  - apply (proj1 C5_create_rejects_duplicate_assignment false tent_store "rental_0"
             tent_row (variant_input "Small again" "S") small_row).
    + left. reflexivity.
    + reflexivity.
    + reflexivity.
    + vm_compute. constructor; [intros [] | constructor].
    + split; [reflexivity|].
      intros o Ho. vm_compute in Ho. destruct Ho as [Ho|[]]. subst o.
      eexists. split; [left; reflexivity | reflexivity].
    + left. reflexivity.
    + reflexivity.
    + reflexivity.
    + vm_compute. apply Permutation_refl.
  - apply (proj2 C5_create_rejects_duplicate_assignment false false tent_store
             (snd (RentalVariantService.create false (inl "rental_0")
                     (variant_input "Medium" "M") tent_store))
             "rental_0" (variant_input "Medium" "M")
             (variant_input "Medium again" "M")
             (match fst (RentalVariantService.create false (inl "rental_0")
                           (variant_input "Medium" "M") tent_store) with
              | Ok created => created
              | Throw _ => mkRentalVariant small_row None None
              end)).
    + vm_compute. constructor; [intros [] | constructor].
    + intros ov Hov. vm_compute in Hov. destruct Hov as [Hov|[]]. subst ov.
      vm_compute. discriminate.
    + vm_compute. reflexivity.
    + reflexivity.
Defined.

(** ** Region prices are upserted *)

Lemma find_hd_filter : forall (A : Type) (f : A -> bool) (l : list A),
  find f l = hd_error (filter f l).
Proof.
  intros A f l. induction l as [|a l IH]; [reflexivity|].
  simpl. destruct (f a); [reflexivity | exact IH].
Qed.

(** The lookup of [setRegionPrice] for a price of the region [rid]. *)
Lemma setRegionPrice_finds :
  forall (s : Store) (vid rid : string) (p : RentalVariantPrice),
    p_region_id p = Some rid ->
    find (fun ma => String.eqb (ma_variant_id ma) vid
                    && match p_region_id p with
                       | Some r => opt_eqb (ma_region_id ma) (Some r)
                       | None => false
                       end
                    && is_default ma && negb (ma_deleted ma))
         (money_amounts s)
    = hd_error (default_prices s vid rid).
Proof.
  intros s vid rid p Hreg. rewrite Hreg. apply find_hd_filter.
Qed.

Lemma insert_price_ok : forall (row : MoneyAmountRow) (s : Store),
  storable_price s row = true ->
  insert_price row s = (Ok row, set_money_amounts (fun t => t ++ [row]) s).
Proof.
  intros row s H. unfold insert_price, bind, get. rewrite H. reflexivity.
Qed.

(** Without a default price in the scope, [setRegionPrice] inserts the
    price as a new row. *)
Lemma setRegionPrice_inserts :
  forall (tx : bool) (s : Store) (vid rid : string) (p : RentalVariantPrice),
    p_region_id p = Some rid ->
    p_id p = None ->
    default_prices s vid rid = [] ->
    In rid (map fst (regions s)) ->
    p_currency_code p <> None ->
    int4 (p_amount p) = true ->
    let row := mkMoneyAmountRow (next_generated "ma" s) vid (Some rid)
                 (p_currency_code p) (p_amount p) None false in
    RentalVariantService.setRegionPrice tx vid p s
    = (Ok row, set_money_amounts (fun t => t ++ [row]) (set_next_id S s)).
Proof.
  intros tx s vid rid p Hreg Hid Hd Hregion Hcur Hint row.
  unfold RentalVariantService.setRegionPrice. apply atomicPhase_ok.
  unfold bind at 1, get at 1. cbv beta iota.
  rewrite (setRegionPrice_finds s vid rid p Hreg), Hd. simpl hd_error. cbv iota.
  unfold save_new_price. rewrite Hid, Hreg.
  unfold bind, generateEntityId. fold (next_generated "ma" s). fold row.
  apply insert_price_ok.
  unfold storable_price, row. cbn [ma_amount ma_currency_code ma_region_id].
  rewrite Hint. destruct (p_currency_code p); [|congruence].
  cbn [regions set_next_id]. simpl. apply existsb_exists.
  apply in_map_iff in Hregion. destruct Hregion as [x [Ex Hx]].
  exists x. split; [exact Hx|]. rewrite Ex. apply String.eqb_refl.
Qed.

(** With a default price in the scope, [setRegionPrice] writes the amount
    into that row and inserts nothing. *)
Lemma setRegionPrice_updates :
  forall (tx : bool) (s : Store) (vid rid : string) (p : RentalVariantPrice)
         (row : MoneyAmountRow) (rest : list MoneyAmountRow),
    p_region_id p = Some rid ->
    default_prices s vid rid = row :: rest ->
    int4 (p_amount p) = true ->
    RentalVariantService.setRegionPrice tx vid p s
    = (Ok (set_amount (p_amount p) row),
       set_money_amounts
         (map (fun ma => if String.eqb (ma_id ma) (ma_id row)
                         then set_amount (p_amount p) ma else ma)) s).
Proof.
  intros tx s vid rid p row rest Hreg Hd Hint.
  unfold RentalVariantService.setRegionPrice. apply atomicPhase_ok.
  unfold bind at 1, get at 1. cbv beta iota.
  rewrite (setRegionPrice_finds s vid rid p Hreg), Hd. simpl hd_error. cbv iota.
  unfold update_amount. rewrite Hint. reflexivity.
Qed.

(** The default prices of the scope after the amount of [row] was
    written. *)
Lemma default_prices_set_amount :
  forall (s : Store) (vid rid : string) (a : Z) (row : MoneyAmountRow),
    default_prices
      (set_money_amounts
         (map (fun ma => if String.eqb (ma_id ma) (ma_id row)
                         then set_amount a ma else ma)) s) vid rid
    = map (fun ma => if String.eqb (ma_id ma) (ma_id row)
                     then set_amount a ma else ma)
          (default_prices s vid rid).
Proof.
  intros s vid rid a row. unfold default_prices. simpl.
  rewrite filter_map_swap. f_equal. apply filter_ext. intros ma.
  destruct (String.eqb (ma_id ma) (ma_id row)); reflexivity.
Qed.

(** C9. Two calls of [setRegionPrice] for the same (variant, region) scope
    leave exactly one default price row for the scope: the row the scope
    holds after the first call, with the amount of the second call.  The
    second call inserts nothing: it writes its amount into the row of that
    id and returns it.  The region exists, both amounts fit the 32-bit
    [amount] column, the first price is a new one (it carries no id) in the
    currency of the region, as [updateVariantPrices] and [create] pass it,
    and the scope holds at most one default row beforehand (the data model's
    invariant). *)
Theorem C9_setRegionPrice_twice_one_row :
  forall (tx1 tx2 : bool) (s : Store) (vid rid currency : string)
         (p1 p2 : RentalVariantPrice),
    p_region_id p1 = Some rid ->
    p_region_id p2 = Some rid ->
    p_id p1 = None ->
    In (rid, currency) (regions s) ->
    p_currency_code p1 = Some currency ->
    int4 (p_amount p1) = true ->
    int4 (p_amount p2) = true ->
    length (default_prices s vid rid) <= 1 ->
    exists m1 s1 s2 row,
      RentalVariantService.setRegionPrice tx1 vid p1 s = (Ok m1, s1) /\
      default_prices s1 vid rid = [row] /\
      RentalVariantService.setRegionPrice tx2 vid p2 s1
      = (Ok (set_amount (p_amount p2) row), s2) /\
      money_amounts s2
      = map (fun ma => if String.eqb (ma_id ma) (ma_id row)
                       then set_amount (p_amount p2) ma else ma)
            (money_amounts s1) /\
      default_prices s2 vid rid = [set_amount (p_amount p2) row] /\
      ma_id (set_amount (p_amount p2) row) = ma_id row /\
      ma_amount (set_amount (p_amount p2) row) = p_amount p2.
Proof.
  intros tx1 tx2 s vid rid currency p1 p2 H1 H2 Hid Hregion' Hcur' Hint1 Hint2 Hone.
  assert (Hregion : In rid (map fst (regions s)))
    by (apply (in_map fst) in Hregion'; exact Hregion').
  assert (Hcur : p_currency_code p1 <> None) by (rewrite Hcur'; discriminate).
  assert (Hfirst : exists m1 s1 row,
            RentalVariantService.setRegionPrice tx1 vid p1 s = (Ok m1, s1) /\
            default_prices s1 vid rid = [row]).
  { destruct (default_prices s vid rid) as [|row0 rest] eqn:Hd.
    - eexists. eexists. eexists. split.
      + apply (setRegionPrice_inserts tx1 s vid rid p1); assumption.
      + unfold default_prices in *. simpl. rewrite filter_app, Hd. simpl.
        rewrite !String.eqb_refl. reflexivity.
    - destruct rest as [|row' rest]; [|simpl in Hone; lia].
      eexists. eexists. eexists. split.
      + apply (setRegionPrice_updates tx1 s vid rid p1 row0 [] H1 Hd Hint1).
      + rewrite default_prices_set_amount, Hd. simpl.
        rewrite String.eqb_refl. reflexivity. }
  destruct Hfirst as [m1 [s1 [row [E1 D1]]]].
  exists m1, s1. eexists. exists row.
  split; [exact E1|]. split; [exact D1|]. split.
  { apply (setRegionPrice_updates tx2 s1 vid rid p2 row [] H2 D1 Hint2). }
  split; [reflexivity|]. split.
  { rewrite default_prices_set_amount, D1. simpl.
    rewrite String.eqb_refl. reflexivity. }
  split; reflexivity.
Qed.

Lemma C9_witness :
  exists m1 s1 s2 row,
    RentalVariantService.setRegionPrice false "variant_2"
      (mkRentalVariantPrice None (Some "eur") (Some "reg_eu") 1000) tent_store
    = (Ok m1, s1) /\
    default_prices s1 "variant_2" "reg_eu" = [row] /\
    RentalVariantService.setRegionPrice false "variant_2"
      (mkRentalVariantPrice None (Some "eur") (Some "reg_eu") 1500) s1
    = (Ok (set_amount 1500 row), s2) /\
    default_prices s2 "variant_2" "reg_eu" = [set_amount 1500 row].
Proof.
  destruct (C9_setRegionPrice_twice_one_row false false tent_store "variant_2"
              "reg_eu" "eur"
              (mkRentalVariantPrice None (Some "eur") (Some "reg_eu") 1000)
              (mkRentalVariantPrice None (Some "eur") (Some "reg_eu") 1500))
    as [m1 [s1 [s2 [row [E1 [D1 [E2 [_ [D2 _]]]]]]]]].
  - reflexivity.
  - reflexivity.
  - reflexivity.
  - left. reflexivity.
  - reflexivity.
  - reflexivity.
  - reflexivity.
  - vm_compute. lia.
  - exists m1, s1, s2, row. repeat split; assumption.
Defined.

(** ** Ranks after an update *)

(** C2, at the failing input.  The tent has the variant [variant_2]; the
    update lists a new variant first and [variant_2] second.  [update] passes
    rank 0 for the new variant, [create] takes 0 for an unset rank and
    replaces it by the number of variants stored, so the new variant returns
    with rank 1 at position 0, the rank [variant_2] gets at position 1. *)
Theorem C2_new_variant_at_position_zero_gets_rank_one :
  forall tx : bool,
    returned_ranks (RentalService.update tx "rental_0" medium_in_front tent_store)
    = [("variant_5", Some 1%Z); ("variant_2", Some 1%Z)]
    /\ map (fun v => (v_id v, v_variant_rank v))
           (rental_variants
              (snd (RentalService.update tx "rental_0" medium_in_front tent_store)))
       = [("variant_2", Some 1%Z); ("variant_5", Some 1%Z)].
Proof.
  intros tx. destruct tx; vm_compute; split; reflexivity.
Qed.

(** ** Deletes and missing ids *)

Lemma rental_delete_missing : forall tx s rentalId,
  findOne_rental s rentalId ["variants"; "variants.prices"; "variants.options"] = None ->
  RentalService.delete tx rentalId s = (Ok tt, s).
Proof.
  intros tx s rentalId H. unfold RentalService.delete.
  apply atomicPhase_ok. unfold bind, get. rewrite H. reflexivity.
Qed.

Lemma variant_delete_missing : forall tx s variantId,
  findOne_variant s variantId = None ->
  RentalVariantService.delete tx variantId s = (Ok tt, s).
Proof.
  intros tx s variantId H. unfold RentalVariantService.delete.
  apply atomicPhase_ok. unfold bind, get. rewrite H. reflexivity.
Qed.

Lemma deleteOptionValue_missing : forall tx s variantId optionId,
  findOne_option_value s variantId (Some optionId) = None ->
  RentalVariantService.deleteOptionValue tx variantId optionId s = (Ok tt, s).
Proof.
  intros tx s variantId optionId H. unfold RentalVariantService.deleteOptionValue.
  apply atomicPhase_ok. unfold bind, get. rewrite H. reflexivity.
Qed.

Lemma collection_delete_missing : forall tx s collectionId,
  find (fun c => String.eqb (c_id c) collectionId && negb (c_deleted c))
       (rental_collections s) = None ->
  RentalCollectionService.delete tx collectionId s
  = (Throw (MedusaError NOT_FOUND), s).
Proof.
  intros tx s collectionId H. unfold RentalCollectionService.delete, atomicPhase_.
  assert (E : bind (RentalCollectionService.retrieve collectionId)
                (fun collection =>
                   modify (set_rental_collections
                             (map (fun c => if String.eqb (c_id c) (c_id collection)
                                            then mkRentalCollectionRow (c_id c) (c_title c) true
                                            else c)))) s
              = (Throw (MedusaError NOT_FOUND), s)).
  { unfold RentalCollectionService.retrieve, bind, get. rewrite H. reflexivity. }
  destruct tx; [exact E|]. unfold transaction. rewrite E. reflexivity.
Qed.

(** C3, at the failing inputs.  Deleting a collection whose id names no row
    throws [NOT_FOUND], and so does the second of two deletes of the same
    collection: [delete] fetches the collection through [retrieve], which
    throws before the check for a missing collection is reached. *)
Theorem C3_collection_delete_is_not_idempotent :
  forall tx : bool,
    RentalCollectionService.delete tx "pcol_gone" empty_store
    = (Throw (MedusaError NOT_FOUND), empty_store)
    /\ (let s1 := snd (RentalCollectionService.create tx "Summer" empty_store) in
        let s2 := snd (RentalCollectionService.delete tx "pcol_0" s1) in
        fst (RentalCollectionService.delete tx "pcol_0" s1) = Ok tt
        /\ RentalCollectionService.delete tx "pcol_0" s2
           = (Throw (MedusaError NOT_FOUND), s2)).
Proof.
  intros tx. destruct tx; vm_compute; repeat split; reflexivity.
Qed.

(** ** Retrieval through the repository *)

Import RentalRepository.

Lemma merge_opt_None_r : forall (A : Type) (a : option A), merge_opt a None = a.
Proof. reflexivity. Qed.

Lemma merge_opt_None_l : forall (A : Type) (a : option A), merge_opt None a = a.
Proof. intros A [a|]; reflexivity. Qed.

Lemma merge_opt_assoc : forall (A : Type) (a b c : option A),
  merge_opt (merge_opt a b) c = merge_opt a (merge_opt b c).
Proof. intros A a b [c|]; reflexivity. Qed.

Lemma fold_merge_opt : forall (A : Type) (l : list (option A)) (a : option A),
  fold_left merge_opt l a = merge_opt a (last_some l).
Proof.
  intros A l. unfold last_some. induction l as [|x l IH]; intros a.
  - reflexivity.
  - simpl. rewrite IH. rewrite (IH (merge_opt None x)).
    rewrite merge_opt_None_l. apply merge_opt_assoc.
Qed.

Lemma last_some_app : forall (A : Type) (l1 l2 : list (option A)),
  last_some (l1 ++ l2) = merge_opt (last_some l1) (last_some l2).
Proof.
  intros A l1 l2. unfold last_some at 1. rewrite fold_left_app.
  apply fold_merge_opt.
Qed.

Lemma last_some_cons : forall (A : Type) (x : option A) (l : list (option A)),
  last_some (x :: l) = merge_opt x (last_some l).
Proof.
  intros A x l. change (x :: l) with ([x] ++ l). rewrite last_some_app.
  unfold last_some at 1. simpl. rewrite merge_opt_None_l. reflexivity.
Qed.

Lemma last_some_constant : forall (A : Type) (v : option A) (l : list (option A)),
  l <> [] -> Forall (fun x => x = v) l -> last_some l = v.
Proof.
  intros A v l Hne Hall. induction Hall as [|x l Hx Hl IH]; [congruence|].
  subst x. rewrite last_some_cons. destruct l as [|y l].
  - apply merge_opt_None_r.
  - rewrite IH by discriminate. destruct v; reflexivity.
Qed.

Lemma last_some_all_None : forall (A : Type) (l : list (option A)),
  Forall (fun x => x = None) l -> last_some l = None.
Proof.
  intros A l Hall. induction Hall as [|x l Hx Hl IH]; [reflexivity|].
  subst x. rewrite last_some_cons, IH. reflexivity.
Qed.

Lemma last_some_flat_map :
  forall (A B C : Type) (f : B -> list C) (p : C -> option A) (G : list B),
    last_some (map p (flat_map f G))
    = last_some (map (fun g => last_some (map p (f g))) G).
Proof.
  intros A B C f p G. induction G as [|g G IH]; [reflexivity|].
  simpl. rewrite map_app, last_some_app, IH, last_some_cons. reflexivity.
Qed.

(** A property of the merged entity that [merge] treats as an optional
    value: its merged value is the last defined one. *)
Section MergedProperty.

Variable A : Type.
Variable proj : Rental -> option A.
Hypothesis proj_merge2 :
  forall a b, proj (merge2 a b) = merge_opt (proj a) (proj b).

Lemma proj_merge : forall xs x,
  proj (merge x xs) = last_some (map proj (x :: xs)).
Proof.
  unfold merge. induction xs as [|y xs IH]; intros x.
  - simpl. unfold last_some. simpl. rewrite merge_opt_None_l. reflexivity.
  - simpl fold_left. rewrite IH. rewrite !map_cons, !last_some_cons.
    rewrite proj_merge2. apply merge_opt_assoc.
Qed.

End MergedProperty.

Lemma e_variants_merge : forall xs x,
  e_variants (merge x xs) = last_some (map e_variants (x :: xs)).
Proof. apply proj_merge. reflexivity. Qed.

Lemma e_options_merge : forall xs x,
  e_options (merge x xs) = last_some (map e_options (x :: xs)).
Proof. apply proj_merge. reflexivity. Qed.

Lemma e_id_merge2 : forall a b k, e_id a = k -> e_id b = k -> e_id (merge2 a b) = k.
Proof.
  intros a b k Ha Hb. unfold e_id, merge2, merge_row, pick in *. simpl.
  destruct (carries (e_select b) "id"); assumption.
Qed.

Lemma e_id_merge : forall xs x k,
  e_id x = k -> Forall (fun e => e_id e = k) xs -> e_id (merge x xs) = k.
Proof.
  unfold merge. induction xs as [|y xs IH]; intros x k Hx Hall.
  - exact Hx.
  - inversion Hall; subst. simpl. apply IH; [|assumption].
    apply e_id_merge2; [reflexivity | assumption].
Qed.

Lemma groupBy_single_aux : forall xs k y ys,
  Forall (fun e => id_key e = k) xs ->
  fold_left (fun g x => push_entity x g) xs [(k, (y, ys))] = [(k, (y, ys ++ xs))].
Proof.
  induction xs as [|x xs IH]; intros k y ys Hall.
  - rewrite app_nil_r. reflexivity.
  - inversion Hall as [|? ? Hx Hxs]; subst. simpl.
    rewrite String.eqb_refl. rewrite IH by assumption.
    rewrite <- app_assoc. reflexivity.
Qed.

Lemma mergeEntities_single : forall x xs k,
  Forall (fun e => id_key e = k) (x :: xs) ->
  mergeEntitiesWithRelations (x :: xs) = [merge x xs].
Proof.
  intros x xs k Hall. inversion Hall as [|? ? Hx Hxs]; subst.
  unfold mergeEntitiesWithRelations, groupBy_id. simpl.
  rewrite groupBy_single_aux by assumption. reflexivity.
Qed.

Lemma e_id_join_group : forall s wd sel top rels r,
  e_id (join_group s wd sel top rels r) = r_id r.
Proof.
  intros. unfold join_group.
  destruct (String.eqb top "variants"); [reflexivity|].
  destruct (String.eqb top "options"); [reflexivity|].
  destruct (String.eqb top "type"); [reflexivity|].
  destruct (String.eqb top "collection"); reflexivity.
Qed.

Lemma e_select_join_group : forall s wd sel top rels r,
  e_select (join_group s wd sel top rels r) = sel.
Proof.
  intros. unfold join_group.
  destruct (String.eqb top "variants"); [reflexivity|].
  destruct (String.eqb top "options"); [reflexivity|].
  destruct (String.eqb top "type"); [reflexivity|].
  destruct (String.eqb top "collection"); reflexivity.
Qed.

(** A joined row that was read with the column [id] is filed under the id of
    its row. *)
Lemma id_key_join_group : forall s wd sel top rels r,
  carries sel "id" = true ->
  id_key (join_group s wd sel top rels r) = r_id r.
Proof.
  intros s wd sel top rels r H. unfold id_key.
  rewrite e_select_join_group, H. apply e_id_join_group.
Qed.

Lemma queryRentalsWithIds_keys : forall s ids G wd sel,
  carries sel "id" = true ->
  Forall (fun e => id_key e = e_id e) (queryRentalsWithIds s ids G wd sel).
Proof.
  intros s ids G wd sel H. unfold queryRentalsWithIds. apply Forall_forall.
  intros e He. apply in_flat_map in He. destruct He as [g [_ He]].
  apply in_map_iff in He. destruct He as [r [E Hr]]. subst e.
  rewrite (id_key_join_group _ _ _ _ _ _ H). symmetry. apply e_id_join_group.
Qed.

Lemma Forall_id_key : forall (l : list Rental) (k : string),
  Forall (fun e => id_key e = e_id e) l ->
  Forall (fun e => e_id e = k) l ->
  Forall (fun e => id_key e = k) l.
Proof.
  intros l k H1 H2. rewrite Forall_forall in *. intros e He.
  rewrite (H1 e He). apply H2. exact He.
Qed.

Lemma e_variants_join_group : forall s wd sel top rels r,
  e_variants (join_group s wd sel top rels r)
  = if String.eqb top "variants"
    then Some (load_variants s wd (filter has_rest rels) (r_id r)) else None.
Proof.
  intros. unfold join_group.
  destruct (String.eqb top "variants"); [reflexivity|].
  destruct (String.eqb top "options"); [reflexivity|].
  destruct (String.eqb top "type"); [reflexivity|].
  destruct (String.eqb top "collection"); reflexivity.
Qed.

Lemma e_options_join_group : forall s wd sel top rels r,
  e_options (join_group s wd sel top rels r)
  = if String.eqb top "variants" then None
    else if String.eqb top "options" then Some (load_options s wd (r_id r)) else None.
Proof.
  intros. unfold join_group.
  destruct (String.eqb top "variants"); [reflexivity|].
  destruct (String.eqb top "options"); [reflexivity|].
  destruct (String.eqb top "type"); [reflexivity|].
  destruct (String.eqb top "collection"); reflexivity.
Qed.

(** The rows [queryRentalsWithIds] joins for the single id [rid]. *)
Lemma joined_rows_single : forall s wd rid r,
  In r (filter (fun r => visible wd (r_deleted r) && mem_string (r_id r) [rid])
               (rentals s)) ->
  r_id r = rid.
Proof.
  intros s wd rid r H. apply filter_In in H. destruct H as [_ H].
  apply andb_true_iff in H. destruct H as [_ H].
  apply mem_string_In in H. destruct H as [H|[]]. symmetry. exact H.
Qed.

Lemma queryRentalsWithIds_single_ids : forall s wd sel rid G,
  Forall (fun e => e_id e = rid) (queryRentalsWithIds s [rid] G wd sel).
Proof.
  intros s wd sel rid G. unfold queryRentalsWithIds. apply Forall_forall.
  intros e He. apply in_flat_map in He. destruct He as [g [_ He]].
  apply in_map_iff in He. destruct He as [r [E Hr]]. subst e.
  rewrite e_id_join_group. apply (joined_rows_single s wd rid r Hr).
Qed.

(** A property that every joined row of a group reports alike is, for the
    whole query, the last value the groups define. *)
Lemma last_some_queryRentalsWithIds :
  forall (A : Type) (proj : Rental -> option A) (V : string * list string -> option A)
         s wd sel rid G,
    (forall g r, r_id r = rid ->
                 proj (join_group s wd sel (fst g) (snd g) r) = V g) ->
    filter (fun r => visible wd (r_deleted r) && mem_string (r_id r) [rid]) (rentals s)
    <> [] ->
    last_some (map proj (queryRentalsWithIds s [rid] G wd sel)) = last_some (map V G).
Proof.
  intros A proj V s wd sel rid G HV Hne. unfold queryRentalsWithIds.
  rewrite last_some_flat_map. f_equal. apply map_ext. intros g.
  apply last_some_constant.
  - destruct (filter _ (rentals s)); [congruence | discriminate].
  - apply Forall_forall. intros x Hx. rewrite map_map in Hx.
    apply in_map_iff in Hx. destruct Hx as [r [E Hr]]. subst x.
    apply HV. apply (joined_rows_single s wd rid r Hr).
Qed.

Lemma where_id_matches : forall s rid r,
  where_columns (where_id rid) r && where_joins s false (where_id rid) r
  && visible false (r_deleted r)
  = String.eqb rid (r_id r) && negb (r_deleted r).
Proof.
  intros s rid r. unfold where_columns, where_joins, where_id, visible, opt_test.
  simpl. unfold mem_string. simpl. rewrite (String.eqb_sym (r_id r) rid).
  destruct (String.eqb rid (r_id r)); reflexivity.
Qed.

(** [retrieve] with relations: the rental is found whenever a live row has
    the id, the state is untouched, and [variants] and [options] are what
    the groups of the relation list load. *)
Lemma retrieve_with_relations :
  forall (s : Store) (rid : string) (relations sel : list string) (r : RentalRow),
    relations <> [] ->
    In r (rentals s) -> r_id r = rid -> r_deleted r = false ->
    exists rental,
      RentalService.retrieve rid relations sel s = (Ok rental, s) /\
      e_id rental = rid /\
      e_variants rental = group_variants s false rid (getGroupedRelations relations) /\
      e_options rental = group_options s false rid (getGroupedRelations relations).
Proof.
  intros s rid relations sel r Hrel Hin Hid Hdel.
  unfold RentalService.retrieve, bind, get, findOneWithRelations, findWithRelations.
  unfold queryRentals. cbn [fst where_ skip take withDeleted order set_take].
  unfold paginate.
  rewrite (filter_ext _ (fun r0 => String.eqb rid (r_id r0) && negb (r_deleted r0)))
    by (intros x; apply where_id_matches).
  assert (Hlive : In r (filter (fun r0 => String.eqb rid (r_id r0) && negb (r_deleted r0))
                               (rentals s))).
  { apply filter_In. split; [exact Hin|].
    rewrite Hid, String.eqb_refl, Hdel. reflexivity. }
  destruct (filter (fun r0 => String.eqb rid (r_id r0) && negb (r_deleted r0)) (rentals s))
    as [|r0 rest] eqn:Hf; [destruct Hlive|].
  assert (Hr0 : r_id r0 = rid).
  { assert (H0 : In r0 (filter (fun r0 => String.eqb rid (r_id r0) && negb (r_deleted r0))
                               (rentals s))) by (rewrite Hf; left; reflexivity).
    apply filter_In in H0. destruct H0 as [_ H0]. apply andb_true_iff in H0.
    destruct H0 as [H0 _]. apply String.eqb_eq in H0. symmetry. exact H0. }
  change (firstn 1 (r0 :: rest)) with [r0].
  change (map e_id (map id_only [r0])) with [r_id r0].
  change (map id_only [r0]) with [id_only r0].
  rewrite Hr0.
  destruct relations as [|rel relations']; [congruence|].
  set (G := getGroupedRelations (rel :: relations')).
  set (Q := queryRentalsWithIds s [rid] G false []).
  assert (HQ : Forall (fun e => e_id e = rid) (Q ++ [id_only r0])).
  { apply Forall_app. split; [apply queryRentalsWithIds_single_ids|].
    constructor; [exact Hr0 | constructor]. }
  assert (Hrows : filter (fun r => visible false (r_deleted r) && mem_string (r_id r) [rid])
                         (rentals s) <> []).
  { intros E. assert (H0 : In r (filter (fun r => visible false (r_deleted r)
                                                  && mem_string (r_id r) [rid])
                                        (rentals s))).
    { apply filter_In. split; [exact Hin|]. unfold visible. rewrite Hdel, Hid.
      simpl. unfold mem_string. simpl. rewrite String.eqb_refl. reflexivity. }
    rewrite E in H0. destruct H0. }
  assert (HK : Forall (fun e => id_key e = e_id e) (Q ++ [id_only r0])).
  { apply Forall_app. split; [apply queryRentalsWithIds_keys; reflexivity|].
    constructor; [reflexivity | constructor]. }
  destruct (Q ++ [id_only r0]) as [|x xs] eqn:HL.
  { destruct Q; discriminate. }
  rewrite (mergeEntities_single x xs rid (Forall_id_key _ _ HK HQ)). simpl hd_error.
  exists (merge x xs). split; [reflexivity|]. split; [|split].
  - inversion HQ; subst. apply e_id_merge; assumption.
  - rewrite e_variants_merge, <- HL, map_app, last_some_app. simpl map.
    unfold last_some at 2. simpl. unfold Q.
    apply (last_some_queryRentalsWithIds _ e_variants
             (fun g => if String.eqb (fst g) "variants"
                       then Some (load_variants s false (filter has_rest (snd g)) rid)
                       else None)); [|exact Hrows].
    intros g r1 Hr1. rewrite e_variants_join_group, Hr1. reflexivity.
  - rewrite e_options_merge, <- HL, map_app, last_some_app. simpl map.
    unfold last_some at 2. simpl. unfold Q.
    apply (last_some_queryRentalsWithIds _ e_options
             (fun g => if String.eqb (fst g) "variants" then None
                       else if String.eqb (fst g) "options"
                            then Some (load_options s false rid) else None));
      [|exact Hrows].
    intros g r1 Hr1. rewrite e_options_join_group, Hr1. reflexivity.
Qed.

Lemma retrieve_without_relations :
  forall (s : Store) (rid : string) (sel : list string) (r : RentalRow),
    In r (rentals s) -> r_id r = rid -> r_deleted r = false ->
    exists rental,
      RentalService.retrieve rid [] sel s = (Ok rental, s) /\ e_id rental = rid.
Proof.
  intros s rid sel r Hin Hid Hdel.
  unfold RentalService.retrieve, bind, get, findOneWithRelations, findWithRelations.
  unfold queryRentals. cbn [fst where_ skip take withDeleted order set_take].
  unfold paginate.
  rewrite (filter_ext _ (fun r0 => String.eqb rid (r_id r0) && negb (r_deleted r0)))
    by (intros x; apply where_id_matches).
  assert (Hlive : In r (filter (fun r0 => String.eqb rid (r_id r0) && negb (r_deleted r0))
                               (rentals s))).
  { apply filter_In. split; [exact Hin|].
    rewrite Hid, String.eqb_refl, Hdel. reflexivity. }
  destruct (filter (fun r0 => String.eqb rid (r_id r0) && negb (r_deleted r0)) (rentals s))
    as [|r0 rest] eqn:Hf; [destruct Hlive|].
  change (firstn 1 (r0 :: rest)) with [r0].
  change (map e_id (map id_only [r0])) with [r_id r0].
  unfold findByIds, paginate.
  cbn [where_ skip take withDeleted order select set_take set_where].
  assert (Hlive' :
            In r (filter (fun r1 => mem_string (r_id r1) [r_id r0]
                                    && where_columns (delete_joins (where_id rid)) r1
                                    && visible false (r_deleted r1))
                         (rentals s))).
  { assert (H0 : In r0 (filter (fun r0 => String.eqb rid (r_id r0) && negb (r_deleted r0))
                               (rentals s))) by (rewrite Hf; left; reflexivity).
    apply filter_In in H0. destruct H0 as [_ H0]. apply andb_true_iff in H0.
    destruct H0 as [H0 _]. apply String.eqb_eq in H0.
    apply filter_In. split; [exact Hin|].
    unfold where_columns, delete_joins, where_id, opt_test, visible, mem_string. simpl.
    rewrite <- H0, Hid, Hdel, String.eqb_refl. reflexivity. }
  destruct (filter (fun r1 => mem_string (r_id r1) [r_id r0]
                              && where_columns (delete_joins (where_id rid)) r1
                              && visible false (r_deleted r1))
                   (rentals s)) as [|r1 rest1] eqn:Hf1; [destruct Hlive'|].
  change (firstn 1 (r1 :: rest1)) with [r1]. simpl.
  eexists. split; [reflexivity|].
  assert (H1 : In r1 (filter (fun r1 => mem_string (r_id r1) [r_id r0]
                                        && where_columns (delete_joins (where_id rid)) r1
                                        && visible false (r_deleted r1))
                             (rentals s))) by (rewrite Hf1; left; reflexivity).
  apply filter_In in H1. destruct H1 as [_ H1].
  apply andb_true_iff in H1. destruct H1 as [H1 _].
  apply andb_true_iff in H1. destruct H1 as [_ H1].
  unfold where_columns, delete_joins, where_id, opt_test, mem_string in H1. simpl in H1.
  rewrite !andb_true_r, orb_false_r in H1. apply String.eqb_eq in H1.
  unfold e_id. simpl. exact H1.
Qed.

(** ** Reordering variants *)

Lemma map_order_ok : forall variants variantOrder,
  (forall vId, In vId variantOrder -> exists v, In v variants /\ ve_id v = vId) ->
  exists vs,
    RentalService.map_order variants variantOrder = Ok vs /\
    Forall2 (fun vId v => find (fun v => String.eqb (ve_id v) vId) variants = Some v)
            variantOrder vs.
Proof.
  intros variants variantOrder. induction variantOrder as [|vId rest IH]; intros H.
  - exists []. split; [reflexivity | constructor].
  - destruct IH as [vs [E F]].
    { intros x Hx. apply H. right. exact Hx. }
    destruct (H vId (or_introl eq_refl)) as [v [Hv Ev]].
    destruct (find (fun v => String.eqb (ve_id v) vId) variants) as [w|] eqn:Fw.
    + exists (w :: vs). split.
      * simpl. rewrite Fw, E. reflexivity.
      * constructor; assumption.
    + exfalso. apply (find_none _ _ Fw) in Hv. rewrite Ev, String.eqb_refl in Hv.
      discriminate.
Qed.

Lemma save_variant_ok : forall row s, exists s',
  RentalVariantService.save_variant row s = (Ok tt, s').
Proof.
  intros row s. unfold RentalVariantService.save_variant, bind, get, modify.
  destruct (existsb _ (rental_variants s)); eexists; reflexivity.
Qed.


Lemma NoDup_map_filter : forall (A B : Type) (f : A -> B) (p : A -> bool) (l : list A),
  NoDup (map f l) -> NoDup (map f (filter p l)).
Proof.
  intros A B f p l. induction l as [|x l IH]; intros H; [constructor|].
  simpl in H. inversion H as [|? ? Hx Hl]; subst. simpl.
  destruct (p x); [|apply IH; exact Hl].
  simpl. constructor; [|apply IH; exact Hl].
  intros Hin. apply Hx. apply in_map_iff in Hin. destruct Hin as [y [Ey Hy]].
  apply filter_In in Hy. apply in_map_iff. exists y. split; [exact Ey | apply Hy].
Qed.

Lemma map_order_ids : forall variants variantOrder vs,
  RentalService.map_order variants variantOrder = Ok vs ->
  map ve_id vs = variantOrder.
Proof.
  intros variants variantOrder. induction variantOrder as [|x rest IH]; intros vs H.
  - inversion H. reflexivity.
  - simpl in H. destruct (find (fun v => String.eqb (ve_id v) x) variants) as [w|] eqn:F;
      [|discriminate].
    destruct (RentalService.map_order variants rest) as [ws|e'] eqn:E; [|discriminate].
    inversion H; subst. simpl. apply find_some in F. destruct F as [_ F].
    apply String.eqb_eq in F. rewrite F, (IH ws eq_refl). reflexivity.
Qed.

Lemma reorder_checks_maps :
  forall (s : Store) (rid : string) (r : RentalRow) (variantOrder : list string),
    In r (rentals s) -> r_id r = rid -> r_deleted r = false ->
    length variantOrder = length (current_variants s rid) ->
    (forall vId, In vId variantOrder ->
                 exists v, In v (current_variants s rid) /\ ve_id v = vId) ->
    exists rental vs,
      RentalService.reorder_checks rid variantOrder s = (Ok (rental, vs), s) /\
      e_id rental = rid /\
      map ve_id vs = variantOrder /\
      Forall2 (variant_for s rid) variantOrder vs.
Proof.
  intros s rid r variantOrder Hin Hid Hdel Hlen Hids.
  destruct (retrieve_with_relations s rid ["variants"] [] r) as [rental [Hret [Eid [Hv _]]]];
    try assumption; [discriminate|].
  change (group_variants s false rid (getGroupedRelations ["variants"]))
    with (Some (current_variants s rid)) in Hv.
  destruct (map_order_ok (current_variants s rid) variantOrder Hids) as [vs [Hmo HF]].
  exists rental, vs. split; [|split; [exact Eid | split; [exact (map_order_ids _ _ _ Hmo) | exact HF]]].
  unfold RentalService.reorder_checks.
  rewrite (bind_ok _ _ _ _ _ _ _ Hret). rewrite Hv.
  unfold bind at 1, ret at 1.
  replace (Nat.eqb (length (current_variants s rid)) (length variantOrder)) with true
    by (symmetry; apply Nat.eqb_eq; symmetry; exact Hlen).
  change (negb true) with false. cbv iota. rewrite Hmo. reflexivity.
Qed.

Lemma forallb_false_witness : forall (A : Type) (p : A -> bool) (l : list A),
  forallb p l = false -> exists x, In x l /\ p x = false.
Proof.
  intros A p l. induction l as [|x l IH]; intros H; [discriminate|].
  simpl in H. destruct (p x) eqn:E.
  - destruct (IH H) as [y [Hy Ey]]. exists y. split; [right; exact Hy | exact Ey].
  - exists x. split; [left; reflexivity | exact E].
Qed.

(** A list as long as the live variants that repeats an id leaves one of
    them out. *)
Lemma repeated_id_drops_a_variant :
  forall (s : Store) (rid : string) (variantOrder : list string),
    NoDup (map v_id (rental_variants s)) ->
    length variantOrder = length (variant_rows s false rid) ->
    ~ NoDup variantOrder ->
    forallb (fun v => mem_string (v_id v) variantOrder) (variant_rows s false rid) = false.
Proof.
  intros s rid variantOrder Hnd Hlen Hrep.
  destruct (forallb (fun v => mem_string (v_id v) variantOrder) (variant_rows s false rid))
    eqn:E; [exfalso|reflexivity].
  apply Hrep.
  apply NoDup_incl_NoDup with (l := map v_id (variant_rows s false rid)).
  - unfold variant_rows. apply NoDup_map_filter. exact Hnd.
  - rewrite length_map, Hlen. apply le_n.
  - intros x Hx. apply in_map_iff in Hx. destruct Hx as [v [Ev Hv]]. subst x.
    rewrite forallb_forall in E. specialize (E v Hv).
    unfold mem_string in E. apply existsb_exists in E. destruct E as [y [Hy Ey]].
    apply String.eqb_eq in Ey. subst y. exact Hy.
Qed.

(** When the save of the collection is refused, [reorderVariants] throws:
    the rejection of the save when the event bus took the pending promise,
    the failure of the event bus otherwise. *)
Lemma reorderVariants_refused :
  forall (emitPromise : M unit) (tx : bool) (s : Store) (rid : string)
         (variantOrder : list string) (rental : Rental) (vs : list RentalVariant),
    RentalService.reorder_checks rid variantOrder s = (Ok (rental, vs), s) ->
    forallb (fun v => mem_string (v_id v) (map ve_id vs))
            (variant_rows s false (r_id (e_row rental))) = false ->
    RentalService.reorderVariants emitPromise tx rid variantOrder s
    = (Throw (match fst (emitPromise s) with
              | Ok _ => QueryFailedError
              | Throw e => e
              end),
       if tx then snd (emitPromise s) else s).
Proof.
  intros bus tx s rid variantOrder rental vs Hchecks Hdrop.
  unfold RentalService.reorderVariants.
  destruct tx; unfold atomicPhase_, transaction;
    rewrite (bind_ok _ _ _ _ _ _ _ Hchecks); cbn [fst snd];
    unfold bind at 1; unfold started;
    unfold bind at 1; unfold RentalService.save_with_variants at 1;
    unfold bind at 1; unfold get at 1; rewrite Hdrop;
    unfold throw at 1; unfold bind, settled;
    destruct (bus s) as [[[]|e] s1]; reflexivity.
Qed.

(** C10. For an id list as long as the rental's current variants, each
    element the id of a current variant, duplicates allowed, the list passes
    the checks of [reorderVariants], which leave the database as it is, and
    the collection [rental.variants] is set to is the id list mapped element
    by element to the variant objects.  A list that repeats an id passes
    them too, with that variant twice in the collection and another current
    variant left out, but [reorderVariants] does not succeed on it: the save
    of a collection that leaves a variant out is refused, and the call
    throws, the refusal of the save when the event bus accepted the event,
    the failure of the event bus otherwise; with a transaction of its own it
    leaves the database as it was. *)
Theorem C10_reorderVariants_maps_ids_and_refuses_repeated_ones :
  forall (emitPromise : M unit) (tx : bool) (s : Store) (rid : string) (r : RentalRow)
         (variantOrder : list string),
    NoDup (map v_id (rental_variants s)) ->
    In r (rentals s) -> r_id r = rid -> r_deleted r = false ->
    length variantOrder = length (current_variants s rid) ->
    (forall vId, In vId variantOrder ->
                 exists v, In v (current_variants s rid) /\ ve_id v = vId) ->
    exists rental vs,
      RentalService.reorder_checks rid variantOrder s = (Ok (rental, vs), s) /\
      e_id rental = rid /\
      Forall2 (variant_for s rid) variantOrder vs /\
      (~ NoDup variantOrder ->
       (exists v, In v (current_variants s rid) /\ ~ In v vs) /\
       RentalService.reorderVariants emitPromise tx rid variantOrder s
       = (Throw (match fst (emitPromise s) with
                 | Ok _ => QueryFailedError
                 | Throw e => e
                 end),
          if tx then snd (emitPromise s) else s)).
Proof.
  intros bus tx s rid r variantOrder Hnd Hin Hid Hdel Hlen Hids.
  destruct (reorder_checks_maps s rid r variantOrder Hin Hid Hdel Hlen Hids)
    as [rental [vs [Hchecks [Eid [Evs HF]]]]].
  exists rental, vs. split; [exact Hchecks|]. split; [exact Eid|]. split; [exact HF|].
  intros Hrep.
  assert (Hlen' : length variantOrder = length (variant_rows s false rid)).
  { rewrite Hlen. unfold current_variants, load_variants. apply length_map. }
  pose proof (repeated_id_drops_a_variant s rid variantOrder Hnd Hlen' Hrep) as Hdrop.
  split.
  - destruct (forallb_false_witness _ _ _ Hdrop) as [row [Hrow Hout]].
    exists (mkRentalVariant row None None). split.
    + unfold current_variants, load_variants. apply in_map_iff. exists row.
      split; [reflexivity | exact Hrow].
    + intros Hvs. apply (in_map ve_id) in Hvs. rewrite Evs in Hvs.
      unfold mem_string in Hout.
      assert (Hex : existsb (String.eqb (v_id row)) variantOrder = true).
      { apply existsb_exists. exists (v_id row). split; [exact Hvs | apply String.eqb_refl]. }
      rewrite Hex in Hout. discriminate.
  - apply (reorderVariants_refused bus tx s rid variantOrder rental vs Hchecks).
    unfold e_id in Eid. rewrite Eid, Evs. exact Hdrop.
Qed.

Lemma C10_witness :
  exists rental vs,
    RentalService.reorder_checks "rental_0" ["variant_5"; "variant_5"] two_variant_store
    = (Ok (rental, vs), two_variant_store) /\
    e_id rental = "rental_0" /\
    Forall2 (variant_for two_variant_store "rental_0") ["variant_5"; "variant_5"] vs /\
    (exists v, In v (current_variants two_variant_store "rental_0") /\ ~ In v vs) /\
    RentalService.reorderVariants bus_stages false "rental_0" ["variant_5"; "variant_5"]
      two_variant_store
    = (Throw QueryFailedError, two_variant_store).
Proof.
  destruct (C10_reorderVariants_maps_ids_and_refuses_repeated_ones bus_stages false
              two_variant_store "rental_0" tent_row ["variant_5"; "variant_5"])
    as [rental [vs [Hchecks [Eid [HF Hrep]]]]].
  - vm_compute. repeat constructor; simpl; intuition discriminate.
  - left. reflexivity.
  - reflexivity.
  - reflexivity.
  - reflexivity.
  - intros vId [E|[E|[]]]; subst vId; eexists; (split; [right; left; reflexivity|]);
      reflexivity.
  - exists rental, vs. split; [exact Hchecks|]. split; [exact Eid|]. split; [exact HF|].
    apply Hrep. intros Hnd. inversion Hnd as [|? ? Hx _]; subst. apply Hx. left. reflexivity.
Defined.

(** The list [variant_2, variant_2] for the rental with the variants
    [variant_2] and [variant_5] is not accepted: [reorderVariants] throws,
    whether the event bus stages the event or refuses it, and nothing is
    stored. *)
Lemma C10_repeated_id_is_not_accepted :
  map ve_id (current_variants two_variant_store "rental_0") = ["variant_2"; "variant_5"]
  /\ RentalService.reorderVariants bus_stages false "rental_0" ["variant_2"; "variant_2"]
       two_variant_store
     = (Throw QueryFailedError, two_variant_store)
  /\ RentalService.reorderVariants bus_refuses false "rental_0" ["variant_2"; "variant_2"]
       two_variant_store
     = (Throw QueryFailedError, two_variant_store)
  /\ RentalService.reorderVariants bus_stages true "rental_0" ["variant_2"; "variant_2"]
       two_variant_store
     = (Throw QueryFailedError,
        set_events (fun evs => evs ++ [mkEvent RentalService.UPDATED "" []])
          two_variant_store).
Proof.
  repeat split; vm_compute; reflexivity.
Qed.

(** ** Adding an option *)

Lemma insertable_value_known : forall s row,
  (exists v, In v (rental_variants s) /\ v_id v = ov_variant_id row) ->
  (exists o, In o (rental_options s) /\ o_id o = ov_option_id row) ->
  RentalVariantService.insertable_value s row = true.
Proof.
  intros s row [v [Hv Ev]] [o [Ho Eo]]. unfold RentalVariantService.insertable_value.
  apply andb_true_iff. split; apply existsb_exists.
  - exists v. split; [exact Hv | apply String.eqb_eq; exact Ev].
  - exists o. split; [exact Ho | apply String.eqb_eq; exact Eo].
Qed.

Lemma addOptionValue_known : forall tx s variantId optionId optionValue,
  (exists v, In v (rental_variants s) /\ v_id v = variantId) ->
  (exists o, In o (rental_options s) /\ o_id o = optionId) ->
  RentalVariantService.addOptionValue tx variantId optionId optionValue s
  = (Ok (mkRentalOptionValueRow (next_generated "optval" s) optionValue optionId
           variantId false),
     set_rental_option_values
       (fun t => t ++ [mkRentalOptionValueRow (next_generated "optval" s) optionValue
                         optionId variantId false])
       (set_next_id S s)).
Proof.
  intros tx s variantId optionId optionValue Hv Ho.
  unfold RentalVariantService.addOptionValue. apply atomicPhase_ok.
  unfold bind at 1. unfold generateEntityId at 1.
  fold (next_generated "optval" s).
  unfold bind at 1. unfold get at 1.
  rewrite insertable_value_known; [reflexivity | exact Hv | exact Ho].
Qed.

Lemma backfill_ok : forall (oid : string) (vs : list RentalVariant) (s : Store),
  (forall v, In v vs -> exists row, In row (rental_variants s) /\ v_id row = ve_id v) ->
  (exists o, In o (rental_options s) /\ o_id o = oid) ->
  exists s',
    forM_ vs (fun variant =>
                RentalVariantService.addOptionValue true (ve_id variant) oid
                  "Default Value" ;;; ret tt) s = (Ok tt, s') /\
    rentals s' = rentals s /\
    rental_options s' = rental_options s /\
    (forall ov, In ov (rental_option_values s) -> In ov (rental_option_values s')) /\
    (forall v, In v vs ->
       exists ov, In ov (rental_option_values s') /\
                  ov_variant_id ov = ve_id v /\ ov_option_id ov = oid /\
                  ov_value ov = "Default Value" /\ ov_deleted ov = false).
Proof.
  intros oid vs. induction vs as [|v vs IH]; intros s Hvs Ho.
  - exists s. repeat split; try reflexivity; [tauto | intros v []].
  - set (row := mkRentalOptionValueRow (next_generated "optval" s) "Default Value"
                  oid (ve_id v) false).
    set (s1 := set_rental_option_values (fun t => t ++ [row]) (set_next_id S s)).
    destruct (IH s1) as [s' [E [R [O [Hold Hnew]]]]].
    { intros w Hw. apply (Hvs w). right. exact Hw. }
    { exact Ho. }
    exists s'. split; [|split; [|split; [|split]]].
    + simpl forM_. erewrite bind_ok; [exact E|].
      erewrite bind_ok; [reflexivity|].
      apply (addOptionValue_known true s (ve_id v) oid "Default Value");
        [apply (Hvs v); left; reflexivity | exact Ho].
    + rewrite R. reflexivity.
    + rewrite O. reflexivity.
    + intros ov Hov. apply Hold. unfold s1. simpl. apply in_or_app. left. exact Hov.
    + intros w [Hw|Hw].
      * subst w. exists row. split; [|repeat split].
        apply Hold. unfold s1. simpl. apply in_or_app. right. left. reflexivity.
      * apply Hnew. exact Hw.
Qed.

Lemma addOption_duplicate :
  forall (tx : bool) (s : Store) (rid optionTitle : string) (r : RentalRow),
    In r (rentals s) -> r_id r = rid -> r_deleted r = false ->
    (exists o, In o (load_options s false rid) /\ o_title o = optionTitle) ->
    fst (RentalService.addOption tx rid optionTitle s)
    = Throw (MedusaError DUPLICATE_ERROR).
Proof.
  intros tx s rid optionTitle r Hin Hid Hdel [o [Ho Et]].
  unfold RentalService.addOption. rewrite atomicPhase_fst.
  destruct (retrieve_with_relations s rid ["options"; "variants"] [] r)
    as [rental [Hret [_ [_ Hopts]]]]; try assumption; [discriminate|].
  change (group_options s false rid (getGroupedRelations ["options"; "variants"]))
    with (Some (load_options s false rid)) in Hopts.
  rewrite (bind_ok _ _ _ _ _ _ _ Hret). rewrite Hopts.
  erewrite bind_ok by reflexivity.
  destruct (find (fun o0 => String.eqb (o_title o0) optionTitle) (load_options s false rid))
    eqn:F; [reflexivity|].
  exfalso. apply (find_none _ _ F) in Ho. rewrite Et, String.eqb_refl in Ho.
  discriminate.
Qed.

Lemma addOption_creates :
  forall (tx : bool) (s : Store) (rid optionTitle : string) (r : RentalRow),
    In r (rentals s) -> r_id r = rid -> r_deleted r = false ->
    (forall o, In o (load_options s false rid) -> o_title o <> optionTitle) ->
    exists rental s',
      RentalService.addOption tx rid optionTitle s = (Ok rental, s') /\
      In (mkRentalOptionRow (next_generated "opt" s) optionTitle rid false)
         (rental_options s') /\
      forall v, In v (variant_rows s false rid) ->
        exists ov, In ov (rental_option_values s') /\
                   ov_variant_id ov = v_id v /\
                   ov_option_id ov = next_generated "opt" s /\
                   ov_value ov = "Default Value" /\ ov_deleted ov = false.
Proof.
  intros tx s rid optionTitle r Hin Hid Hdel Hfree.
  destruct (retrieve_with_relations s rid ["options"; "variants"] [] r)
    as [rental [Hret [_ [Hvars Hopts]]]]; try assumption; [discriminate|].
  change (group_options s false rid (getGroupedRelations ["options"; "variants"]))
    with (Some (load_options s false rid)) in Hopts.
  change (group_variants s false rid (getGroupedRelations ["options"; "variants"]))
    with (Some (load_variants s false [] rid)) in Hvars.
  set (oid := next_generated "opt" s).
  set (s1 := set_rental_options
               (fun t => t ++ [mkRentalOptionRow oid optionTitle rid false])
               (set_next_id S s)).
  destruct (backfill_ok oid (load_variants s false [] rid) s1)
    as [s2 [Efill [R2 [O2 [_ Hnew]]]]].
  { intros v Hv. unfold load_variants in Hv. apply in_map_iff in Hv.
    destruct Hv as [row [Erow Hrow]]. subst v. exists row. split; [|reflexivity].
    unfold variant_rows in Hrow. apply filter_In in Hrow. apply Hrow. }
  { exists (mkRentalOptionRow oid optionTitle rid false). split; [|reflexivity].
    unfold s1. simpl. apply in_or_app. right. left. reflexivity. }
  destruct (retrieve_without_relations s2 rid [] r) as [result [Eres _]];
    try assumption.
  { rewrite R2. exact Hin. }
  eexists. eexists. split; [|split].
  - unfold RentalService.addOption. apply atomicPhase_ok.
    rewrite (bind_ok _ _ _ _ _ _ _ Hret). rewrite Hopts.
    erewrite bind_ok by reflexivity.
    assert (F : find (fun o => String.eqb (o_title o) optionTitle)
                     (load_options s false rid) = None).
    { destruct (find (fun o => String.eqb (o_title o) optionTitle)
                     (load_options s false rid)) as [o|] eqn:F; [|reflexivity].
      apply find_some in F. destruct F as [Ho Et]. apply String.eqb_eq in Et.
      exfalso. exact (Hfree o Ho Et). }
    rewrite F.
    erewrite bind_ok by reflexivity.
    erewrite bind_ok by reflexivity.
    rewrite Hvars.
    erewrite bind_ok by reflexivity.
    erewrite bind_ok by exact Efill.
    erewrite bind_ok by exact Eres.
    unfold bind, emit, modify, ret. reflexivity.
  - simpl. rewrite O2. unfold s1. simpl. apply in_or_app. right. left. reflexivity.
  - intros v Hv. simpl.
    destruct (Hnew (mkRentalVariant v None None)) as [ov [Hov H]].
    { unfold load_variants. simpl.
      apply (in_map (fun v0 => mkRentalVariant v0 None None)) in Hv. exact Hv. }
    exists ov. split; [exact Hov | exact H].
Qed.

(** C7. For a rental, [addOption] fails with [DUPLICATE_ERROR] when one of
    its options already has exactly that title; otherwise it creates the
    option and gives every variant the rental had an option value
    "Default Value" for the new option. *)
Theorem C7_addOption_duplicate_or_backfill :
  forall (tx : bool) (s : Store) (rid optionTitle : string) (r : RentalRow),
    In r (rentals s) -> r_id r = rid -> r_deleted r = false ->
    ((exists o, In o (load_options s false rid) /\ o_title o = optionTitle) ->
     fst (RentalService.addOption tx rid optionTitle s)
     = Throw (MedusaError DUPLICATE_ERROR))
    /\
    ((forall o, In o (load_options s false rid) -> o_title o <> optionTitle) ->
     exists rental s',
       RentalService.addOption tx rid optionTitle s = (Ok rental, s') /\
       In (mkRentalOptionRow (next_generated "opt" s) optionTitle rid false)
          (rental_options s') /\
       forall v, In v (variant_rows s false rid) ->
         exists ov, In ov (rental_option_values s') /\
                    ov_variant_id ov = v_id v /\
                    ov_option_id ov = next_generated "opt" s /\
                    ov_value ov = "Default Value" /\ ov_deleted ov = false).
Proof.
  intros tx s rid optionTitle r Hin Hid Hdel. split.
  - apply (addOption_duplicate tx s rid optionTitle r); assumption.
  - apply (addOption_creates tx s rid optionTitle r); assumption.
Qed.

Lemma C7_witness :
  fst (RentalService.addOption false "rental_0" "Size" two_variant_store)
  = Throw (MedusaError DUPLICATE_ERROR)
  /\ exists rental s',
       RentalService.addOption false "rental_0" "Color" two_variant_store
       = (Ok rental, s') /\
       In (mkRentalOptionRow (next_generated "opt" two_variant_store) "Color"
             "rental_0" false) (rental_options s') /\
       forall v, In v (variant_rows two_variant_store false "rental_0") ->
         exists ov, In ov (rental_option_values s') /\
                    ov_variant_id ov = v_id v /\
                    ov_option_id ov = next_generated "opt" two_variant_store /\
                    ov_value ov = "Default Value" /\ ov_deleted ov = false.
Proof.
  split.
  - apply (proj1 (C7_addOption_duplicate_or_backfill false two_variant_store
                    "rental_0" "Size" tent_row
                    (or_introl eq_refl) eq_refl eq_refl)).
    eexists. split; [left; reflexivity | reflexivity].
  - apply (proj2 (C7_addOption_duplicate_or_backfill false two_variant_store
                    "rental_0" "Color" tent_row
                    (or_introl eq_refl) eq_refl eq_refl)).
    intros o [Ho|[]]. subst o. discriminate.
Defined.

(** ** Deleting an option *)

Lemma equals_first_loaded : forall s optionId valueToMatch rows,
  RentalService.equals_first optionId valueToMatch
    (map (fun v => mkRentalVariant v (Some (load_option_values s false (v_id v))) None)
         rows)
  = Ok (map (fun v => opt_eqb (held s optionId v) valueToMatch) rows).
Proof.
  intros s optionId valueToMatch rows. induction rows as [|v rows IH].
  - reflexivity.
  - simpl. rewrite IH. reflexivity.
Qed.

Lemma deleteOption_retrieves : forall s rid r,
  In r (rentals s) -> r_id r = rid -> r_deleted r = false ->
  exists rental,
    RentalService.retrieve rid ["variants"; "variants.options"] [] s = (Ok rental, s) /\
    e_variants rental
    = Some (map (fun v => mkRentalVariant v
                            (Some (load_option_values s false (v_id v))) None)
                (variant_rows s false rid)).
Proof.
  intros s rid r Hin Hid Hdel.
  destruct (retrieve_with_relations s rid ["variants"; "variants.options"] [] r)
    as [rental [Hret [_ [Hvars _]]]]; try assumption; [discriminate|].
  exists rental. split; [exact Hret | exact Hvars].
Qed.

Lemma deleteOption_noop :
  forall (tx : bool) (s : Store) (rid optionId : string) (r : RentalRow),
    In r (rentals s) -> r_id r = rid -> r_deleted r = false ->
    option_on_rental s rid optionId = None ->
    RentalService.deleteOption tx rid optionId s = (Ok None, s).
Proof.
  intros tx s rid optionId r Hin Hid Hdel Hnone.
  destruct (deleteOption_retrieves s rid r Hin Hid Hdel) as [rental [Hret _]].
  unfold RentalService.deleteOption. apply atomicPhase_ok.
  rewrite (bind_ok _ _ _ _ _ _ _ Hret).
  erewrite bind_ok by reflexivity.
  unfold option_on_rental in Hnone. rewrite Hnone. reflexivity.
Qed.

Lemma deleteOption_differing :
  forall (tx : bool) (s : Store) (rid optionId : string) (r : RentalRow)
         (o : RentalOptionRow) (v1 v2 : RentalVariantRow),
    In r (rentals s) -> r_id r = rid -> r_deleted r = false ->
    option_on_rental s rid optionId = Some o ->
    In v1 (variant_rows s false rid) -> In v2 (variant_rows s false rid) ->
    held s optionId v1 <> held s optionId v2 ->
    fst (RentalService.deleteOption tx rid optionId s)
    = Throw (MedusaError INVALID_DATA).
Proof.
  intros tx s rid optionId r o v1 v2 Hin Hid Hdel Hopt H1 H2 Hdiff.
  destruct (deleteOption_retrieves s rid r Hin Hid Hdel) as [rental [Hret Hvars]].
  unfold RentalService.deleteOption. rewrite atomicPhase_fst.
  rewrite (bind_ok _ _ _ _ _ _ _ Hret).
  erewrite bind_ok by reflexivity.
  unfold option_on_rental in Hopt. rewrite Hopt. rewrite Hvars.
  destruct (variant_rows s false rid) as [|first rest] eqn:Hrows; [destruct H1|].
  cbn [map ve_options].
  change (RentalService.held_value optionId (load_option_values s false (v_id first)))
    with (held s optionId first).
  change (mkRentalVariant first (Some (load_option_values s false (v_id first))) None
          :: map (fun v => mkRentalVariant v
                             (Some (load_option_values s false (v_id v))) None) rest)
    with (map (fun v => mkRentalVariant v
                          (Some (load_option_values s false (v_id v))) None)
              (first :: rest)).
  rewrite equals_first_loaded.
  assert (Hfalse : forallb (fun b : bool => b)
                     (map (fun v => opt_eqb (held s optionId v) (held s optionId first))
                          (first :: rest)) = false).
  { destruct (forallb (fun b : bool => b)
                (map (fun v => opt_eqb (held s optionId v) (held s optionId first))
                     (first :: rest))) eqn:E; [|reflexivity].
    exfalso. rewrite forallb_forall in E. apply Hdiff.
    assert (Hv : forall v, In v (first :: rest) ->
                           held s optionId v = held s optionId first).
    { intros v Hv. apply opt_eqb_eq. apply E.
      apply (in_map (fun v => opt_eqb (held s optionId v) (held s optionId first))).
      exact Hv. }
    rewrite (Hv v1 H1), (Hv v2 H2). reflexivity. }
  rewrite Hfalse. reflexivity.
Qed.

Lemma deleteOption_removes :
  forall (tx : bool) (s : Store) (rid optionId : string) (r : RentalRow)
         (o : RentalOptionRow),
    In r (rentals s) -> r_id r = rid -> r_deleted r = false ->
    option_on_rental s rid optionId = Some o ->
    (forall v1 v2, In v1 (variant_rows s false rid) -> In v2 (variant_rows s false rid) ->
                   held s optionId v1 = held s optionId v2) ->
    exists rental s',
      RentalService.deleteOption tx rid optionId s = (Ok (Some rental), s') /\
      e_id rental = rid /\
      rental_options s'
      = map (fun o => if String.eqb (o_id o) optionId
                      then RentalService.soft_remove_option o else o)
            (rental_options s) /\
      option_on_rental s' rid optionId = None.
Proof.
  intros tx s rid optionId r o Hin Hid Hdel Hopt Hsame.
  destruct (retrieve_with_relations s rid ["variants"; "variants.options"] [] r)
    as [rental [Hret [Hrid [Hvars _]]]]; try assumption; [discriminate|].
  change (group_variants s false rid
            (getGroupedRelations ["variants"; "variants.options"]))
    with (Some (map (fun v => mkRentalVariant v
                                (Some (load_option_values s false (v_id v))) None)
                    (variant_rows s false rid))) in Hvars.
  assert (Ho : o_id o = optionId).
  { unfold option_on_rental in Hopt. apply find_some in Hopt. destruct Hopt as [_ Hopt].
    apply andb_true_iff in Hopt. destruct Hopt as [Hopt _].
    apply andb_true_iff in Hopt. destruct Hopt as [Hopt _].
    apply String.eqb_eq. exact Hopt. }
  eexists. eexists. split; [|split; [exact Hrid | split]].
  - unfold RentalService.deleteOption. apply atomicPhase_ok.
    rewrite (bind_ok _ _ _ _ _ _ _ Hret).
    erewrite bind_ok by reflexivity.
    unfold option_on_rental in Hopt. rewrite Hopt. rewrite Hvars.
    destruct (variant_rows s false rid) as [|first rest] eqn:Hrows.
    + cbn [map]. erewrite bind_ok by reflexivity.
      unfold bind, RentalService.softRemove_option, emit, modify, ret. reflexivity.
    + cbn [map ve_options].
      change (RentalService.held_value optionId
                (load_option_values s false (v_id first)))
        with (held s optionId first).
      change (mkRentalVariant first (Some (load_option_values s false (v_id first))) None
              :: map (fun v => mkRentalVariant v
                                 (Some (load_option_values s false (v_id v))) None) rest)
        with (map (fun v => mkRentalVariant v
                              (Some (load_option_values s false (v_id v))) None)
                  (first :: rest)).
      rewrite equals_first_loaded.
      assert (Htrue : forallb (fun b : bool => b)
                        (map (fun v => opt_eqb (held s optionId v) (held s optionId first))
                             (first :: rest)) = true).
      { apply forallb_forall. intros b Hb. apply in_map_iff in Hb.
        destruct Hb as [v [E Hv]]. subst b. apply opt_eqb_eq.
        apply Hsame; [exact Hv | left; reflexivity]. }
      rewrite Htrue. change (negb true) with false. cbv iota.
      erewrite bind_ok by reflexivity.
      unfold bind, RentalService.softRemove_option, emit, modify, ret. reflexivity.
  - rewrite Ho. reflexivity.
  - unfold option_on_rental. simpl. rewrite Ho.
    destruct (find _ (map _ (rental_options s))) as [o'|] eqn:F; [|reflexivity].
    exfalso. apply find_some in F. destruct F as [Hin' F].
    apply in_map_iff in Hin'. destruct Hin' as [o0 [E _]].
    destruct (String.eqb (o_id o0) optionId) eqn:Eid; subst o'.
    + simpl in F. rewrite andb_false_r in F. discriminate.
    + rewrite Eid in F. discriminate.
Qed.

(** C8. For a rental, [deleteOption] is a no-op when the rental has no
    such option; it fails with [INVALID_DATA] when two variants of the rental
    hold differing values for the option; and when all variants hold the same
    value, or there are none, it soft-removes the option. *)
Theorem C8_deleteOption_cases :
  forall (tx : bool) (s : Store) (rid optionId : string) (r : RentalRow),
    In r (rentals s) -> r_id r = rid -> r_deleted r = false ->
    (option_on_rental s rid optionId = None ->
     RentalService.deleteOption tx rid optionId s = (Ok None, s))
    /\
    (forall o v1 v2,
       option_on_rental s rid optionId = Some o ->
       In v1 (variant_rows s false rid) -> In v2 (variant_rows s false rid) ->
       held s optionId v1 <> held s optionId v2 ->
       fst (RentalService.deleteOption tx rid optionId s)
       = Throw (MedusaError INVALID_DATA))
    /\
    (forall o,
       option_on_rental s rid optionId = Some o ->
       (forall v1 v2,
          In v1 (variant_rows s false rid) -> In v2 (variant_rows s false rid) ->
          held s optionId v1 = held s optionId v2) ->
       exists rental s',
         RentalService.deleteOption tx rid optionId s = (Ok (Some rental), s') /\
         e_id rental = rid /\
         rental_options s'
         = map (fun o => if String.eqb (o_id o) optionId
                         then RentalService.soft_remove_option o else o)
               (rental_options s) /\
         option_on_rental s' rid optionId = None).
Proof.
  intros tx s rid optionId r Hin Hid Hdel. split; [|split].
  - intros Hnone. apply (deleteOption_noop tx s rid optionId r); assumption.
  - intros o v1 v2 Hopt H1 H2 Hdiff.
    apply (deleteOption_differing tx s rid optionId r o v1 v2); assumption.
  - intros o Hopt Hsame.
    apply (deleteOption_removes tx s rid optionId r o); assumption.
Qed.

Lemma C8_witness :
  RentalService.deleteOption false "rental_0" "opt_none" tent_store
  = (Ok None, tent_store)
  /\ fst (RentalService.deleteOption false "rental_0" "opt_1" two_variant_store)
     = Throw (MedusaError INVALID_DATA)
  /\ exists rental s',
       RentalService.deleteOption false "rental_0" "opt_1" tent_store
       = (Ok (Some rental), s') /\
       e_id rental = "rental_0" /\
       rental_options s'
       = map (fun o => if String.eqb (o_id o) "opt_1"
                       then RentalService.soft_remove_option o else o)
             (rental_options tent_store) /\
       option_on_rental s' "rental_0" "opt_1" = None.
Proof.
  split; [|split].
  - apply (proj1 (C8_deleteOption_cases false tent_store "rental_0" "opt_none"
                    tent_row (or_introl eq_refl) eq_refl eq_refl)).
    reflexivity.
  - apply (proj1 (proj2 (C8_deleteOption_cases false two_variant_store "rental_0"
                           "opt_1" tent_row (or_introl eq_refl) eq_refl eq_refl))
             (mkRentalOptionRow "opt_1" "Size" "rental_0" false)
             small_row
             (mkRentalVariantRow "variant_5" (Some "Medium") "rental_0" None
                (Some 1%Z) (Some 0%Z) [] false)).
    + reflexivity.
    + left. reflexivity.
    + right. left. reflexivity.
    + vm_compute. discriminate.
  - apply (proj2 (proj2 (C8_deleteOption_cases false tent_store "rental_0"
                           "opt_1" tent_row (or_introl eq_refl) eq_refl eq_refl))
             (mkRentalOptionRow "opt_1" "Size" "rental_0" false)).
    + reflexivity.
    + intros v1 v2 [E1|[]] [E2|[]]. subst v1 v2. reflexivity.
Defined.

(** ** The create route runs in one transaction *)

(** C1, counterexample.  For a tent whose variant supplies no option value,
    the rental half of the route inserts the rental row, the variant half
    throws [INVALID_DATA], and the handler ends with the database it started
    from: the rental row is not persisted. *)
Lemma C1_variant_failure_rolls_rental_back :
  (exists newRental s1 s2,
     AdminPostRentals.create_rental tent_request_without_values empty_store
     = (Ok newRental, s1) /\
     map r_id (rentals s1) = ["rental_0"] /\
     AdminPostRentals.create_variants tent_request_without_values newRental s1
     = (Throw (MedusaError INVALID_DATA), s2))
  /\ AdminPostRentals.handler tent_request_without_values empty_store
     = (Throw (MedusaError INVALID_DATA), empty_store)
  /\ ~ rental_persists_on_variant_failure.
Proof.
  split; [|split].
  - eexists. eexists. eexists. split; [vm_compute; reflexivity|].
    split; vm_compute; reflexivity.
  - vm_compute. reflexivity.
  - intros H.
    destruct (H tent_request_without_values empty_store
                (match fst (AdminPostRentals.create_rental
                              tent_request_without_values empty_store) with
                 | Ok r => r
                 | Throw _ => mkRental tent_row [] None None []
                 end)
                (snd (AdminPostRentals.create_rental
                        tent_request_without_values empty_store))
                (MedusaError INVALID_DATA)
                (snd (AdminPostRentals.create_rental
                        tent_request_without_values empty_store)))
      as [row [Hrow _]].
    + vm_compute. reflexivity.
    + vm_compute. reflexivity.
    + vm_compute in Hrow. exact Hrow.
Qed.

(** C1, amended.  The rental row and its variants are created inside one
    transaction: when the rental half succeeds and the variant half throws,
    the handler throws the same error and the database is the one it
    started from; when both halves succeed, the transaction commits the
    state the variant half produced. *)
Theorem C1_route_creates_rental_and_variants_in_one_transaction :
  forall (validated : AdminPostRentals.AdminPostRentalsReq) (s s1 s2 : Store)
         (newRental : Rental),
    AdminPostRentals.create_rental validated s = (Ok newRental, s1) ->
    (forall e,
       AdminPostRentals.create_variants validated newRental s1 = (Throw e, s2) ->
       AdminPostRentals.handler validated s = (Throw e, s))
    /\
    (AdminPostRentals.create_variants validated newRental s1 = (Ok tt, s2) ->
     AdminPostRentals.handler validated s
     = RentalService.retrieve (e_id newRental)
         AdminPostRentals.defaultAdminRentalRelations
         AdminPostRentals.defaultAdminRentalFields s2).
Proof.
  intros validated s s1 s2 newRental Hrental. split.
  - intros e Hvariants. unfold AdminPostRentals.handler.
    apply (bind_throw _ _ _ _ s s). apply (transaction_throw _ _ s s2).
    rewrite (bind_ok _ _ _ _ _ _ _ Hrental).
    apply (bind_throw _ _ _ _ s1 s2). exact Hvariants.
  - intros Hvariants. unfold AdminPostRentals.handler.
    erewrite bind_ok; [reflexivity|].
    unfold transaction.
    rewrite (bind_ok _ _ _ _ _ _ _ Hrental).
    rewrite (bind_ok _ _ _ _ _ _ _ Hvariants). reflexivity.
Qed.

Lemma C1_witness :
  AdminPostRentals.handler tent_request_without_values empty_store
  = (Throw (MedusaError INVALID_DATA), empty_store).
Proof.
  apply (proj1 (C1_route_creates_rental_and_variants_in_one_transaction
                  tent_request_without_values empty_store
                  (snd (AdminPostRentals.create_rental
                          tent_request_without_values empty_store))
                  (snd (AdminPostRentals.create_rental
                          tent_request_without_values empty_store))
                  (match fst (AdminPostRentals.create_rental
                                tent_request_without_values empty_store) with
                   | Ok r => r
                   | Throw _ => mkRental tent_row [] None None []
                   end)
                  ltac:(vm_compute; reflexivity))).
  vm_compute. reflexivity.
Defined.

(** ** Grouping by id *)

Lemma lookup_push_entity : forall (x : Rental) (k : string) g,
  lookup k (push_entity x g)
  = if String.eqb (id_key x) k
    then Some (match lookup k g with
               | Some (y, ys) => (y, ys ++ [x])
               | None => (x, [])
               end)
    else lookup k g.
Proof.
  intros x k g. induction g as [|[k' [y ys]] g IH].
  - simpl. destruct (String.eqb (id_key x) k); reflexivity.
  - simpl. destruct (String.eqb k' (id_key x)) eqn:E1.
    + apply String.eqb_eq in E1. subst k'. simpl.
      destruct (String.eqb (id_key x) k); reflexivity.
    + simpl. destruct (String.eqb k' k) eqn:E2.
      * apply String.eqb_eq in E2. subst k'.
        rewrite String.eqb_sym, E1. reflexivity.
      * exact IH.
Qed.

Lemma lookup_groupBy_fold : forall (l : list Rental) (k : string) g,
  lookup k (fold_left (fun g x => push_entity x g) l g)
  = match lookup k g, filter (fun e => String.eqb (id_key e) k) l with
    | Some (y, ys), f => Some (y, ys ++ f)
    | None, [] => None
    | None, x :: xs => Some (x, xs)
    end.
Proof.
  induction l as [|x l IH]; intros k g.
  - simpl. destruct (lookup k g) as [[y ys]|]; [rewrite app_nil_r|]; reflexivity.
  - simpl fold_left. rewrite IH, lookup_push_entity. simpl filter.
    destruct (String.eqb (id_key x) k).
    + destruct (lookup k g) as [[y ys]|].
      * rewrite <- app_assoc. reflexivity.
      * reflexivity.
    + reflexivity.
Qed.

Lemma lookup_groupBy_key : forall (l : list Rental) (k : string),
  lookup k (groupBy_id l)
  = match filter (fun e => String.eqb (id_key e) k) l with
    | [] => None
    | x :: xs => Some (x, xs)
    end.
Proof.
  intros l k. unfold groupBy_id. rewrite lookup_groupBy_fold. reflexivity.
Qed.

Lemma filter_id_key : forall (l : list Rental) (k : string),
  Forall (fun e => id_key e = e_id e) l ->
  filter (fun e => String.eqb (id_key e) k) l
  = filter (fun e => String.eqb (e_id e) k) l.
Proof.
  intros l k H. apply filter_ext_in. intros e He.
  rewrite Forall_forall in H. rewrite (H e He). reflexivity.
Qed.

(** Entities that were read with the column [id] are grouped by the id of
    their rows. *)
Lemma lookup_groupBy : forall (l : list Rental) (k : string),
  Forall (fun e => id_key e = e_id e) l ->
  lookup k (groupBy_id l)
  = match filter (fun e => String.eqb (e_id e) k) l with
    | [] => None
    | x :: xs => Some (x, xs)
    end.
Proof.
  intros l k H. rewrite lookup_groupBy_key, (filter_id_key l k H). reflexivity.
Qed.










(** ** Hydration: what a merged group carries *)

Lemma rels_of_merge : forall xs x,
  rels_of (merge x xs) = fold_left merge_rels (map rels_of xs) (rels_of x).
Proof.
  unfold merge. induction xs as [|y xs IH]; intros x; [reflexivity|].
  simpl. rewrite IH. reflexivity.
Qed.

Lemma rels_of_join_group_select : forall s wd sel top rels r,
  rels_of (join_group s wd sel top rels r) = rels_of (join_group s wd [] top rels r).
Proof.
  intros. unfold join_group.
  destruct (String.eqb top "variants"); [reflexivity|].
  destruct (String.eqb top "options"); [reflexivity|].
  destruct (String.eqb top "type"); [reflexivity|].
  destruct (String.eqb top "collection"); reflexivity.
Qed.

Lemma merge_rels_no_rels_r : forall a, merge_rels a no_rels = a.
Proof. intros [[o v] l]. reflexivity. Qed.

Lemma merge_rels_no_rels_join : forall s wd sel top rels r,
  merge_rels no_rels (rels_of (join_group s wd sel top rels r))
  = rels_of (join_group s wd sel top rels r).
Proof.
  intros. unfold join_group.
  destruct (String.eqb top "variants"); [reflexivity|].
  destruct (String.eqb top "options"); [reflexivity|].
  destruct (String.eqb top "type"); [reflexivity|].
  destruct (String.eqb top "collection"); reflexivity.
Qed.

Lemma fold_merge_rels_no_rels : forall l a,
  Forall (fun x => x = no_rels) l -> fold_left merge_rels l a = a.
Proof.
  induction l as [|x l IH]; intros a H; [reflexivity|].
  inversion H; subst. simpl. rewrite merge_rels_no_rels_r. apply IH. assumption.
Qed.

(** The rels of the members [J g1 r, ..., J gn r] followed by entities
    without relations are the hydration of [r]. *)
Lemma rels_of_merged_members : forall s wd sel G r base x xs,
  x :: xs = map (fun g => join_group s wd sel (fst g) (snd g) r) G ++ base ->
  Forall (fun e => rels_of e = no_rels) base ->
  rels_of (merge x xs) = hydrate s wd G r.
Proof.
  intros s wd sel G r base x xs E Hbase. rewrite rels_of_merge. unfold hydrate.
  assert (Hb : Forall (fun x => x = no_rels) (map rels_of base)).
  { apply Forall_forall. intros y Hy. apply in_map_iff in Hy.
    destruct Hy as [e [Ee He]]. subst y. rewrite Forall_forall in Hbase.
    apply Hbase. exact He. }
  destruct G as [|g G].
  - simpl in E. simpl. destruct base as [|b base]; [discriminate|].
    inversion E; subst. inversion Hbase; subst.
    inversion Hb; subst.
    rewrite fold_merge_rels_no_rels by assumption. assumption.
  - simpl in E. inversion E; subst. simpl.
    rewrite map_app, fold_left_app, map_map.
    rewrite fold_merge_rels_no_rels by assumption.
    rewrite <- (rels_of_join_group_select s wd sel).
    rewrite merge_rels_no_rels_join.
    f_equal. apply map_ext. intros g'. apply rels_of_join_group_select.
Qed.

Lemma filter_flat_map : forall (A B : Type) (p : B -> bool) (f : A -> list B) (l : list A),
  filter p (flat_map f l) = flat_map (fun x => filter p (f x)) l.
Proof.
  intros A B p f l. induction l as [|x l IH]; [reflexivity|].
  simpl. rewrite filter_app, IH. reflexivity.
Qed.

Lemma filter_filter_and : forall (A : Type) (f g : A -> bool) (l : list A),
  filter f (filter g l) = filter (fun x => f x && g x) l.
Proof.
  intros A f g l. induction l as [|x l IH]; [reflexivity|].
  simpl. destruct (g x); simpl.
  - destruct (f x); simpl; rewrite IH; reflexivity.
  - rewrite andb_false_r. exact IH.
Qed.

Lemma flat_map_singleton : forall (A B : Type) (f : A -> B) (l : list A),
  flat_map (fun x => [f x]) l = map f l.
Proof.
  intros A B f l. induction l as [|x l IH]; [reflexivity|].
  simpl. rewrite IH. reflexivity.
Qed.

(** Under a primary key, a filter that only lets rows with the id of [r]
    through, and lets [r] through, keeps exactly [r]. *)
Lemma filter_unique_row : forall (T : list RentalRow) (p : RentalRow -> bool) (r : RentalRow),
  NoDup (map r_id T) -> In r T -> p r = true ->
  (forall r', p r' = true -> r_id r' = r_id r) ->
  filter p T = [r].
Proof.
  induction T as [|a T IH]; intros p r Hnd Hin Hp Hid; [destruct Hin|].
  simpl in Hnd. inversion Hnd as [|? ? Hnot Hnd']; subst. simpl.
  destruct Hin as [Hin|Hin].
  - subst a. rewrite Hp. f_equal. apply filter_none.
    intros x Hx. destruct (p x) eqn:Epx; [|reflexivity].
    exfalso. apply Hnot. rewrite <- (Hid x Epx). apply in_map. exact Hx.
  - destruct (p a) eqn:Epa.
    + exfalso. apply Hnot. rewrite (Hid a Epa). apply in_map. exact Hin.
    + apply IH; assumption.
Qed.

(** The members of the group of [r]'s id among the joined entities: one
    joined row per group of relations. *)
Lemma filter_id_queryRentalsWithIds : forall s ids G wd sel r,
  NoDup (map r_id (rentals s)) ->
  In r (rentals s) -> visible wd (r_deleted r) = true -> In (r_id r) ids ->
  filter (fun e => String.eqb (e_id e) (r_id r)) (queryRentalsWithIds s ids G wd sel)
  = map (fun g => join_group s wd sel (fst g) (snd g) r) G.
Proof.
  intros s ids G wd sel r Hnd Hin Hvis Hid. unfold queryRentalsWithIds.
  rewrite filter_flat_map. rewrite <- flat_map_singleton.
  apply flat_map_ext. intros g.
  rewrite filter_map_swap.
  rewrite (filter_ext _ (fun r' => String.eqb (r_id r') (r_id r)))
    by (intros x; rewrite e_id_join_group; reflexivity).
  rewrite filter_filter_and.
  rewrite (filter_unique_row (rentals s) _ r Hnd Hin); [reflexivity| |].
  - rewrite String.eqb_refl, Hvis. simpl. apply mem_string_In. exact Hid.
  - intros r' H. apply andb_true_iff in H. destruct H as [H _].
    apply String.eqb_eq. exact H.
Qed.


(** ** The free-text path *)












Lemma In_firstn : forall (A : Type) (n : nat) (l : list A) (x : A),
  In x (firstn n l) -> In x l.
Proof.
  intros A n l x H. rewrite <- (firstn_skipn n l). apply in_or_app. left. exact H.
Qed.

Lemma In_skipn : forall (A : Type) (n : nat) (l : list A) (x : A),
  In x (skipn n l) -> In x l.
Proof.
  intros A n l x H. rewrite <- (firstn_skipn n l). apply in_or_app. right. exact H.
Qed.

Lemma incl_paginate : forall (A : Type) (sk tk : option nat) (l : list A),
  incl (paginate sk tk l) l.
Proof.
  intros A sk tk l x H. unfold paginate in H.
  destruct tk as [n|].
  - apply In_firstn in H. destruct sk as [m|]; [apply (In_skipn _ _ _ _ H) | exact H].
  - destruct sk as [m|]; [apply (In_skipn _ _ _ _ H) | exact H].
Qed.


(** ** The plain path *)

Lemma push_group_nonempty : forall top rel g, push_group top rel g <> [].
Proof.
  intros top rel g. destruct g as [|[k rels] g]; simpl; [discriminate|].
  destruct (String.eqb k top); discriminate.
Qed.

Lemma getGroupedRelations_nonempty : forall relations,
  relations <> [] -> getGroupedRelations relations <> [].
Proof.
  intros relations H. unfold getGroupedRelations.
  destruct relations as [|rel relations]; [congruence|]. simpl.
  assert (Hfold : forall l g, g <> [] ->
            fold_left (fun g rel => push_group (topLevel rel) rel g) l g <> []).
  { induction l as [|x l IH]; intros g Hg; [exact Hg|].
    simpl. apply IH. apply push_group_nonempty. }
  apply Hfold. discriminate.
Qed.


Lemma carries_id : forall sel : list string,
  sel = [] \/ In "id" sel -> carries sel "id" = true.
Proof.
  intros sel [H|H]; [subst sel; reflexivity|].
  destruct sel as [|c sel]; [reflexivity|]. unfold carries, mem_string.
  apply existsb_exists. exists "id". split; [exact H | reflexivity].
Qed.



(** ** Grouping relations by their top-level name *)

Lemma dedup_aux_ext : forall l seen seen',
  (forall x, mem_string x seen = mem_string x seen') ->
  dedup_aux seen l = dedup_aux seen' l.
Proof.
  induction l as [|y l IH]; intros seen seen' H; [reflexivity|].
  simpl. rewrite <- (H y). destruct (mem_string y seen).
  - apply IH. exact H.
  - f_equal. apply IH. intros x. unfold mem_string in *. simpl. rewrite (H x).
    reflexivity.
Qed.

Lemma keys_push_group : forall top rel g,
  map fst (push_group top rel g)
  = if mem_string top (map fst g) then map fst g else map fst g ++ [top].
Proof.
  intros top rel g. induction g as [|[k rels] g IH]; [reflexivity|].
  simpl. unfold mem_string. simpl. rewrite (String.eqb_sym top k).
  destruct (String.eqb k top); [reflexivity|].
  simpl. rewrite IH. unfold mem_string.
  destruct (existsb (String.eqb top) (map fst g)); reflexivity.
Qed.

Lemma keys_grouped_fold : forall l g,
  map fst (fold_left (fun g rel => push_group (topLevel rel) rel g) l g)
  = map fst g ++ dedup_aux (map fst g) (map topLevel l).
Proof.
  induction l as [|rel l IH]; intros g.
  - simpl. rewrite app_nil_r. reflexivity.
  - simpl fold_left. rewrite IH, keys_push_group. simpl.
    destruct (mem_string (topLevel rel) (map fst g)) eqn:E; [reflexivity|].
    rewrite <- app_assoc. simpl. f_equal. f_equal.
    apply dedup_aux_ext. intros x. unfold mem_string. rewrite existsb_app. simpl.
    rewrite orb_false_r. apply orb_comm.
Qed.

Lemma keys_getGroupedRelations : forall relations,
  map fst (getGroupedRelations relations) = dedup (map topLevel relations).
Proof.
  intros relations. unfold getGroupedRelations. rewrite keys_grouped_fold.
  reflexivity.
Qed.




(** ** Both list paths *)






(** * Further properties of the services, the repositories and the routes *)

(** ** More on the monad *)

Lemma atomicPhase_throw_unchanged :
  forall (A : Type) (tx : bool) (work : M A) (s : Store) (e : Exn),
    work s = (Throw e, s) -> atomicPhase_ tx work s = (Throw e, s).
Proof.
  intros A tx work s e H. unfold atomicPhase_, transaction.
  destruct tx; rewrite H; reflexivity.
Qed.

Lemma atomicPhase_false_throw :
  forall (A : Type) (work : M A) (s s' : Store) (e : Exn),
    work s = (Throw e, s') -> atomicPhase_ false work s = (Throw e, s).
Proof.
  intros A work s s' e H. unfold atomicPhase_, transaction. rewrite H. reflexivity.
Qed.

Lemma find_all_false : forall (A : Type) (p : A -> bool) (l : list A),
  (forall x, In x l -> p x = false) -> find p l = None.
Proof.
  intros A p l H. induction l as [|a l IH]; [reflexivity|].
  simpl. rewrite (H a (or_introl eq_refl)). apply IH.
  intros x Hx. apply H. right. exact Hx.
Qed.

Lemma find_map_same : forall (A : Type) (p : A -> bool) (f : A -> A) (l : list A),
  (forall x, p (f x) = p x) -> find p (map f l) = option_map f (find p l).
Proof.
  intros A p f l H. induction l as [|a l IH]; [reflexivity|].
  simpl. rewrite H. destruct (p a); [reflexivity | exact IH].
Qed.

Lemma find_app_first : forall (A : Type) (p : A -> bool) (l1 l2 : list A),
  find p (l1 ++ l2) = match find p l1 with
                      | Some x => Some x
                      | None => find p l2
                      end.
Proof.
  intros A p l1 l2. induction l1 as [|a l1 IH]; [reflexivity|].
  simpl. destruct (p a); [reflexivity | exact IH].
Qed.

(** ** Variant creation: duplicates and ranks *)

Lemma create_rejects_same_options :
  forall (tx : bool) (s : Store) (rid : string) (r : RentalRow)
         (variant : CreateRentalVariantInput) (existing : RentalVariantRow),
    In r (rentals s) -> r_id r = rid -> r_deleted r = false ->
    covers (load_options s false rid) (cv_options variant) ->
    In existing (rental_variants s) ->
    v_rental_id existing = rid -> v_deleted existing = false ->
    RentalVariantService.same_options (cv_options variant)
      (load_option_values s false (v_id existing)) = true ->
    RentalVariantService.create tx (inl rid) variant s
    = (Throw (MedusaError DUPLICATE_ERROR), s).
Proof.
  intros tx s rid r variant existing Hr Hid Hdel Hcov Hex Hexr Hexd Hsame.
  unfold RentalVariantService.create, RentalVariantService.checks. apply atomicPhase_throw_unchanged.
  unfold bind, get, ret, throw.
  destruct (findOne_rental_live s rid ["variants"; "variants.options"; "options"]
              r Hr Hid Hdel)
    as [r' [F Hr']].
  rewrite F. cbn [e_options e_variants e_id e_row].
  replace (mem_string "options" ["variants"; "variants.options"; "options"])
    with true by reflexivity.
  replace (mem_string "variants" ["variants"; "variants.options"; "options"])
    with true by reflexivity.
  cbv iota.
  destruct Hcov as [Hlen Hcov'].
  assert (Hlenb : Nat.eqb (length (load_options s false rid))
                          (length (cv_options variant)) = true).
  { apply Nat.eqb_eq. symmetry. exact Hlen. }
  rewrite Hlenb. simpl negb. cbv iota.
  match goal with
  | |- context [forallb ?f (load_options s false rid)] =>
      assert (Hall : forallb f (load_options s false rid) = true)
  end.
  { apply forallb_forall. intros o Ho. destruct (Hcov' o Ho) as [vo [Hvo E]].
    destruct (RentalVariantService.find_option (Some (o_id o)) (cv_options variant))
      eqn:Fo; [reflexivity|].
    exfalso. exact (find_option_none _ _ vo Fo Hvo E). }
  rewrite Hall. simpl negb. cbv iota.
  destruct (load_variants_In s false ["variants"; "variants.options"; "options"]
              rid existing Hex Hexr Hexd eq_refl) as [v [Hv [_ Hvo]]].
  destruct (find_variant_exists_hit (cv_options variant) _ v _
              (load_variants_options_loaded s false
                 ["variants"; "variants.options"; "options"] rid eq_refl)
              Hv Hvo Hsame) as [v' Hhit].
  rewrite Hhit. reflexivity.
Qed.

(** X1. A live variant that holds no option value blocks every further variant of
    its rental: for an input that covers the rental's options,
    [RentalVariantService.create] fails with DuplicateError and leaves the
    database as it was.  The duplicate test asks whether every option value
    of an existing variant is matched by the input, which holds for a variant
    without values. *)
Theorem create_blocked_by_variant_without_values :
  forall (tx : bool) (s : Store) (rid : string) (r : RentalRow)
         (variant : CreateRentalVariantInput) (existing : RentalVariantRow),
    In r (rentals s) -> r_id r = rid -> r_deleted r = false ->
    covers (load_options s false rid) (cv_options variant) ->
    In existing (rental_variants s) ->
    v_rental_id existing = rid -> v_deleted existing = false ->
    load_option_values s false (v_id existing) = [] ->
    RentalVariantService.create tx (inl rid) variant s
    = (Throw (MedusaError DUPLICATE_ERROR), s).
Proof.
  intros tx s rid r variant existing Hr Hid Hdel Hcov Hex Hexr Hexd Hnone.
  apply (create_rejects_same_options tx s rid r variant existing); try assumption.
  rewrite Hnone. reflexivity.
Qed.

Lemma X1_witness :
  RentalVariantService.create false (inl "rental_0") variant_input_without_options
    tent_without_size
  = (Throw (MedusaError DUPLICATE_ERROR), tent_without_size).
Proof.
  apply (create_blocked_by_variant_without_values false tent_without_size "rental_0"
           tent_row variant_input_without_options small_row).
  - left. reflexivity.
  - reflexivity.
  - reflexivity.
  - split; [reflexivity|]. intros o Ho. vm_compute in Ho. destruct Ho.
  - left. reflexivity.
  - reflexivity.
  - reflexivity.
  - reflexivity.
Defined.

Lemma persist_row : forall rental_id count variant s created s1,
  RentalVariantService.persist rental_id count variant s = (Ok created, s1) ->
  ve_row created
  = mkRentalVariantRow (next_generated "variant" s) (cv_title variant) rental_id
      (cv_sku variant)
      (if truthy_number (cv_variant_rank variant) then cv_variant_rank variant
       else Some (Z.of_nat count))
      (cv_inventory_quantity variant) (cv_metadata variant) false.
Proof.
  intros rental_id count variant s created s1 H.
  unfold RentalVariantService.persist in H.
  bind_inv H newid sa Hid. bind_inv H st sg Hget. bind_inv H u sb Hu.
  bind_inv H values sc Hvalues.
  bind_inv H u' sd Hprices. bind_inv H u'' se Hemit.
  unfold ret in H. inversion H; subst; clear H.
  unfold generateEntityId in Hid. inversion Hid; subst; clear Hid.
  reflexivity.
Qed.

(** X2. Whenever [RentalVariantService.create] returns a variant for a rental
    id, the variant's row is stored under that rental, and its rank is the
    given [variant_rank] when that is a non-zero number and the number of the
    rental's live variants before the call otherwise. *)
Theorem create_stores_rank_or_variant_count :
  forall (tx : bool) (s s1 : Store) (rid : string)
         (variant : CreateRentalVariantInput) (created : RentalVariant),
    RentalVariantService.create tx (inl rid) variant s = (Ok created, s1) ->
    In (ve_row created) (rental_variants s1) /\
    v_rental_id (ve_row created) = rid /\
    v_variant_rank (ve_row created)
    = match cv_variant_rank variant with
      | Some rank => if Z.eqb rank 0
                     then Some (Z.of_nat (length (variant_rows s false rid)))
                     else Some rank
      | None => Some (Z.of_nat (length (variant_rows s false rid)))
      end.
Proof.
  intros tx s s1 rid variant created H.
  apply create_ok_persist in H.
  pose proof (persist_row _ _ _ _ _ _ H) as Hrow.
  apply persist_ok in H.
  destruct H as [_ [_ [values [E3 _]]]].
  split; [rewrite E3; apply in_or_app; right; left; reflexivity|].
  rewrite Hrow. simpl. split; [reflexivity|].
  unfold truthy_number. destruct (cv_variant_rank variant) as [rank|]; [|reflexivity].
  destruct (Z.eqb rank 0); reflexivity.
Qed.

Lemma X2_witness :
  exists created,
    fst (RentalVariantService.create false (inl "rental_0")
           (variant_input "Medium" "M") tent_store) = Ok created /\
    In (ve_row created) (rental_variants two_variant_store) /\
    v_variant_rank (ve_row created) = Some 1%Z.
Proof.
  destruct (RentalVariantService.create false (inl "rental_0")
              (variant_input "Medium" "M") tent_store) as [[created|e] s1] eqn:E;
    [|vm_compute in E; discriminate E].
  assert (Es : s1 = two_variant_store).
  { vm_compute in E. inversion E. reflexivity. }
  subst s1.
  destruct (create_stores_rank_or_variant_count false tent_store two_variant_store
              "rental_0" (variant_input "Medium" "M") created E) as [Hin [_ Hrank]].
  exists created. split; [reflexivity|]. split; [exact Hin | exact Hrank].
Defined.

(** ** Deleting a variant *)

Lemma findOne_variant_some : forall s vid row,
  findOne_variant s vid = Some row ->
  In row (rental_variants s) /\ v_id row = vid /\ v_deleted row = false.
Proof.
  intros s vid row H. unfold findOne_variant in H. apply find_some in H.
  destruct H as [Hin H]. apply andb_true_iff in H. destruct H as [H1 H2].
  apply String.eqb_eq in H1. apply negb_true_iff in H2. auto.
Qed.

(** X3. Deleting a live variant succeeds, emits one [rental-variant.deleted]
    event and soft-removes the variant together with its option values and
    its prices; every other variant row stays; afterwards [retrieve] of the
    variant fails with NotFound and a second [delete] is a no-op. *)
Theorem variant_delete_cascades_and_is_idempotent :
  forall (tx : bool) (s : Store) (variantId : string) (row : RentalVariantRow),
    findOne_variant s variantId = Some row ->
    exists s',
      RentalVariantService.delete tx variantId s = (Ok tt, s') /\
      findOne_variant s' variantId = None /\
      load_option_values s' false variantId = [] /\
      load_prices s' false variantId = [] /\
      (forall v, In v (rental_variants s) -> v_id v <> variantId ->
                 In v (rental_variants s')) /\
      events s' = events s ++ [mkEvent RentalVariantService.DELETED variantId []] /\
      RentalVariantService.retrieve variantId s' = (Throw (MedusaError NOT_FOUND), s') /\
      RentalVariantService.delete tx variantId s' = (Ok tt, s').
Proof.
  intros tx s variantId row H.
  destruct (findOne_variant_some _ _ _ H) as [Hin [Hid Hdel]].
  eexists. split.
  { unfold RentalVariantService.delete. apply atomicPhase_ok.
    unfold bind, get. rewrite H. unfold RentalVariantService.softRemove, emit, modify.
    reflexivity. }
  rewrite Hid.
  match goal with
  | |- findOne_variant ?st _ = None /\ _ =>
      assert (Hnone : findOne_variant st variantId = None)
  end.
  { unfold findOne_variant. simpl. apply find_all_false. intros x Hx.
    apply in_map_iff in Hx. destruct Hx as [v [E Hv]]. subst x.
    destruct (String.eqb (v_id v) variantId) eqn:Ev.
    - simpl. rewrite andb_false_r. reflexivity.
    - rewrite Ev. reflexivity. }
  split; [exact Hnone|].
  split.
  { unfold load_option_values. simpl. apply filter_none. intros x Hx.
    apply in_map_iff in Hx. destruct Hx as [ov [E Hov]]. subst x.
    destruct (String.eqb (ov_variant_id ov) variantId) eqn:Ev.
    - simpl. rewrite andb_false_r. reflexivity.
    - rewrite Ev. reflexivity. }
  split.
  { unfold load_prices. simpl. apply filter_none. intros x Hx.
    apply in_map_iff in Hx. destruct Hx as [ma [E Hma]]. subst x.
    destruct (String.eqb (ma_variant_id ma) variantId) eqn:Ev.
    - simpl. rewrite andb_false_r. reflexivity.
    - rewrite Ev. reflexivity. }
  split.
  { intros v Hv Hne. simpl. apply in_map_iff. exists v. split; [|exact Hv].
    apply String.eqb_neq in Hne. rewrite Hne. reflexivity. }
  split; [reflexivity|].
  split.
  { unfold RentalVariantService.retrieve, bind, get. rewrite Hnone. reflexivity. }
  apply variant_delete_missing. exact Hnone.
Qed.

Lemma X3_witness :
  exists s',
    RentalVariantService.delete false "variant_2" tent_store = (Ok tt, s') /\
    load_prices s' false "variant_2" = [] /\
    RentalVariantService.delete false "variant_2" s' = (Ok tt, s').
Proof.
  destruct (variant_delete_cascades_and_is_idempotent false tent_store "variant_2"
              small_row eq_refl)
    as [s' [Hdel [_ [_ [Hprices [_ [_ [_ Hagain]]]]]]]].
  exists s'. repeat split; assumption.
Defined.

(** ** Option values *)

Lemma findOne_option_value_some : forall s vid oid ov,
  findOne_option_value s vid (Some oid) = Some ov ->
  In ov (rental_option_values s) /\ ov_variant_id ov = vid /\
  ov_option_id ov = oid /\ ov_deleted ov = false.
Proof.
  intros s vid oid ov H. unfold findOne_option_value in H. apply find_some in H.
  destruct H as [Hin H]. apply andb_true_iff in H. destruct H as [H H3].
  apply andb_true_iff in H. destruct H as [H1 H2].
  apply String.eqb_eq in H1. simpl in H2. apply String.eqb_eq in H2.
  apply negb_true_iff in H3. auto.
Qed.

(** X4. [updateOptionValue] fails with NotFound, changing nothing, when the
    variant holds no live value for the option.  Otherwise it returns that
    value row with the new value, a later lookup of the (variant, option)
    pair finds this row, and, option-value ids being distinct, the lookup of
    every other pair is as before. *)
Theorem updateOptionValue_overwrites_one_pair :
  forall (tx : bool) (s : Store) (variantId optionId optionValue : string),
    (findOne_option_value s variantId (Some optionId) = None ->
     RentalVariantService.updateOptionValue tx variantId (Some optionId) optionValue s
     = (Throw (MedusaError NOT_FOUND), s))
    /\
    (forall ov,
       findOne_option_value s variantId (Some optionId) = Some ov ->
       exists s',
         RentalVariantService.updateOptionValue tx variantId (Some optionId)
           optionValue s
         = (Ok (RentalVariantService.set_value optionValue ov), s') /\
         findOne_option_value s' variantId (Some optionId)
         = Some (RentalVariantService.set_value optionValue ov) /\
         ov_value (RentalVariantService.set_value optionValue ov) = optionValue /\
         (NoDup (map ov_id (rental_option_values s)) ->
          forall variantId' optionId',
            (variantId', optionId') <> (variantId, optionId) ->
            findOne_option_value s' variantId' (Some optionId')
            = findOne_option_value s variantId' (Some optionId'))).
Proof.
  intros tx s variantId optionId optionValue. split.
  - intros H. unfold RentalVariantService.updateOptionValue.
    apply atomicPhase_throw_unchanged. unfold bind, get. rewrite H. reflexivity.
  - intros ov H. eexists. split.
    { unfold RentalVariantService.updateOptionValue. apply atomicPhase_ok.
      unfold bind, get. rewrite H. unfold modify, ret. reflexivity. }
    split.
    { unfold findOne_option_value in *. cbn [rental_option_values set_rental_option_values].
      rewrite find_map_same
        by (intros x; simpl; destruct (String.eqb (ov_id x) (ov_id ov)); reflexivity).
      rewrite H. simpl. rewrite String.eqb_refl. reflexivity. }
    split; [reflexivity|].
    intros Hnd vid' oid' Hne.
    unfold findOne_option_value. cbn [rental_option_values set_rental_option_values].
    rewrite find_map_same
      by (intros x; simpl; destruct (String.eqb (ov_id x) (ov_id ov)); reflexivity).
    destruct (find (fun ov0 => String.eqb (ov_variant_id ov0) vid'
                               && where_opt (Some oid') (ov_option_id ov0)
                               && negb (ov_deleted ov0))
                   (rental_option_values s)) as [x|] eqn:F; [|reflexivity].
    simpl. f_equal.
    destruct (String.eqb (ov_id x) (ov_id ov)) eqn:E; [|reflexivity].
    exfalso. apply String.eqb_eq in E.
    destruct (findOne_option_value_some _ _ _ _ H) as [Hin [Hv [Ho _]]].
    destruct (findOne_option_value_some s vid' oid' x F) as [Hin' [Hv' [Ho' _]]].
    assert (x = ov) by (apply (NoDup_map_In_inj _ _ ov_id _ x ov Hnd); assumption).
    subst x. apply Hne. congruence.
Qed.

Lemma X4_witness :
  RentalVariantService.updateOptionValue false "variant_2" (Some "opt_none") "XL"
    tent_store
  = (Throw (MedusaError NOT_FOUND), tent_store)
  /\ exists s',
       fst (RentalVariantService.updateOptionValue false "variant_2" (Some "opt_1")
              "XL" tent_store)
       = Ok (mkRentalOptionValueRow "optval_3" "XL" "opt_1" "variant_2" false) /\
       snd (RentalVariantService.updateOptionValue false "variant_2" (Some "opt_1")
              "XL" tent_store) = s' /\
       findOne_option_value s' "variant_2" (Some "opt_1")
       = Some (mkRentalOptionValueRow "optval_3" "XL" "opt_1" "variant_2" false).
Proof.
  split.
  - apply (proj1 (updateOptionValue_overwrites_one_pair false tent_store "variant_2"
                    "opt_none" "XL")).
    reflexivity.
  - destruct (proj2 (updateOptionValue_overwrites_one_pair false tent_store
                       "variant_2" "opt_1" "XL")
                (mkRentalOptionValueRow "optval_3" "S" "opt_1" "variant_2" false)
                eq_refl)
      as [s' [Hrun [Hfind _]]].
    exists s'. rewrite Hrun. repeat split. exact Hfind.
Defined.

(** ** What a computation can throw *)








Lemma throws_only_generateEntityId : forall (P : Exn -> Prop) prefix,
  throws_only P (generateEntityId prefix).
Proof. intros P prefix s e s' H. discriminate. Qed.





(** ** Updating a variant *)

Lemma updateOptionValue_true_eq : forall variantId optionId optionValue s,
  RentalVariantService.updateOptionValue true variantId optionId optionValue s
  = match findOne_option_value s variantId optionId with
    | None => (Throw (MedusaError NOT_FOUND), s)
    | Some ov =>
        (Ok (RentalVariantService.set_value optionValue ov),
         set_rental_option_values
           (map (fun x => if String.eqb (ov_id x) (ov_id ov)
                          then RentalVariantService.set_value optionValue x else x)) s)
    end.
Proof.
  intros. unfold RentalVariantService.updateOptionValue, atomicPhase_, bind, get.
  destruct (findOne_option_value s variantId optionId); reflexivity.
Qed.

Lemma update_options_missing :
  forall (variantId : string) (o : RentalVariantOption)
         (options : list RentalVariantOption) (s : Store),
    In o options ->
    findOne_option_value s variantId (option_id o) = None ->
    exists s',
      forM_ options
        (fun option =>
           RentalVariantService.updateOptionValue true variantId (option_id option)
             (value option) ;;; ret tt) s
      = (Throw (MedusaError NOT_FOUND), s').
Proof.
  intros variantId o options. induction options as [|h options IH]; intros s Hin Hnone.
  - destruct Hin.
  - cbn [forM_]. unfold bind at 1. unfold bind at 1.
    rewrite updateOptionValue_true_eq.
    destruct (findOne_option_value s variantId (option_id h)) as [ov|] eqn:F.
    + unfold ret at 1.
      apply IH.
      * destruct Hin as [Hin|Hin]; [subst h; congruence | exact Hin].
      * unfold findOne_option_value in *.
        cbn [rental_option_values set_rental_option_values].
        rewrite find_map_same
          by (intros x; simpl; destruct (String.eqb (ov_id x) (ov_id ov)); reflexivity).
        rewrite Hnone. reflexivity.
    + eexists. reflexivity.
Qed.

(** X5. [RentalVariantService.update] never creates an option value: when the
    update (without prices) lists an option for which the variant holds no
    live value, the update fails with NotFound, and run in a transaction of
    its own it leaves the database as it was, whatever else the update
    carries. *)
Theorem variant_update_never_creates_option_values :
  forall (tx : bool) (s : Store) (variantId : string) (row : RentalVariantRow)
         (update : UpdateRentalVariantInput) (options : list RentalVariantOption)
         (o : RentalVariantOption),
    findOne_variant s variantId = Some row ->
    uv_prices update = None ->
    uv_options update = Some options ->
    In o options ->
    findOne_option_value s variantId (option_id o) = None ->
    fst (RentalVariantService.update tx (inl variantId) update s)
    = Throw (MedusaError NOT_FOUND)
    /\ RentalVariantService.update false (inl variantId) update s
       = (Throw (MedusaError NOT_FOUND), s).
Proof.
  intros tx s variantId row update options o Hrow Hnoprices Hopts Hin Hnone.
  unfold RentalVariantService.update.
  match goal with
  | |- context [atomicPhase_ tx ?w] =>
      assert (Hwork : exists s', w s = (Throw (MedusaError NOT_FOUND), s'))
  end.
  { destruct (findOne_variant_some _ _ _ Hrow) as [_ [Hid _]].
    unfold bind at 1. unfold get at 1. rewrite Hrow.
    unfold bind at 1. unfold ret at 1.
    unfold ve_id. cbn [ve_row]. rewrite Hid.
    rewrite Hnoprices. unfold bind at 1. unfold ret at 1.
    rewrite Hopts. unfold bind at 1.
    destruct (update_options_missing variantId o options s Hin Hnone) as [s' E].
    rewrite E. exists s'. reflexivity. }
  destruct Hwork as [s' Hwork]. split.
  - rewrite atomicPhase_fst. rewrite Hwork. reflexivity.
  - apply (atomicPhase_false_throw _ _ s s'). exact Hwork.
Qed.

Lemma X5_witness :
  RentalVariantService.update false (inl "variant_2")
    (mkUpdateRentalVariantInput None None None None None None
       (Some [mkRentalVariantOption (Some "opt_none") "XL"]) None)
    tent_store
  = (Throw (MedusaError NOT_FOUND), tent_store).
Proof.
  apply (variant_update_never_creates_option_values false tent_store "variant_2"
           small_row
           (mkUpdateRentalVariantInput None None None None None None
              (Some [mkRentalVariantOption (Some "opt_none") "XL"]) None)
           [mkRentalVariantOption (Some "opt_none") "XL"]
           (mkRentalVariantOption (Some "opt_none") "XL")).
  - reflexivity.
  - reflexivity.
  - reflexivity.
  - left. reflexivity.
  - reflexivity.
Defined.

(** ** Retrieval: the row and its relations *)

Lemma e_row_join_group : forall s wd sel top rels r,
  e_row (join_group s wd sel top rels r) = r.
Proof.
  intros. unfold join_group.
  destruct (String.eqb top "variants"); [reflexivity|].
  destruct (String.eqb top "options"); [reflexivity|].
  destruct (String.eqb top "type"); [reflexivity|].
  destruct (String.eqb top "collection"); reflexivity.
Qed.

Lemma merge_row_same : forall sel r, merge_row sel r r = r.
Proof.
  intros sel r. unfold merge_row, pick. destruct r. simpl.
  repeat match goal with |- context [if ?c then _ else _] => destruct c end; reflexivity.
Qed.

Lemma e_row_merge : forall xs x r,
  e_row x = r -> Forall (fun e => e_row e = r) xs -> e_row (merge x xs) = r.
Proof.
  unfold merge. induction xs as [|y xs IH]; intros x r Hx Hall.
  - exact Hx.
  - inversion Hall as [|? ? Hy Hxs]; subst. simpl. apply IH; [|assumption].
    simpl. rewrite Hy. apply merge_row_same.
Qed.

Lemma retrieve_one_live_row :
  forall (s : Store) (rid : string) (relations sel : list string) (r : RentalRow),
    relations <> [] ->
    filter (fun r0 => String.eqb rid (r_id r0) && negb (r_deleted r0)) (rentals s) = [r] ->
    exists rental,
      RentalService.retrieve rid relations sel s = (Ok rental, s) /\
      e_row rental = r /\
      rels_of rental = hydrate s false (getGroupedRelations relations) r.
Proof.
  intros s rid relations sel r Hrel Hf.
  assert (Hr : r_id r = rid /\ r_deleted r = false /\ In r (rentals s)).
  { assert (H0 : In r (filter (fun r0 => String.eqb rid (r_id r0) && negb (r_deleted r0))
                              (rentals s))) by (rewrite Hf; left; reflexivity).
    apply filter_In in H0. destruct H0 as [Hin H0]. apply andb_true_iff in H0.
    destruct H0 as [H0 H1]. apply String.eqb_eq in H0. apply negb_true_iff in H1.
    auto. }
  destruct Hr as [Hid [Hdel Hin]].
  unfold RentalService.retrieve, bind, get, findOneWithRelations, findWithRelations.
  unfold queryRentals. cbn [fst where_ skip take withDeleted order set_take].
  unfold paginate.
  rewrite (filter_ext _ (fun r0 => String.eqb rid (r_id r0) && negb (r_deleted r0)))
    by (intros x; apply where_id_matches).
  rewrite Hf.
  change (firstn 1 [r]) with [r].
  change (map e_id (map id_only [r])) with [r_id r].
  change (map id_only [r]) with [id_only r].
  rewrite Hid.
  destruct relations as [|rel relations']; [congruence|].
  set (G := getGroupedRelations (rel :: relations')).
  assert (HQ : queryRentalsWithIds s [rid] G false []
               = map (fun g => join_group s false [] (fst g) (snd g) r) G).
  { unfold queryRentalsWithIds. rewrite <- flat_map_singleton.
    apply flat_map_ext. intros g.
    rewrite (filter_ext _ (fun r0 => String.eqb rid (r_id r0) && negb (r_deleted r0))).
    - rewrite Hf. reflexivity.
    - intros x. unfold visible, mem_string. simpl. rewrite orb_false_r.
      rewrite (String.eqb_sym (r_id x) rid). apply andb_comm. }
  rewrite HQ.
  assert (HG : G <> []) by (apply getGroupedRelations_nonempty; discriminate).
  destruct G as [|g G']; [congruence|].
  cbn [map app].
  rewrite (mergeEntities_single _ _ rid).
  2:{ constructor; [rewrite id_key_join_group by reflexivity; exact Hid|].
      apply Forall_app. split.
      - apply Forall_forall. intros e He. apply in_map_iff in He.
        destruct He as [g' [E _]]. subst e.
        rewrite id_key_join_group by reflexivity. exact Hid.
      - constructor; [exact Hid | constructor]. }
  cbn [hd_error]. eexists. split; [reflexivity|]. split.
  - apply e_row_merge; [apply e_row_join_group|].
    apply Forall_app. split.
    + apply Forall_forall. intros e He. apply in_map_iff in He.
      destruct He as [g' [E _]]. subst e. apply e_row_join_group.
    + constructor; [reflexivity | constructor].
  - apply (rels_of_merged_members s false [] (g :: G') r [id_only r]).
    + reflexivity.
    + constructor; [reflexivity | constructor].
Qed.

Lemma one_live_row : forall s rid r,
  NoDup (map r_id (rentals s)) ->
  In r (rentals s) -> r_id r = rid -> r_deleted r = false ->
  filter (fun r0 => String.eqb rid (r_id r0) && negb (r_deleted r0)) (rentals s) = [r].
Proof.
  intros s rid r Hnd Hin Hid Hdel. apply filter_unique_row; try assumption.
  - rewrite Hid, String.eqb_refl, Hdel. reflexivity.
  - intros r' H. apply andb_true_iff in H. destruct H as [H _].
    apply String.eqb_eq in H. congruence.
Qed.

Lemma retrieve_missing : forall s rid relations sel,
  (forall r, In r (rentals s) -> r_id r = rid -> r_deleted r = true) ->
  RentalService.retrieve rid relations sel s = (Throw (MedusaError NOT_FOUND), s).
Proof.
  intros s rid relations sel H.
  unfold RentalService.retrieve, bind, get, findOneWithRelations, findWithRelations.
  unfold queryRentals. cbn [fst where_ skip take withDeleted order set_take].
  rewrite (filter_ext _ (fun r0 => String.eqb rid (r_id r0) && negb (r_deleted r0)))
    by (intros x; apply where_id_matches).
  rewrite filter_none.
  - reflexivity.
  - intros x Hx. destruct (String.eqb rid (r_id x)) eqn:E; [|reflexivity].
    apply String.eqb_eq in E. rewrite (H x Hx (eq_sym E)). reflexivity.
Qed.



(** ** Deleting a rental *)

Lemma softRemove_all : forall (vs : list RentalVariant) (s : Store),
  exists s',
    forM_ vs (fun v => RentalVariantService.softRemove (ve_id v)) s = (Ok tt, s') /\
    rentals s' = rentals s /\
    rental_options s' = rental_options s /\
    events s' = events s /\
    rental_variants s'
    = map (fun x => if mem_string (v_id x) (map ve_id vs)
                    then RentalVariantService.soft_remove_variant x else x)
          (rental_variants s) /\
    money_amounts s'
    = map (fun x => if mem_string (ma_variant_id x) (map ve_id vs)
                    then RentalVariantService.soft_remove_price x else x)
          (money_amounts s) /\
    rental_option_values s'
    = map (fun x => if mem_string (ov_variant_id x) (map ve_id vs)
                    then RentalVariantService.soft_remove_value x else x)
          (rental_option_values s).
Proof.
  induction vs as [|v vs IH]; intros s.
  - exists s. simpl. repeat split; symmetry; apply map_id.
  - cbn [forM_]. unfold bind at 1.
    unfold RentalVariantService.softRemove at 1. unfold modify at 1.
    match goal with
    | |- exists s', forM_ vs _ ?s1 = _ /\ _ => destruct (IH s1) as [s' [E [E1 [E2 [E3 [E4 [E5 E6]]]]]]]
    end.
    exists s'. split; [exact E|]. simpl in E1, E2, E3, E4, E5, E6.
    split; [exact E1|]. split; [exact E2|]. split; [exact E3|].
    split; [|split].
    + rewrite E4, map_map. apply map_ext. intros x. unfold mem_string. simpl.
      destruct (String.eqb (v_id x) (ve_id v)); simpl.
      * destruct (existsb (String.eqb (v_id x)) (map ve_id vs)); reflexivity.
      * reflexivity.
    + rewrite E5, map_map. apply map_ext. intros x. unfold mem_string. simpl.
      destruct (String.eqb (ma_variant_id x) (ve_id v)); simpl.
      * destruct (existsb (String.eqb (ma_variant_id x)) (map ve_id vs)); reflexivity.
      * reflexivity.
    + rewrite E6, map_map. apply map_ext. intros x. unfold mem_string. simpl.
      destruct (String.eqb (ov_variant_id x) (ve_id v)); simpl.
      * destruct (existsb (String.eqb (ov_variant_id x)) (map ve_id vs)); reflexivity.
      * reflexivity.
Qed.

Lemma ve_id_load_variants : forall s wd rels rid,
  map ve_id (load_variants s wd rels rid) = map v_id (variant_rows s false rid).
Proof.
  intros. unfold load_variants. rewrite map_map. reflexivity.
Qed.

(** X7. Deleting a live rental succeeds, emits one [rental.deleted] event and
    soft-removes the rental with its variants, their option values and their
    prices, while the rental's option rows are left untouched; afterwards
    [retrieve] fails with NotFound for every config and a second [delete] is
    a no-op. *)
Theorem rental_delete_cascades_to_variants_only :
  forall (tx : bool) (s : Store) (rid : string) (r : RentalRow),
    In r (rentals s) -> r_id r = rid -> r_deleted r = false ->
    exists s',
      RentalService.delete tx rid s = (Ok tt, s') /\
      (forall relations sel,
         RentalService.retrieve rid relations sel s'
         = (Throw (MedusaError NOT_FOUND), s')) /\
      variant_rows s' false rid = [] /\
      (forall v, In v (variant_rows s false rid) ->
         findOne_variant s' (v_id v) = None /\
         load_option_values s' false (v_id v) = [] /\
         load_prices s' false (v_id v) = []) /\
      rental_options s' = rental_options s /\
      events s' = events s ++ [mkEvent RentalService.DELETED rid []] /\
      RentalService.delete tx rid s' = (Ok tt, s').
Proof.
  intros tx s rid r Hin Hid Hdel.
  set (rels := ["variants"; "variants.prices"; "variants.options"]).
  destruct (findOne_rental_live s rid rels r Hin Hid Hdel) as [r' [F Hr']].
  change (mem_string "variants" rels) with true in F.
  change (mem_string "options" rels) with false in F. cbv iota in F.
  set (vs := load_variants s false rels rid) in *.
  destruct (softRemove_all vs
              (set_rentals
                 (map (fun r0 => if String.eqb (r_id r0) rid
                                 then RentalService.soft_remove_rental r0 else r0)) s))
    as [s1 [E [E1 [E2 [E3 [E4 [E5 E6]]]]]]].
  simpl in E1, E2, E3, E4, E5, E6.
  assert (Hids : map ve_id vs = map v_id (variant_rows s false rid))
    by apply ve_id_load_variants.
  exists (set_events (fun evs => evs ++ [mkEvent RentalService.DELETED rid []]) s1).
  assert (Hrun : RentalService.delete tx rid s
                 = (Ok tt, set_events (fun evs => evs ++ [mkEvent RentalService.DELETED rid []]) s1)).
  { unfold RentalService.delete. apply atomicPhase_ok.
    unfold bind at 1. unfold get at 1. fold rels. rewrite F.
    unfold e_id. cbn [e_row e_variants RentalService.or_nil]. rewrite Hr'.
    unfold bind at 1. unfold modify at 1.
    unfold bind at 1. rewrite E. reflexivity. }
  assert (Hgone : forall x, In x (rentals s1) -> r_id x = rid -> r_deleted x = true).
  { intros x Hx Hxid. rewrite E1 in Hx. apply in_map_iff in Hx.
    destruct Hx as [y [Ey Hy]]. subst x.
    destruct (String.eqb (r_id y) rid) eqn:Eid; [reflexivity|].
    apply String.eqb_neq in Eid. contradiction. }
  split; [exact Hrun|].
  split. { intros relations sel. apply retrieve_missing. exact Hgone. }
  split.
  { unfold variant_rows. cbn [rental_variants set_events]. rewrite E4.
    apply filter_none. intros x Hx. apply in_map_iff in Hx.
    destruct Hx as [y [Ey Hy]]. subst x.
    destruct (mem_string (v_id y) (map ve_id vs)) eqn:Em.
    - simpl. rewrite andb_false_r. reflexivity.
    - destruct (String.eqb (v_rental_id y) rid && visible false (v_deleted y)) eqn:Ev;
        [|reflexivity].
      exfalso. rewrite Hids in Em.
      assert (In (v_id y) (map v_id (variant_rows s false rid))).
      { apply in_map. unfold variant_rows. apply filter_In. split; assumption. }
      apply mem_string_In in H. congruence. }
  split.
  { intros v Hv.
    assert (Hm : mem_string (v_id v) (map ve_id vs) = true).
    { apply mem_string_In. rewrite Hids. apply in_map. exact Hv. }
    split; [|split].
    - unfold findOne_variant. cbn [rental_variants set_events]. rewrite E4.
      apply find_all_false. intros x Hx. apply in_map_iff in Hx.
      destruct Hx as [y [Ey Hy]]. subst x.
      destruct (String.eqb (v_id y) (v_id v)) eqn:Ey.
      + apply String.eqb_eq in Ey. rewrite Ey, Hm. simpl.
        rewrite andb_false_r. reflexivity.
      + destruct (mem_string (v_id y) (map ve_id vs)); simpl; rewrite Ey; reflexivity.
    - unfold load_option_values. cbn [rental_option_values set_events]. rewrite E6.
      apply filter_none. intros x Hx. apply in_map_iff in Hx.
      destruct Hx as [y [Ey Hy]]. subst x.
      destruct (String.eqb (ov_variant_id y) (v_id v)) eqn:Ey.
      + apply String.eqb_eq in Ey. rewrite Ey, Hm. simpl.
        rewrite andb_false_r. reflexivity.
      + destruct (mem_string (ov_variant_id y) (map ve_id vs)); simpl; rewrite Ey;
          reflexivity.
    - unfold load_prices. cbn [money_amounts set_events]. rewrite E5.
      apply filter_none. intros x Hx. apply in_map_iff in Hx.
      destruct Hx as [y [Ey Hy]]. subst x.
      destruct (String.eqb (ma_variant_id y) (v_id v)) eqn:Ey.
      + apply String.eqb_eq in Ey. rewrite Ey, Hm. simpl.
        rewrite andb_false_r. reflexivity.
      + destruct (mem_string (ma_variant_id y) (map ve_id vs)); simpl; rewrite Ey;
          reflexivity. }
  split; [exact E2|].
  split; [cbn [events set_events]; rewrite E3; reflexivity|].
  apply rental_delete_missing. unfold findOne_rental.
  rewrite find_all_false; [reflexivity|].
  intros x Hx. cbn [rentals set_events] in Hx.
  destruct (String.eqb (r_id x) rid) eqn:Eid; [|reflexivity].
  apply String.eqb_eq in Eid. rewrite (Hgone x Hx Eid). reflexivity.
Qed.

Lemma X7_witness :
  exists s',
    RentalService.delete false "rental_0" tent_store = (Ok tt, s') /\
    findOne_variant s' "variant_2" = None /\
    rental_options s' = rental_options tent_store /\
    RentalService.delete false "rental_0" s' = (Ok tt, s').
Proof.
  destruct (rental_delete_cascades_to_variants_only false tent_store "rental_0"
              tent_row (or_introl eq_refl) eq_refl eq_refl)
    as [s' [Hdel [_ [_ [Hvs [Hopts [_ Hagain]]]]]]].
  exists s'. split; [exact Hdel|]. split; [|split; assumption].
  apply (Hvs small_row). left. reflexivity.
Defined.

(** ** Updating a rental *)

(** X8. The guards of [RentalService.update]: an update that carries
    [sales_channels] while the sales-channel feature is off fails with
    InvalidData, whether or not the rental exists; past that guard, an update
    of an id no live rental has fails with NotFound.  Neither changes the
    database. *)
Theorem rental_update_guards :
  forall (tx : bool) (s : Store) (rid : string) (update : UpdateRentalInput),
    (sales_channels_enabled s = false -> up_sales_channels update <> None ->
     RentalService.update tx rid update s = (Throw (MedusaError INVALID_DATA), s))
    /\
    (sales_channels_enabled s = true \/ up_sales_channels update = None ->
     (forall r, In r (rentals s) -> r_id r = rid -> r_deleted r = true) ->
     RentalService.update tx rid update s = (Throw (MedusaError NOT_FOUND), s)).
Proof.
  intros tx s rid update. split.
  - intros Hflag Hsc. unfold RentalService.update. apply atomicPhase_throw_unchanged.
    unfold bind at 1. unfold get at 1. rewrite Hflag.
    destruct (up_sales_channels update); [reflexivity | congruence].
  - intros Hguard Hgone. unfold RentalService.update. apply atomicPhase_throw_unchanged.
    unfold bind at 1. unfold get at 1.
    assert (G : negb (sales_channels_enabled s)
                && match up_sales_channels update with Some _ => true | None => false end
                = false).
    { destruct Hguard as [H|H]; rewrite H; [reflexivity|]. apply andb_false_r. }
    rewrite G.
    erewrite bind_throw; [reflexivity|]. apply retrieve_missing. exact Hgone.
Qed.

Lemma X8_witness :
  RentalService.update false "rental_0"
    (mkUpdateRentalInput None None None None None None None None None None
       (Some ["sc_web"]) None)
    tent_store
  = (Throw (MedusaError INVALID_DATA), tent_store)
  /\ RentalService.update false "rental_none"
       (mkUpdateRentalInput (Some "Hut") None None None None None None None None None
          None None)
       tent_store
     = (Throw (MedusaError NOT_FOUND), tent_store).
Proof.
  split.
  - apply (proj1 (rental_update_guards false tent_store "rental_0" _)).
    + reflexivity.
    + discriminate.
  - apply (proj2 (rental_update_guards false tent_store "rental_none" _)).
    + right. reflexivity.
    + intros r Hin Hid. vm_compute in Hin. destruct Hin as [Hin|[]]; subst r.
      discriminate Hid.
Defined.

Lemma remove_all : forall (vs : list RentalVariant) (s : Store),
  exists s',
    forM_ vs (fun variant => RentalService.remove_variant (ve_id variant)) s = (Ok tt, s') /\
    rentals s' = rentals s /\
    rental_options s' = rental_options s /\
    links s' = links s /\
    events s' = events s /\
    sales_channels_enabled s' = sales_channels_enabled s /\
    rental_variants s'
    = filter (fun x => negb (mem_string (v_id x) (map ve_id vs))) (rental_variants s) /\
    rental_option_values s'
    = filter (fun x => negb (mem_string (ov_variant_id x) (map ve_id vs)))
             (rental_option_values s) /\
    money_amounts s' = money_amounts s.
Proof.
  induction vs as [|v vs IH]; intros s.
  - exists s. simpl. repeat split; symmetry; apply forallb_filter_id;
      apply forallb_forall; reflexivity.
  - cbn [forM_]. unfold bind at 1.
    unfold RentalService.remove_variant at 1. unfold modify at 1.
    match goal with
    | |- exists s', forM_ vs _ ?s1 = _ /\ _ =>
        destruct (IH s1) as [s' [E [E1 [E2 [E3 [E4 [E5 [E6 [E7 E8]]]]]]]]]
    end.
    exists s'. split; [exact E|]. simpl in E1, E2, E3, E4, E5, E6, E7, E8.
    repeat (split; [assumption|]).
    split; [|split].
    + rewrite E6, filter_filter_and. apply filter_ext. intros x.
      unfold mem_string. simpl. rewrite negb_orb. apply andb_comm.
    + rewrite E7, filter_filter_and. apply filter_ext. intros x.
      unfold mem_string. simpl. rewrite negb_orb. apply andb_comm.
    + exact E8.
Qed.

(** X9. An update of a live rental that carries [variants: []] and beside it
    column values only (no images, tags, type, sales channels, profile or
    collection) removes every variant of the rental for good: the returned
    rental has no variants, no live variant of the rental is left, and for
    each former variant no variant row and no option-value row carries its
    id any more.  The price rows are not touched: those of the removed
    variants stay behind. *)
Theorem rental_update_with_empty_variants_removes_every_variant :
  forall (tx : bool) (s : Store) (rid : string) (r : RentalRow)
         (update : UpdateRentalInput),
    In r (rentals s) -> r_id r = rid -> r_deleted r = false ->
    up_variants update = Some [] ->
    up_images update = None -> up_tags update = None -> up_type update = None ->
    up_sales_channels update = None ->
    up_profile_id update = None -> up_collection_id update = None ->
    exists rental s',
      RentalService.update tx rid update s = (Ok rental, s') /\
      e_variants rental = Some [] /\
      variant_rows s' false rid = [] /\
      (forall v, In v (variant_rows s false rid) ->
         (forall x, In x (rental_variants s') -> v_id x <> v_id v) /\
         (forall ov, In ov (rental_option_values s') -> ov_variant_id ov <> v_id v)) /\
      money_amounts s' = money_amounts s.
Proof.
  intros tx s rid r update Hin Hid Hdel Hvs _ _ _ Hsc _ _.
  assert (Hguard : sales_channels_enabled s = true \/ up_sales_channels update = None)
    by (right; exact Hsc).
  assert (G : negb (sales_channels_enabled s)
              && match up_sales_channels update with Some _ => true | None => false end
              = false).
  { destruct Hguard as [H|H]; rewrite H; [reflexivity|]. apply andb_false_r. }
  set (relations := ["variants"; "tags"; "images"]
                    ++ (if sales_channels_enabled s
                           && match up_sales_channels update with
                              | Some _ => true | None => false end
                        then ["sales_channels"] else [])).
  destruct (retrieve_with_relations s rid relations [] r) as [rental [Hret [Eid [Hv _]]]];
    try assumption; [discriminate|].
  assert (Hcur : e_variants rental = Some (current_variants s rid)).
  { rewrite Hv. unfold relations.
    destruct (sales_channels_enabled s
              && match up_sales_channels update with Some _ => true | None => false end);
      reflexivity. }
  destruct (remove_all (current_variants s rid) s)
    as [s1 [E [E1 [E2 [E3 [E4 [E5 [E6 [E7 E8]]]]]]]]].
  assert (Hids : map ve_id (current_variants s rid) = map v_id (variant_rows s false rid))
    by apply ve_id_load_variants.
  assert (Hrun : exists rental' s',
            RentalService.update tx rid update s = (Ok rental', s') /\
            e_variants rental' = Some [] /\
            rental_variants s' = rental_variants s1 /\
            rental_option_values s' = rental_option_values s1 /\
            money_amounts s' = money_amounts s1).
  { unfold RentalService.update.
    match goal with
    | |- exists rental' s', atomicPhase_ tx ?w s = _ /\ _ =>
        assert (Hw : exists rental' s',
                  w s = (Ok rental', s') /\
                  e_variants rental' = Some [] /\
                  rental_variants s' = rental_variants s1 /\
                  rental_option_values s' = rental_option_values s1 /\
                  money_amounts s' = money_amounts s1)
    end.
    { unfold bind at 1. unfold get at 1. rewrite G. fold relations.
      rewrite (bind_ok _ _ _ _ _ _ _ Hret).
      rewrite Hvs, Hcur.
      unfold bind at 1. unfold bind at 1. unfold bind at 1. unfold ret at 1.
      unfold bind at 1.
      assert (Eloop :
        forM_ (current_variants s rid)
          (fun variant =>
             match find (fun v => truthy_string (dto_id v)
                                  && opt_eqb (Some (ve_id variant)) (dto_id v))
                        (@nil UpdateRentalRentalVariantDTO) with
             | Some _ => ret tt
             | None => RentalService.remove_variant (ve_id variant)
             end) s = (Ok tt, s1)) by exact E.
      rewrite Eloop.
      cbn [RentalService.update_variants].
      unfold bind, ret, RentalService.save_rental_row, modify, emit.
      destruct (up_images update), (up_tags update), (sales_channels_enabled s),
        (up_sales_channels update);
        eexists; eexists; (split; [reflexivity|]); repeat split; reflexivity. }
    destruct Hw as [rental' [s' [Hw Hrest]]].
    exists rental', s'. split; [apply atomicPhase_ok; exact Hw | exact Hrest]. }
  destruct Hrun as [rental' [s' [Hrun [Hv' [F1 [F2 F3]]]]]].
  exists rental', s'. split; [exact Hrun|]. split; [exact Hv'|].
  split; [|split; [|rewrite F3; exact E8]].
  { unfold variant_rows. rewrite F1, E6. apply filter_none. intros x Hx.
    apply filter_In in Hx. destruct Hx as [Hx Hm].
    destruct (String.eqb (v_rental_id x) rid && visible false (v_deleted x)) eqn:Ev;
      [|reflexivity].
    exfalso. rewrite Hids in Hm.
    assert (Hmem : In (v_id x) (map v_id (variant_rows s false rid))).
    { apply in_map. unfold variant_rows. apply filter_In. split; assumption. }
    apply mem_string_In in Hmem. rewrite Hmem in Hm. discriminate. }
  intros v Hvin.
  assert (Hm : mem_string (v_id v) (map ve_id (current_variants s rid)) = true).
  { apply mem_string_In. rewrite Hids. apply in_map. exact Hvin. }
  split.
  - intros x Hx Ex. rewrite F1, E6 in Hx. apply filter_In in Hx.
    destruct Hx as [_ Hx]. rewrite Ex, Hm in Hx. discriminate.
  - intros x Hx Ex. rewrite F2, E7 in Hx. apply filter_In in Hx.
    destruct Hx as [_ Hx]. rewrite Ex, Hm in Hx. discriminate.
Qed.

Lemma X9_witness :
  exists rental s',
    RentalService.update false "rental_0"
      (mkUpdateRentalInput None None None None None None None None None None None
         (Some []))
      two_variant_store
    = (Ok rental, s') /\
    e_variants rental = Some [] /\
    variant_rows s' false "rental_0" = [] /\
    map (fun ma => (ma_id ma, ma_variant_id ma)) (money_amounts s')
    = [("ma_4", "variant_2")].
Proof.
  destruct (rental_update_with_empty_variants_removes_every_variant false
              two_variant_store "rental_0" tent_row
              (mkUpdateRentalInput None None None None None None None None None None
                 None (Some []))
              (or_introl eq_refl) eq_refl eq_refl eq_refl eq_refl eq_refl eq_refl
              eq_refl eq_refl eq_refl)
    as [rental [s' [Hup [Hvs [Hrows [_ Hprices]]]]]].
  exists rental, s'. split; [exact Hup|]. split; [exact Hvs|]. split; [exact Hrows|].
  rewrite Hprices. reflexivity.
Defined.




(** ** Renaming an option *)

Lemma retrieve_options : forall s rid r,
  In r (rentals s) -> r_id r = rid -> r_deleted r = false ->
  exists rental,
    RentalService.retrieve rid ["options"] [] s = (Ok rental, s) /\
    e_id rental = rid /\
    e_options rental = Some (load_options s false rid).
Proof.
  intros s rid r Hin Hid Hdel.
  destruct (retrieve_with_relations s rid ["options"] [] r) as [rental [Hret [Eid [_ Ho]]]];
    try assumption; [discriminate|].
  exists rental. repeat split; assumption.
Qed.

(** X11. [RentalService.updateOption] on a live rental (for data without
    [values]), whatever the case mapping [toUpperCase] of the runtime: a
    title that another live option of the rental already carries gives
    NotFound, and so does an option id no live option has when no other live
    option of the rental has the title in upper case, both without a change;
    otherwise, no other live option of the rental having the title in upper
    case, the option with that id gets the new title.  The option is looked
    up by its id alone, so an option of another rental is renamed as well. *)
Theorem updateOption_renames_by_option_id_alone :
  forall (toUpperCase : string -> string) (tx : bool) (s : Store) (rid : string)
         (r : RentalRow) (optionId : string) (data : RentalService.RentalOptionInput),
    In r (rentals s) -> r_id r = rid -> r_deleted r = false ->
    ((exists o, In o (load_options s false rid) /\
                o_title o = RentalService.oi_title data /\ o_id o <> optionId) ->
     RentalService.updateOption toUpperCase tx rid optionId data s
     = (Throw (MedusaError NOT_FOUND), s))
    /\
    ((forall o, In o (load_options s false rid) -> o_id o <> optionId ->
                toUpperCase (o_title o)
                <> toUpperCase (RentalService.oi_title data)) ->
     (forall o, In o (rental_options s) -> o_id o = optionId -> o_deleted o = true) ->
     RentalService.updateOption toUpperCase tx rid optionId data s
     = (Throw (MedusaError NOT_FOUND), s))
    /\
    ((forall o, In o (load_options s false rid) -> o_id o <> optionId ->
                toUpperCase (o_title o)
                <> toUpperCase (RentalService.oi_title data)) ->
     forall opt,
       In opt (rental_options s) -> o_id opt = optionId -> o_deleted opt = false ->
       exists rental s',
         RentalService.updateOption toUpperCase tx rid optionId data s = (Ok rental, s') /\
         rental_options s'
         = map (fun o => if String.eqb (o_id o) optionId
                         then mkRentalOptionRow (o_id o) (RentalService.oi_title data)
                                (o_rental_id o) (o_deleted o)
                         else o)
               (rental_options s) /\
         In (mkRentalOptionRow optionId (RentalService.oi_title data)
               (o_rental_id opt) false)
            (rental_options s')).
Proof.
  intros toUpperCase tx s rid r optionId data Hin Hid Hdel.
  destruct (retrieve_options s rid r Hin Hid Hdel) as [rental [Hret [Eid Ho]]].
  assert (Hfree :
    (forall o, In o (load_options s false rid) -> o_id o <> optionId ->
               toUpperCase (o_title o)
               <> toUpperCase (RentalService.oi_title data)) ->
    existsb (fun o => String.eqb (toUpperCase (o_title o))
                        (toUpperCase (RentalService.oi_title data))
                      && negb (String.eqb (o_id o) optionId))
            (load_options s false rid) = false).
  { intros Hno. destruct (existsb _ (load_options s false rid)) eqn:Ex; [|reflexivity].
    exfalso. apply existsb_exists in Ex. destruct Ex as [o [Hoin Hc]].
    apply andb_true_iff in Hc. destruct Hc as [Hc1 Hc2].
    apply String.eqb_eq in Hc1. apply negb_true_iff in Hc2.
    apply String.eqb_neq in Hc2. exact (Hno o Hoin Hc2 Hc1). }
  split; [|split].
  - intros [o [Hoin [Ht Hne]]].
    unfold RentalService.updateOption. apply atomicPhase_throw_unchanged.
    rewrite (bind_ok _ _ _ _ _ _ _ Hret). rewrite Ho.
    unfold bind at 1. unfold ret at 1.
    replace (existsb _ (load_options s false rid)) with true; [reflexivity|].
    symmetry. apply existsb_exists. exists o. split; [exact Hoin|].
    rewrite Ht, String.eqb_refl. simpl. apply negb_true_iff.
    apply String.eqb_neq. exact Hne.
  - intros Hno Hgone.
    unfold RentalService.updateOption. apply atomicPhase_throw_unchanged.
    rewrite (bind_ok _ _ _ _ _ _ _ Hret). rewrite Ho.
    unfold bind at 1. unfold ret at 1. rewrite (Hfree Hno).
    unfold bind at 1. unfold get at 1.
    rewrite find_all_false; [reflexivity|].
    intros x Hx. destruct (String.eqb (o_id x) optionId) eqn:E; [|reflexivity].
    apply String.eqb_eq in E. rewrite (Hgone x Hx E). reflexivity.
  - intros Hno opt Hoin Hoid Hodel.
    destruct (find (fun o => String.eqb (o_id o) optionId && negb (o_deleted o))
                   (rental_options s)) as [found|] eqn:F.
    2:{ exfalso. apply (find_none _ _ F) in Hoin.
        rewrite Hoid, String.eqb_refl, Hodel in Hoin. discriminate. }
    assert (Hfid : o_id found = optionId).
    { apply find_some in F. destruct F as [_ F]. apply andb_true_iff in F.
      destruct F as [F _]. apply String.eqb_eq. exact F. }
    eexists. eexists. split.
    { unfold RentalService.updateOption. apply atomicPhase_ok.
      rewrite (bind_ok _ _ _ _ _ _ _ Hret). rewrite Ho.
      unfold bind at 1. unfold ret at 1. rewrite (Hfree Hno).
      unfold bind at 1. unfold get at 1. rewrite F. rewrite Hfid.
      unfold bind, modify, emit, ret. reflexivity. }
    split; [reflexivity|].
    cbn [rental_options set_events set_rental_options].
    apply in_map_iff. exists opt. split; [|exact Hoin].
    rewrite Hoid, String.eqb_refl, Hodel. reflexivity.
Qed.

Lemma X11_witness :
  RentalService.updateOption RentalService.upper false "rental_0" "opt_1"
    (RentalService.mkRentalOptionInput "Color") color_store
  = (Throw (MedusaError NOT_FOUND), color_store)
  /\ RentalService.updateOption RentalService.upper false "rental_0" "opt_none"
       (RentalService.mkRentalOptionInput "Width") camp_store
     = (Throw (MedusaError NOT_FOUND), camp_store)
  /\ exists rental s',
       RentalService.updateOption RentalService.upper false "rental_0" "opt_6"
         (RentalService.mkRentalOptionInput "Width") camp_store
       = (Ok rental, s') /\
       In (mkRentalOptionRow "opt_6" "Width" "rental_5" false) (rental_options s').
Proof.
  split; [|split].
  - apply (proj1 (updateOption_renames_by_option_id_alone RentalService.upper false color_store
                    "rental_0" tent_row "opt_1"
                    (RentalService.mkRentalOptionInput "Color")
                    (or_introl eq_refl) eq_refl eq_refl)).
    exists (mkRentalOptionRow "opt_5" "Color" "rental_0" false).
    split; [right; left; reflexivity|]. split; [reflexivity | discriminate].
  - apply (proj1 (proj2 (updateOption_renames_by_option_id_alone RentalService.upper false camp_store
                           "rental_0" tent_row "opt_none"
                           (RentalService.mkRentalOptionInput "Width")
                           (or_introl eq_refl) eq_refl eq_refl))).
    + intros o Ho _. vm_compute in Ho. destruct Ho as [Ho|[]]. subst o. discriminate.
    + intros o Ho Hid. vm_compute in Ho.
      destruct Ho as [Ho|[Ho|[]]]; subst o; discriminate Hid.
  - destruct (proj2 (proj2 (updateOption_renames_by_option_id_alone RentalService.upper false camp_store
                              "rental_0" tent_row "opt_6"
                              (RentalService.mkRentalOptionInput "Width")
                              (or_introl eq_refl) eq_refl eq_refl)))
      with (opt := mkRentalOptionRow "opt_6" "Size" "rental_5" false)
      as [rental [s' [Hrun [_ Hin]]]].
    + intros o Ho _. vm_compute in Ho. destruct Ho as [Ho|[]]. subst o. discriminate.
    + right. left. reflexivity.
    + reflexivity.
    + reflexivity.
    + exists rental, s'. split; [exact Hrun | exact Hin].
Defined.

(** ** Reordering variants: what is rejected and what is stored *)

Lemma map_order_throws : forall variants variantOrder e,
  RentalService.map_order variants variantOrder = Throw e ->
  e = MedusaError INVALID_DATA.
Proof.
  intros variants variantOrder. induction variantOrder as [|vId rest IH]; intros e H.
  - discriminate.
  - simpl in H. destruct (find _ variants); [|congruence].
    destruct (RentalService.map_order variants rest) as [vs|e']; [discriminate|].
    inversion H; subst. apply IH. reflexivity.
Qed.

Lemma map_order_known : forall variants variantOrder vs vId,
  RentalService.map_order variants variantOrder = Ok vs ->
  In vId variantOrder ->
  exists v, In v variants /\ ve_id v = vId.
Proof.
  intros variants variantOrder. induction variantOrder as [|x rest IH]; intros vs vId H Hin.
  - destruct Hin.
  - simpl in H. destruct (find (fun v => String.eqb (ve_id v) x) variants) as [w|] eqn:F;
      [|discriminate].
    destruct (RentalService.map_order variants rest) as [ws|e'] eqn:E; [|discriminate].
    destruct Hin as [Hin|Hin].
    + subst x. apply find_some in F. destruct F as [Hw Ew]. apply String.eqb_eq in Ew.
      exists w. split; assumption.
    + apply (IH ws vId eq_refl Hin).
Qed.

Lemma retrieve_variants_only : forall s rid r,
  In r (rentals s) -> r_id r = rid -> r_deleted r = false ->
  exists rental,
    RentalService.retrieve rid ["variants"] [] s = (Ok rental, s) /\
    e_id rental = rid /\
    e_variants rental = Some (current_variants s rid).
Proof.
  intros s rid r Hin Hid Hdel.
  destruct (retrieve_with_relations s rid ["variants"] [] r) as [rental [Hret [Eid [Hv _]]]];
    try assumption; [discriminate|].
  exists rental. repeat split; assumption.
Qed.

(** X12. [reorderVariants] on a live rental fails with InvalidData, changing
    nothing, when the id list has another length than the rental's live
    variants or names an id that no live variant of the rental has. *)
Theorem reorderVariants_rejects_other_lists :
  forall (emitPromise : M unit) (tx : bool) (s : Store) (rid : string) (r : RentalRow)
         (variantOrder : list string),
    In r (rentals s) -> r_id r = rid -> r_deleted r = false ->
    length variantOrder <> length (variant_rows s false rid)
    \/ (exists vId, In vId variantOrder /\
                    forall v, In v (variant_rows s false rid) -> v_id v <> vId) ->
    RentalService.reorderVariants emitPromise tx rid variantOrder s
    = (Throw (MedusaError INVALID_DATA), s).
Proof.
  intros bus tx s rid r variantOrder Hin Hid Hdel Hbad.
  destruct (retrieve_variants_only s rid r Hin Hid Hdel) as [rental [Hret [Eid Hv]]].
  unfold RentalService.reorderVariants. apply atomicPhase_throw_unchanged.
  apply bind_throw. unfold RentalService.reorder_checks.
  rewrite (bind_ok _ _ _ _ _ _ _ Hret). rewrite Hv.
  unfold bind at 1. unfold ret at 1.
  assert (Hlen : length (current_variants s rid) = length (variant_rows s false rid)).
  { unfold current_variants, load_variants. apply length_map. }
  destruct (Nat.eqb (length (current_variants s rid)) (length variantOrder)) eqn:El;
    [|reflexivity].
  apply Nat.eqb_eq in El. simpl negb. cbv iota.
  destruct Hbad as [Hbad|[vId [HvId Hunknown]]]; [exfalso; apply Hbad; congruence|].
  destruct (RentalService.map_order (current_variants s rid) variantOrder) as [vs|e] eqn:Em.
  - exfalso. destruct (map_order_known _ _ _ vId Em HvId) as [v [Hvin Ev]].
    unfold current_variants, load_variants in Hvin. apply in_map_iff in Hvin.
    destruct Hvin as [row [Erow Hrow]]. subst v. apply (Hunknown row Hrow). exact Ev.
  - rewrite (map_order_throws _ _ _ Em). reflexivity.
Qed.

Lemma X12_witness :
  RentalService.reorderVariants bus_stages false "rental_0" ["variant_2"] two_variant_store
  = (Throw (MedusaError INVALID_DATA), two_variant_store)
  /\ RentalService.reorderVariants bus_stages false "rental_0" ["variant_2"; "variant_7"]
       two_variant_store
     = (Throw (MedusaError INVALID_DATA), two_variant_store).
Proof.
  split.
  - apply (reorderVariants_rejects_other_lists bus_stages false two_variant_store "rental_0"
             tent_row ["variant_2"] (or_introl eq_refl) eq_refl eq_refl).
    left. vm_compute. discriminate.
  - apply (reorderVariants_rejects_other_lists bus_stages false two_variant_store "rental_0"
             tent_row ["variant_2"; "variant_7"] (or_introl eq_refl) eq_refl eq_refl).
    right. exists "variant_7". split; [right; left; reflexivity|].
    intros v Hv. vm_compute in Hv. destruct Hv as [Hv|[Hv|[]]]; subst v; discriminate.
Defined.

Lemma save_rental_row_same : forall s r,
  NoDup (map r_id (rentals s)) -> In r (rentals s) ->
  RentalService.save_rental_row r s = (Ok tt, s).
Proof.
  intros s r Hnd Hin. unfold RentalService.save_rental_row, modify.
  f_equal. destruct s as [rows ? ? ? ? ? ? ? ? ? ? ? ?]. unfold set_rentals.
  simpl in *. f_equal.
  rewrite <- (map_id rows) at 2. apply map_ext_in. intros x Hx.
  destruct (String.eqb (r_id x) (r_id r)) eqn:E; [|reflexivity].
  apply String.eqb_eq in E. symmetry.
  apply (NoDup_map_In_inj _ _ r_id rows); assumption.
Qed.

Lemma save_variant_same : forall s row,
  NoDup (map v_id (rental_variants s)) -> In row (rental_variants s) ->
  RentalVariantService.save_variant row s = (Ok tt, s).
Proof.
  intros s row Hnd Hin. unfold RentalVariantService.save_variant, bind, get.
  replace (existsb (fun v => String.eqb (v_id v) (v_id row)) (rental_variants s)) with true.
  2:{ symmetry. apply existsb_exists. exists row. split; [exact Hin|].
      apply String.eqb_refl. }
  unfold modify. f_equal. destruct s as [? ? rows ? ? ? ? ? ? ? ? ? ?].
  unfold set_rental_variants. simpl in *. f_equal.
  rewrite <- (map_id rows) at 2. apply map_ext_in. intros x Hx.
  destruct (String.eqb (v_id x) (v_id row)) eqn:E; [|reflexivity].
  apply String.eqb_eq in E. symmetry.
  apply (NoDup_map_In_inj _ _ v_id rows); assumption.
Qed.

Lemma save_variants_same : forall s (vs : list RentalVariant),
  NoDup (map v_id (rental_variants s)) ->
  (forall v, In v vs -> In (ve_row v) (rental_variants s)) ->
  forM_ vs (fun v => RentalVariantService.save_variant (ve_row v)) s = (Ok tt, s).
Proof.
  intros s vs Hnd. induction vs as [|v vs IH]; intros Hall; [reflexivity|].
  cbn [forM_]. unfold bind.
  rewrite (save_variant_same s (ve_row v) Hnd (Hall v (or_introl eq_refl))).
  apply IH. intros x Hx. apply Hall. right. exact Hx.
Qed.

Lemma Forall2_find_ids : forall (variants : list RentalVariant) variantOrder vs,
  Forall2 (fun vId v => find (fun v => String.eqb (ve_id v) vId) variants = Some v)
          variantOrder vs ->
  map ve_id vs = variantOrder /\ forall v, In v vs -> In v variants.
Proof.
  intros variants variantOrder vs H. induction H as [|vId v order vs' Hf HF IH].
  - split; [reflexivity | intros v []].
  - destruct IH as [IH1 IH2]. apply find_some in Hf. destruct Hf as [Hv Ev].
    apply String.eqb_eq in Ev. split.
    + simpl. rewrite Ev, IH1. reflexivity.
    + intros x [Hx|Hx]; [subst x; exact Hv | apply IH2; exact Hx].
Qed.

(** X13. [reorderVariants] with a duplicate-free list of the rental's variant
    ids, for a rental none of whose variants is soft-deleted, stores no
    order.  The save it starts writes no row, and the call
    ends as the event bus does, which is handed the pending promise of that
    save: when the bus returns, the call returns the rental with its variants
    in the order of the list, whatever the bus wrote being the only change;
    when the bus throws, the call throws the same, and with a transaction of
    its own leaves the database as it was. *)
Theorem reorderVariants_stores_no_order :
  forall (emitPromise : M unit) (tx : bool) (s : Store) (rid : string) (r : RentalRow)
         (variantOrder : list string),
    NoDup (map r_id (rentals s)) ->
    NoDup (map v_id (rental_variants s)) ->
    In r (rentals s) -> r_id r = rid -> r_deleted r = false ->
    (forall v, In v (rental_variants s) -> v_rental_id v = rid -> v_deleted v = false) ->
    NoDup variantOrder ->
    length variantOrder = length (variant_rows s false rid) ->
    (forall vId, In vId variantOrder ->
                 exists v, In v (variant_rows s false rid) /\ v_id v = vId) ->
    exists rental,
      e_row rental = r /\
      option_map (map ve_id) (e_variants rental) = Some variantOrder /\
      RentalService.reorderVariants emitPromise tx rid variantOrder s
      = match emitPromise s with
        | (Ok _, s') => (Ok rental, s')
        | (Throw e, s') => (Throw e, if tx then s' else s)
        end.
Proof.
  intros bus tx s rid r variantOrder Hndr Hndv Hin Hid Hdel _ Hndo Hlen Hknown.
  pose proof (one_live_row s rid r Hndr Hin Hid Hdel) as Hf.
  destruct (retrieve_one_live_row s rid ["variants"] [] r) as [rental [Hret [Erow Erels]]];
    [discriminate | exact Hf |].
  assert (Hv : e_variants rental = Some (current_variants s rid)).
  { assert (H0 : snd (fst (rels_of rental)) = Some (current_variants s rid)).
    { rewrite Erels, <- Hid. reflexivity. }
    exact H0. }
  assert (Hids : forall vId, In vId variantOrder ->
                   exists v, In v (current_variants s rid) /\ ve_id v = vId).
  { intros vId HvId. destruct (Hknown vId HvId) as [row [Hrow Erow']].
    exists (mkRentalVariant row None None). split; [|exact Erow'].
    unfold current_variants, load_variants. apply in_map_iff. exists row.
    split; [reflexivity | exact Hrow]. }
  destruct (map_order_ok (current_variants s rid) variantOrder Hids) as [vs [Hmo HF]].
  destruct (Forall2_find_ids _ _ _ HF) as [Hvsids Hvsin].
  assert (Hchecks : RentalService.reorder_checks rid variantOrder s = (Ok (rental, vs), s)).
  { unfold RentalService.reorder_checks.
    rewrite (bind_ok _ _ _ _ _ _ _ Hret). rewrite Hv.
    unfold bind at 1. unfold ret at 1.
    replace (Nat.eqb (length (current_variants s rid)) (length variantOrder)) with true.
    2:{ symmetry. apply Nat.eqb_eq. rewrite Hlen. unfold current_variants, load_variants.
        apply length_map. }
    change (negb true) with false. cbv iota. rewrite Hmo. reflexivity. }
  assert (Hall : forallb (fun v => mem_string (v_id v) (map ve_id vs))
                         (variant_rows s false (r_id (e_row rental))) = true).
  { rewrite Erow, Hid, Hvsids. apply forallb_forall. intros v Hvrow.
    unfold mem_string. apply existsb_exists. exists (v_id v).
    split; [|apply String.eqb_refl].
    apply (@NoDup_length_incl _ variantOrder (map v_id (variant_rows s false rid)) Hndo).
    - rewrite length_map, Hlen. apply le_n.
    - intros x Hx. destruct (Hknown x Hx) as [w [Hw Ew]]. subst x.
      apply in_map. exact Hw.
    - apply in_map. exact Hvrow. }
  assert (Hsave : RentalService.save_with_variants (e_row rental) vs s = (Ok tt, s)).
  { unfold RentalService.save_with_variants. unfold bind at 1. unfold get at 1.
    rewrite Hall. rewrite Erow.
    rewrite (bind_ok _ _ _ _ _ _ _ (save_rental_row_same s r Hndr Hin)).
    apply (save_variants_same s vs Hndv).
    intros v Hvin. apply Hvsin in Hvin. unfold current_variants, load_variants in Hvin.
    apply in_map_iff in Hvin. destruct Hvin as [row [E Hrow]]. subst v.
    simpl. unfold variant_rows in Hrow. apply filter_In in Hrow. apply Hrow. }
  exists (mkRental r (e_select rental) (e_options rental) (Some vs) (e_links rental)).
  split; [reflexivity|]. split; [simpl; rewrite Hvsids; reflexivity|].
  unfold RentalService.reorderVariants.
  destruct tx; unfold atomicPhase_, transaction;
    rewrite (bind_ok _ _ _ _ _ _ _ Hchecks); cbn [fst snd];
    unfold bind at 1; unfold started;
    rewrite (bind_ok _ _ _ _ _ _ _ Hsave); unfold ret at 1;
    unfold bind, settled; rewrite Erow;
    destruct (bus s) as [[[]|e] s1]; reflexivity.
Qed.

Lemma X13_witness :
  exists rental,
    e_row rental = tent_row /\
    option_map (map ve_id) (e_variants rental) = Some ["variant_5"; "variant_2"] /\
    RentalService.reorderVariants bus_stages false "rental_0" ["variant_5"; "variant_2"]
      two_variant_store
    = (Ok rental,
       set_events (fun evs => evs ++ [mkEvent RentalService.UPDATED "" []])
         two_variant_store) /\
    RentalService.reorderVariants bus_refuses false "rental_0" ["variant_5"; "variant_2"]
      two_variant_store
    = (Throw QueryFailedError, two_variant_store).
Proof.
  assert (Hrows : forall vId, In vId ["variant_5"; "variant_2"] ->
            exists v, In v (variant_rows two_variant_store false "rental_0") /\ v_id v = vId).
  { intros vId [H|[H|[]]]; subst vId.
    - exists (mkRentalVariantRow "variant_5" (Some "Medium") "rental_0" None
                (Some 1%Z) (Some 0%Z) [] false).
      split; [right; left; reflexivity | reflexivity].
    - exists small_row. split; [left; reflexivity | reflexivity]. }
  assert (Hndr : NoDup (map r_id (rentals two_variant_store))).
  { vm_compute. repeat constructor; simpl; intuition discriminate. }
  assert (Hndv : NoDup (map v_id (rental_variants two_variant_store))).
  { vm_compute. repeat constructor; simpl; intuition discriminate. }
  assert (Hndo : NoDup ["variant_5"; "variant_2"]).
  { repeat constructor; simpl; intuition discriminate. }
  assert (Hlive : forall v, In v (rental_variants two_variant_store) ->
                            v_rental_id v = "rental_0" -> v_deleted v = false).
  { intros v Hv _. vm_compute in Hv. destruct Hv as [Hv|[Hv|[]]]; subst v; reflexivity. }
  destruct (reorderVariants_stores_no_order bus_stages false two_variant_store "rental_0"
              tent_row ["variant_5"; "variant_2"] Hndr Hndv (or_introl eq_refl)
              eq_refl eq_refl Hlive Hndo eq_refl Hrows)
    as [rental [Erow [Eids Hrun]]].
  destruct (reorderVariants_stores_no_order bus_refuses false two_variant_store "rental_0"
              tent_row ["variant_5"; "variant_2"] Hndr Hndv (or_introl eq_refl)
              eq_refl eq_refl Hlive Hndo eq_refl Hrows)
    as [rental' [_ [_ Hrun']]].
  exists rental. split; [exact Erow|]. split; [exact Eids|]. split.
  - exact Hrun.
  - exact Hrun'.
Defined.

(** ** Creating a rental *)

Lemma create_options_ok : forall (id : string) (titles : list string) (s s' : Store),
  forM_ titles (fun title =>
    oid <- generateEntityId "opt" ;;
    modify (set_rental_options
              (fun t => t ++ [mkRentalOptionRow oid title id false]))) s = (Ok tt, s') ->
  rentals s' = rentals s /\ events s' = events s /\
  exists rows,
    rental_options s' = rental_options s ++ rows /\
    map o_title rows = titles /\
    Forall (fun o => o_rental_id o = id /\ o_deleted o = false) rows.
Proof.
  intros id titles. induction titles as [|title titles IH]; intros s s' H.
  - simpl in H. unfold ret in H. inversion H; subst.
    repeat split. exists []. rewrite app_nil_r. repeat split. constructor.
  - cbn [forM_] in H. bind_inv H u s1 Hbody. apply IH in H.
    destruct H as [E1 [E2 [rows [E3 [E4 E5]]]]].
    bind_inv Hbody oid s2 Hgen. unfold generateEntityId in Hgen.
    inversion Hgen; subst oid s2; clear Hgen.
    unfold modify in Hbody. inversion Hbody; subst s1; clear Hbody.
    simpl in E1, E2, E3.
    split; [exact E1|]. split; [exact E2|].
    eexists (_ :: rows). split; [|split].
    + rewrite E3, <- app_assoc. reflexivity.
    + simpl. rewrite E4. reflexivity.
    + constructor; [split; reflexivity | exact E5].
Qed.

(** X14. Whenever [RentalService.create] returns a rental (the generated id being
    unused), the rental carries that id and its row is stored with the given
    title; a gift card is stored as not discountable whatever the input
    says; without a thumbnail the first image becomes the thumbnail; the
    options returned carry the given titles in their order; and one
    [rental.created] event for the rental is emitted. *)
Theorem rental_create_result :
  forall (tx : bool) (s s' : Store) (rentalObject : CreateRentalInput) (rental : Rental),
    (forall r, In r (rentals s) -> r_id r <> next_generated "rental" s) ->
    (forall o, In o (rental_options s) -> o_rental_id o <> next_generated "rental" s) ->
    RentalService.create tx rentalObject s = (Ok rental, s') ->
    e_id rental = next_generated "rental" s /\
    In (e_row rental) (rentals s') /\
    r_title (e_row rental) = cr_title rentalObject /\
    (cr_is_giftcard rentalObject = Some true ->
     r_is_giftcard (e_row rental) = true /\ r_discountable (e_row rental) = false) /\
    (truthy_string (cr_thumbnail rentalObject) = false ->
     forall image rest,
       cr_images rentalObject = Some (image :: rest) ->
       r_thumbnail (e_row rental) = Some image) /\
    option_map (map o_title) (e_options rental)
    = Some (RentalService.or_nil (cr_options rentalObject)) /\
    events s' = events s ++ [mkEvent RentalService.CREATED (e_id rental) []].
Proof.
  intros tx s s' obj rental Hfresh Hfresh' H.
  unfold RentalService.create in H. apply atomicPhase_ok_inv in H.
  bind_inv H s0 sa Hget. unfold get in Hget. inversion Hget; subst s0 sa; clear Hget.
  destruct (cr_profile_id obj) as [profile_id|]; [|discriminate].
  bind_inv H newid sa Hgen.
  assert (Egen : newid = next_generated "rental" s /\ sa = set_next_id S s).
  { unfold generateEntityId in Hgen. inversion Hgen. split; reflexivity. }
  destruct Egen as [Enew Esa]. subst newid sa. clear Hgen.
  set (rid := next_generated "rental" s) in *.
  match type of H with
  | context [mkRentalRow ?a ?b ?c ?d ?e ?f ?g ?h ?i ?j] =>
      set (row := mkRentalRow a b c d e f g h i j) in *
  end.
  bind_inv H u1 s1 H1. unfold modify in H1. inversion H1; subst u1 s1; clear H1.
  bind_inv H u2 s2 H2. bind_inv H u3 s3 H3. bind_inv H u4 s4 H4.
  bind_inv H u5 s5 H5. bind_inv H res6 s6 Hret. bind_inv H u7 s7 Hemit.
  unfold ret in H. inversion H; subst rental s'; clear H.
  unfold emit, modify in Hemit. inversion Hemit; subst u7 s7; clear Hemit.
  (* the writes to the join tables *)
  assert (E2 : rentals s2 = rentals s ++ [row] /\ rental_options s2 = rental_options s
               /\ events s2 = events s).
  { destruct (RentalService.non_empty (cr_images obj));
      [unfold modify in H2 | unfold ret in H2]; inversion H2; subst; repeat split. }
  assert (E3 : rentals s3 = rentals s2 /\ rental_options s3 = rental_options s2
               /\ events s3 = events s2).
  { destruct (RentalService.non_empty (cr_tags obj));
      [unfold modify in H3 | unfold ret in H3]; inversion H3; subst; repeat split. }
  assert (E4 : rentals s4 = rentals s3 /\ rental_options s4 = rental_options s3
               /\ events s4 = events s3).
  { destruct (sales_channels_enabled s); [destruct (cr_sales_channels obj)|];
      [unfold modify in H4 | unfold ret in H4 | unfold ret in H4];
      inversion H4; subst; repeat split. }
  destruct u5. apply create_options_ok in H5.
  destruct H5 as [E5r [E5e [rows [E5o [Etitles Hrows]]]]].
  destruct E2 as [A2 [B2 C2]]. destruct E3 as [A3 [B3 C3]]. destruct E4 as [A4 [B4 C4]].
  assert (Hrentals : rentals s5 = rentals s ++ [row]) by congruence.
  assert (Hoptions : rental_options s5 = rental_options s ++ rows) by congruence.
  assert (Hevents : events s5 = events s) by congruence.
  (* the rental is read back *)
  assert (Hf : filter (fun r0 => String.eqb rid (r_id r0) && negb (r_deleted r0))
                      (rentals s5) = [row]).
  { rewrite Hrentals, filter_app. rewrite filter_none.
    - simpl. rewrite String.eqb_refl. reflexivity.
    - intros x Hx. apply andb_false_iff. left. apply String.eqb_neq.
      intros E. apply (Hfresh x Hx). symmetry. exact E. }
  destruct (retrieve_one_live_row s5 rid ["options"] [] row) as [found [Hfound [Erow Erels]]];
    [discriminate | exact Hf |].
  rewrite Hfound in Hret. inversion Hret; subst res6 s6; clear Hret.
  assert (Eopts : e_options found = Some rows).
  { assert (H0 : fst (fst (rels_of found)) = Some (load_options s5 false rid)).
    { rewrite Erels. reflexivity. }
    change (fst (fst (rels_of found))) with (e_options found) in H0. rewrite H0.
    f_equal. unfold load_options. rewrite Hoptions, filter_app.
    rewrite filter_none.
    - simpl. apply forallb_filter_id. apply forallb_forall. intros o Ho.
      rewrite Forall_forall in Hrows. destruct (Hrows o Ho) as [Ha Hb].
      rewrite Ha, Hb, String.eqb_refl. reflexivity.
    - intros x Hx. apply andb_false_iff. left. apply String.eqb_neq.
      apply Hfresh'. exact Hx. }
  unfold e_id. rewrite Erow.
  split; [reflexivity|].
  split. { cbn [rentals set_events]. rewrite Hrentals. apply in_or_app. right. left.
           reflexivity. }
  split; [reflexivity|].
  split. { intros Hg. unfold row. simpl. rewrite Hg. split; reflexivity. }
  split. { intros Ht image rest Himg. unfold row. simpl. rewrite Ht, Himg. reflexivity. }
  split. { rewrite Eopts. simpl. rewrite Etitles. reflexivity. }
  cbn [events set_events]. rewrite Hevents. reflexivity.
Qed.

Lemma X14_witness :
  exists rental s',
    RentalService.create false gift_card_input empty_store = (Ok rental, s') /\
    e_id rental = "rental_0" /\
    r_discountable (e_row rental) = false /\
    r_thumbnail (e_row rental) = Some "front.png" /\
    option_map (map o_title) (e_options rental) = Some ["Amount"].
Proof.
  destruct (RentalService.create false gift_card_input empty_store)
    as [[rental|e] s'] eqn:E; [|vm_compute in E; discriminate E].
  destruct (rental_create_result false empty_store s' gift_card_input rental)
    as [Hid [_ [_ [Hgift [Hthumb [Hopts _]]]]]].
  - intros r [].
  - intros o [].
  - exact E.
  - exists rental, s'. split; [reflexivity|]. split; [exact Hid|].
    split; [apply (Hgift eq_refl)|]. split; [|exact Hopts].
    apply (Hthumb eq_refl "front.png" ["back.png"]). reflexivity.
Defined.

(** ** Collections *)

Lemma find_only_value : forall (A : Type) (p : A -> bool) (l : list A) (y : A),
  (exists x, In x l /\ p x = true) ->
  (forall x, In x l -> p x = true -> x = y) ->
  find p l = Some y.
Proof.
  intros A p l y [x [Hx Hp]] Hall.
  destruct (find p l) as [z|] eqn:F.
  - apply find_some in F. destruct F as [Hz Hpz]. f_equal. apply Hall; assumption.
  - apply (find_none _ _ F) in Hx. congruence.
Qed.

Lemma collection_retrieve_some : forall s cid c s',
  RentalCollectionService.retrieve cid s = (Ok c, s') ->
  s' = s /\ In c (rental_collections s) /\ c_id c = cid /\ c_deleted c = false.
Proof.
  intros s cid c s' H. unfold RentalCollectionService.retrieve, bind, get in H.
  destruct (find _ (rental_collections s)) as [x|] eqn:F; [|discriminate].
  unfold ret in H. inversion H; subst. apply find_some in F. destruct F as [Hin F].
  apply andb_true_iff in F. destruct F as [F1 F2].
  apply String.eqb_eq in F1. apply negb_true_iff in F2. auto.
Qed.

Lemma collection_retrieve_missing : forall s cid,
  (forall c, In c (rental_collections s) -> c_id c = cid -> c_deleted c = true) ->
  RentalCollectionService.retrieve cid s = (Throw (MedusaError NOT_FOUND), s).
Proof.
  intros s cid H. unfold RentalCollectionService.retrieve, bind, get.
  rewrite find_all_false; [reflexivity|].
  intros x Hx. destruct (String.eqb (c_id x) cid) eqn:E; [|reflexivity].
  apply String.eqb_eq in E. rewrite (H x Hx E). reflexivity.
Qed.

(** X15. [RentalCollectionService]: [update] of an id no live collection has
    fails with NotFound, changing nothing.  For a collection [retrieve]
    returns, [update] returns the collection with the given title (the old
    one when none is given), a later [retrieve] returns the same collection,
    and [delete] succeeds, after which [retrieve] fails with NotFound;
    neither touches a rental row. *)
Theorem collection_update_and_delete_round_trips :
  forall (tx : bool) (s : Store) (cid : string)
         (update : RentalCollectionService.UpdateRentalCollection),
    ((forall c, In c (rental_collections s) -> c_id c = cid -> c_deleted c = true) ->
     RentalCollectionService.update tx cid update s
     = (Throw (MedusaError NOT_FOUND), s))
    /\
    (forall c,
       RentalCollectionService.retrieve cid s = (Ok c, s) ->
       (exists saved s',
          RentalCollectionService.update tx cid update s = (Ok saved, s') /\
          c_id saved = cid /\
          c_title saved = match RentalCollectionService.uc_title update with
                          | Some t => t
                          | None => c_title c
                          end /\
          RentalCollectionService.retrieve cid s' = (Ok saved, s') /\
          rentals s' = rentals s)
       /\
       (exists s',
          RentalCollectionService.delete tx cid s = (Ok tt, s') /\
          RentalCollectionService.retrieve cid s'
          = (Throw (MedusaError NOT_FOUND), s') /\
          rentals s' = rentals s)).
Proof.
  intros tx s cid update. split.
  - intros Hgone. unfold RentalCollectionService.update.
    apply atomicPhase_throw_unchanged.
    erewrite bind_throw; [reflexivity|]. apply collection_retrieve_missing. exact Hgone.
  - intros c Hret. destruct (collection_retrieve_some _ _ _ _ Hret) as [_ [Hin [Hid Hdel]]].
    split.
    + eexists. eexists. split.
      { unfold RentalCollectionService.update. apply atomicPhase_ok.
        rewrite (bind_ok _ _ _ _ _ _ _ Hret). unfold bind, modify, ret. reflexivity. }
      split; [exact Hid|]. split; [reflexivity|]. split; [|reflexivity].
      unfold RentalCollectionService.retrieve, bind, get.
      cbn [rental_collections set_rental_collections c_id].
      match goal with
      | |- context [find ?p (map ?f (rental_collections s))] =>
          rewrite (find_only_value _ p (map f (rental_collections s))
                     (mkRentalCollectionRow (c_id c)
                        match RentalCollectionService.uc_title update with
                        | Some t => t
                        | None => c_title c
                        end (c_deleted c)))
      end.
      * rewrite Hid. reflexivity.
      * eexists. split.
        -- apply in_map_iff. exists c. split; [reflexivity | exact Hin].
        -- rewrite String.eqb_refl. simpl. rewrite Hid, String.eqb_refl, Hdel.
           reflexivity.
      * intros x Hx Hp. apply in_map_iff in Hx. destruct Hx as [y [Ey Hy]]. subst x.
        destruct (String.eqb (c_id y) (c_id c)) eqn:E; [reflexivity|].
        exfalso. apply andb_true_iff in Hp. destruct Hp as [Hp _].
        apply String.eqb_eq in Hp. rewrite Hid in E. apply String.eqb_neq in E.
        contradiction.
    + eexists. split.
      { unfold RentalCollectionService.delete. apply atomicPhase_ok.
        rewrite (bind_ok _ _ _ _ _ _ _ Hret). unfold modify. reflexivity. }
      split; [|reflexivity].
      apply collection_retrieve_missing. intros x Hx Hxid.
      cbn [rental_collections set_rental_collections] in Hx.
      apply in_map_iff in Hx. destruct Hx as [y [Ey Hy]]. subst x.
      destruct (String.eqb (c_id y) (c_id c)) eqn:E; [reflexivity|].
      exfalso. apply String.eqb_neq in E. apply E. congruence.
Qed.

Lemma X15_witness :
  RentalCollectionService.update false "pcol_none"
    (RentalCollectionService.mkUpdateRentalCollection (Some "Winter")) summer_store
  = (Throw (MedusaError NOT_FOUND), summer_store)
  /\ (exists saved s',
        RentalCollectionService.update false "pcol_9"
          (RentalCollectionService.mkUpdateRentalCollection (Some "Winter"))
          summer_store
        = (Ok saved, s') /\
        c_title saved = "Winter" /\
        RentalCollectionService.retrieve "pcol_9" s' = (Ok saved, s'))
  /\ exists s',
       RentalCollectionService.delete false "pcol_9" summer_store = (Ok tt, s') /\
       RentalCollectionService.retrieve "pcol_9" s'
       = (Throw (MedusaError NOT_FOUND), s').
Proof.
  pose proof (collection_update_and_delete_round_trips false summer_store) as H.
  split; [|split].
  - apply (proj1 (H "pcol_none" _)).
    intros c Hc Hid. vm_compute in Hc. destruct Hc as [Hc|[]]. subst c. discriminate Hid.
  - destruct (proj1 (proj2 (H "pcol_9"
                              (RentalCollectionService.mkUpdateRentalCollection
                                 (Some "Winter")))
                       (mkRentalCollectionRow "pcol_9" "Summer" false) eq_refl))
      as [saved [s' [Hup [_ [Htitle [Hret _]]]]]].
    exists saved, s'. repeat split; assumption.
  - destruct (proj2 (proj2 (H "pcol_9"
                              (RentalCollectionService.mkUpdateRentalCollection None))
                       (mkRentalCollectionRow "pcol_9" "Summer" false) eq_refl))
      as [s' [Hdel [Hret _]]].
    exists s'. split; assumption.
Defined.

(** X16. [addRentals] fails with NotFound, changing nothing, for an id no live
    collection has.  For an existing collection and a non-empty id list it
    returns the collection with its rentals: every listed live rental is
    among them with its [collection_id] set to the collection, rentals that
    are not listed keep their rows, the rentals returned are exactly the
    live rentals of the collection, and no collection row changes. *)
Theorem addRentals_assigns_the_listed_rentals :
  forall (tx : bool) (s : Store) (cid : string) (rentalIds : list string),
    ((forall c, In c (rental_collections s) -> c_id c = cid -> c_deleted c = true) ->
     RentalCollectionService.addRentals tx cid rentalIds s
     = (Throw (MedusaError NOT_FOUND), s))
    /\
    (forall c,
       rentalIds <> [] ->
       RentalCollectionService.retrieve cid s = (Ok c, s) ->
       exists members s',
         RentalCollectionService.addRentals tx cid rentalIds s = (Ok (c, members), s') /\
         (forall r, In r (rentals s) -> In (r_id r) rentalIds -> r_deleted r = false ->
                    In (set_collection_id (Some cid) r) members) /\
         (forall r, In r (rentals s) -> ~ In (r_id r) rentalIds -> In r (rentals s')) /\
         (forall r, In r members <->
                    In r (rentals s') /\ r_collection_id r = Some cid /\
                    r_deleted r = false) /\
         rental_collections s' = rental_collections s).
Proof.
  intros tx s cid rentalIds. split.
  - intros Hgone. unfold RentalCollectionService.addRentals.
    apply atomicPhase_throw_unchanged.
    erewrite bind_throw; [reflexivity|]. apply collection_retrieve_missing. exact Hgone.
  - intros c _ Hret.
    destruct (collection_retrieve_some _ _ _ _ Hret) as [_ [Hin [Hid Hdel]]].
    set (s1 := set_rentals
                 (map (fun r => if mem_string (r_id r) rentalIds
                                then set_collection_id (Some cid) r else r)) s).
    assert (Hret1 : RentalCollectionService.retrieve cid s1 = (Ok c, s1)).
    { unfold RentalCollectionService.retrieve, bind, get in *.
      change (rental_collections s1) with (rental_collections s).
      destruct (find _ (rental_collections s)); [|discriminate].
      unfold ret in *. inversion Hret. reflexivity. }
    exists (RentalCollectionService.load_rentals s1 cid), s1. split.
    { unfold RentalCollectionService.addRentals. apply atomicPhase_ok.
      rewrite (bind_ok _ _ _ _ _ _ _ Hret). rewrite Hid.
      unfold bulkAddToCollection.
      unfold bind at 1. unfold bind at 1. unfold modify at 1. fold s1.
      unfold bind at 1. unfold get at 1. unfold ret at 1.
      rewrite (bind_ok _ _ _ _ _ _ _ Hret1).
      unfold bind, get, ret. reflexivity. }
    split.
    { intros r Hr Hmem Hlive. unfold RentalCollectionService.load_rentals.
      apply filter_In. split.
      - unfold s1. cbn [rentals set_rentals]. apply in_map_iff. exists r.
        split; [|exact Hr].
        replace (mem_string (r_id r) rentalIds) with true
          by (symmetry; apply mem_string_In; exact Hmem).
        reflexivity.
      - simpl. rewrite String.eqb_refl, Hlive. reflexivity. }
    split.
    { intros r Hr Hnot. unfold s1. cbn [rentals set_rentals]. apply in_map_iff.
      exists r. split; [|exact Hr].
      destruct (mem_string (r_id r) rentalIds) eqn:E; [|reflexivity].
      apply mem_string_In in E. contradiction. }
    split; [|reflexivity].
    intros r. unfold RentalCollectionService.load_rentals. rewrite filter_In.
    rewrite andb_true_iff, opt_eqb_eq, negb_true_iff. tauto.
Qed.

Lemma X16_witness :
  RentalCollectionService.addRentals false "pcol_none" ["rental_0"] summer_store
  = (Throw (MedusaError NOT_FOUND), summer_store)
  /\ exists members s',
       RentalCollectionService.addRentals false "pcol_9" ["rental_0"] summer_store
       = (Ok (mkRentalCollectionRow "pcol_9" "Summer" false, members), s') /\
       In (set_collection_id (Some "pcol_9") tent_row) members.
Proof.
  split.
  - apply (proj1 (addRentals_assigns_the_listed_rentals false summer_store "pcol_none"
                    ["rental_0"])).
    intros c Hc Hid. vm_compute in Hc. destruct Hc as [Hc|[]]. subst c. discriminate Hid.
  - destruct (proj2 (addRentals_assigns_the_listed_rentals false summer_store "pcol_9"
                       ["rental_0"])
                (mkRentalCollectionRow "pcol_9" "Summer" false))
      as [members [s' [Hadd [Hin _]]]].
    + discriminate.
    + reflexivity.
    + exists members, s'. split; [exact Hadd|].
      apply Hin; [left; reflexivity | left; reflexivity | reflexivity].
Defined.

(** X17. [removeRentals] for an existing collection and a non-empty id list
    succeeds; afterwards no listed rental is in the collection, a listed
    member has its [collection_id] cleared, and a rental that is not listed
    or is not in this collection keeps its row, so a listed rental of
    another collection stays there. *)
Theorem removeRentals_detaches_only_members :
  forall (tx : bool) (s : Store) (cid : string) (rentalIds : list string)
         (c : RentalCollectionRow),
    rentalIds <> [] ->
    RentalCollectionService.retrieve cid s = (Ok c, s) ->
    exists s',
      RentalCollectionService.removeRentals tx cid rentalIds s = (Ok tt, s') /\
      (forall r, In r (rentals s') -> In (r_id r) rentalIds ->
                 r_collection_id r <> Some cid) /\
      (forall r, In r (rentals s) -> r_collection_id r <> Some cid -> In r (rentals s')) /\
      (forall r, In r (rentals s) -> ~ In (r_id r) rentalIds -> In r (rentals s')) /\
      (forall r, In r (rentals s) -> In (r_id r) rentalIds ->
                 r_collection_id r = Some cid ->
                 In (set_collection_id None r) (rentals s')).
Proof.
  intros tx s cid rentalIds c _ Hret.
  destruct (collection_retrieve_some _ _ _ _ Hret) as [_ [Hin [Hid Hdel]]].
  eexists. split.
  { unfold RentalCollectionService.removeRentals. apply atomicPhase_ok.
    rewrite (bind_ok _ _ _ _ _ _ _ Hret). rewrite Hid.
    unfold bulkRemoveFromCollection, bind, modify, get, ret. reflexivity. }
  cbn [rentals set_rentals].
  split.
  { intros r Hr Hmem Hc. apply in_map_iff in Hr. destruct Hr as [x [Ex Hx]]. subst r.
    destruct (mem_string (r_id x) rentalIds && opt_eqb (r_collection_id x) (Some cid))
      eqn:E.
    - simpl in Hc. discriminate.
    - apply andb_false_iff in E. destruct E as [E|E].
      + apply mem_string_In in Hmem. congruence.
      + rewrite <- Hc, opt_eqb_refl in E. discriminate. }
  split.
  { intros r Hr Hc. apply in_map_iff. exists r. split; [|exact Hr].
    destruct (opt_eqb (r_collection_id r) (Some cid)) eqn:E.
    - apply opt_eqb_eq in E. contradiction.
    - rewrite andb_false_r. reflexivity. }
  split.
  { intros r Hr Hnot. apply in_map_iff. exists r. split; [|exact Hr].
    destruct (mem_string (r_id r) rentalIds) eqn:E; [|reflexivity].
    apply mem_string_In in E. contradiction. }
  intros r Hr Hmem Hc. apply in_map_iff. exists r. split; [|exact Hr].
  replace (mem_string (r_id r) rentalIds) with true
    by (symmetry; apply mem_string_In; exact Hmem).
  rewrite Hc, opt_eqb_refl. reflexivity.
Qed.

Lemma X17_witness :
  exists s',
    RentalCollectionService.removeRentals false "pcol_9" ["rental_0"; "rental_5"]
      summer_tent_store
    = (Ok tt, s') /\
    In tent_row (rentals s').
Proof.
  destruct (removeRentals_detaches_only_members false summer_tent_store "pcol_9"
              ["rental_0"; "rental_5"]
              (mkRentalCollectionRow "pcol_9" "Summer" false))
    as [s' [Hrun [_ [_ [_ Hdetached]]]]].
  - discriminate.
  - reflexivity.
  - exists s'. split; [exact Hrun|].
    apply (Hdetached (set_collection_id (Some "pcol_9") tent_row)).
    + left. reflexivity.
    + left. reflexivity.
    + reflexivity.
Defined.

(** ** Types and tags *)

(** X18. [RentalTypeRepository.upsertType] returns [null] for no type and
    touches nothing.  For a type it returns a live row with the type's value
    that a lookup by value then finds; it inserts one row when no live row
    has the value and writes nothing otherwise, so a second call returns the
    same row and writes nothing; lookups of other values are unaffected. *)
Theorem upsertType_is_idempotent :
  forall (value : string) (t : RentalTypeRepository.Table),
    RentalTypeRepository.upsertType None t = (None, t)
    /\
    exists row t1,
      RentalTypeRepository.upsertType (Some value) t = (Some row, t1) /\
      ty_value row = value /\ ty_deleted row = false /\
      RentalTypeRepository.findOne_value t1 value = Some row /\
      RentalTypeRepository.upsertType (Some value) t1 = (Some row, t1) /\
      (RentalTypeRepository.findOne_value t value <> None -> t1 = t) /\
      (RentalTypeRepository.findOne_value t value = None ->
       RentalTypeRepository.rows t1 = RentalTypeRepository.rows t ++ [row]) /\
      (forall other,
         other <> value ->
         RentalTypeRepository.findOne_value t1 other
         = RentalTypeRepository.findOne_value t other).
Proof.
  intros value t. split; [reflexivity|].
  unfold RentalTypeRepository.upsertType.
  destruct (RentalTypeRepository.findOne_value t value) as [existing|] eqn:F.
  - exists existing, t.
    pose proof F as F'. unfold RentalTypeRepository.findOne_value in F'.
    apply find_some in F'. destruct F' as [_ F'].
    apply andb_true_iff in F'. destruct F' as [F1 F2].
    apply String.eqb_eq in F1. apply negb_true_iff in F2.
    rewrite F. repeat split; try assumption; try reflexivity. congruence.
  - eexists. eexists. split; [reflexivity|].
    assert (Hfound : RentalTypeRepository.findOne_value
                       (RentalTypeRepository.mkTable
                          (RentalTypeRepository.rows t
                           ++ [mkRentalTypeRow
                                 ("ptyp_" ++ string_of_nat (RentalTypeRepository.next t))
                                 value false])
                          (S (RentalTypeRepository.next t))) value
                     = Some (mkRentalTypeRow
                               ("ptyp_" ++ string_of_nat (RentalTypeRepository.next t))
                               value false)).
    { unfold RentalTypeRepository.findOne_value in *. simpl.
      rewrite find_app_first, F. simpl. rewrite String.eqb_refl. reflexivity. }
    split; [reflexivity|]. split; [reflexivity|]. split; [exact Hfound|].
    split; [rewrite Hfound; reflexivity|].
    split; [congruence|]. split; [reflexivity|].
    intros other Hne. unfold RentalTypeRepository.findOne_value. simpl.
    rewrite find_app_first.
    destruct (find _ (RentalTypeRepository.rows t)); [reflexivity|].
    simpl. replace (String.eqb value other) with false; [reflexivity|].
    symmetry. apply String.eqb_neq. congruence.
Qed.

Lemma X18_witness :
  exists row t1,
    RentalTypeRepository.upsertType (Some "shelter") (RentalTypeRepository.mkTable [] 0)
    = (Some row, t1) /\
    RentalTypeRepository.rows t1 = [row] /\
    RentalTypeRepository.upsertType (Some "shelter") t1 = (Some row, t1).
Proof.
  destruct (proj2 (upsertType_is_idempotent "shelter"
                     (RentalTypeRepository.mkTable [] 0)))
    as [row [t1 [Hrun [_ [_ [_ [Hagain [_ [Hrows _]]]]]]]]].
  exists row, t1. split; [exact Hrun|]. split; [|exact Hagain].
  apply Hrows. reflexivity.
Defined.

Section UpsertTagsProperties.

Variable Table : Type.
Variable rows : Table -> list RentalTagRow.
Variable save : UpsertTagInput -> Table -> RentalTagRow * Table.

Lemma upsert_loop_saves :
  forall (existingTags : list RentalTagRow) (tags : list UpsertTagInput) (t : Table),
    snd (RentalTagRepository.upsert_loop save existingTags tags t)
    = fold_left (fun t tag => snd (save tag t))
        (filter (fun tag =>
                   match RentalTagRepository.existing_get existingTags (ti_value tag) with
                   | Some _ => false
                   | None => true
                   end) tags)
        t.
Proof.
  intros existingTags tags. induction tags as [|tag tags IH]; intros t; [reflexivity|].
  cbn [RentalTagRepository.upsert_loop filter].
  destruct (RentalTagRepository.existing_get existingTags (ti_value tag)).
  - specialize (IH t).
    destruct (RentalTagRepository.upsert_loop save existingTags tags t).
    exact IH.
  - destruct (save tag t) as [savedTag t1] eqn:Es.
    specialize (IH t1).
    destruct (RentalTagRepository.upsert_loop save existingTags tags t1).
    simpl. rewrite Es. exact IH.
Qed.

Lemma upsert_loop_values :
  forall (existingTags : list RentalTagRow) (tags : list UpsertTagInput) (t : Table),
    (forall tag t, tg_value (fst (save tag t)) = ti_value tag) ->
    map tg_value (fst (RentalTagRepository.upsert_loop save existingTags tags t))
    = map ti_value tags.
Proof.
  intros existingTags tags t Hsave. revert t.
  induction tags as [|tag tags IH]; intros t; [reflexivity|].
  cbn [RentalTagRepository.upsert_loop].
  destruct (RentalTagRepository.existing_get existingTags (ti_value tag)) as [aTag|] eqn:E.
  - specialize (IH t).
    destruct (RentalTagRepository.upsert_loop save existingTags tags t).
    simpl in *. rewrite IH. f_equal.
    unfold RentalTagRepository.existing_get in E. apply find_some in E.
    destruct E as [_ E]. apply String.eqb_eq. exact E.
  - pose proof (Hsave tag t) as Hs.
    destruct (save tag t) as [savedTag t1] eqn:Es.
    specialize (IH t1).
    destruct (RentalTagRepository.upsert_loop save existingTags tags t1).
    simpl in *. rewrite IH, Hs. reflexivity.
Qed.

Lemma existing_get_none : forall (t : Table) (values : list string) (value : string),
  In value values ->
  (RentalTagRepository.existing_get
     (RentalTagRepository.find_values rows t values) value = None
   <-> forall r, In r (rows t) -> tg_deleted r = false -> tg_value r <> value).
Proof.
  intros t values value Hin. unfold RentalTagRepository.existing_get.
  split.
  - intros H r Hr Hlive E.
    assert (Hr' : In r (rev (RentalTagRepository.find_values rows t values))).
    { apply -> in_rev. unfold RentalTagRepository.find_values. apply filter_In.
      split; [exact Hr|]. rewrite E, Hlive.
      replace (mem_string value values) with true
        by (symmetry; apply mem_string_In; exact Hin).
      reflexivity. }
    apply (find_none _ _ H) in Hr'. rewrite E, String.eqb_refl in Hr'. discriminate.
  - intros H. apply find_all_false. intros x Hx. apply in_rev in Hx.
    unfold RentalTagRepository.find_values in Hx. apply filter_In in Hx.
    destruct Hx as [Hx Hp]. apply andb_true_iff in Hp. destruct Hp as [_ Hp].
    apply negb_true_iff in Hp. apply String.eqb_neq. apply H; assumption.
Qed.

End UpsertTagsProperties.

(** X19. [RentalTagRepository.upsertTags] for a non-empty list of tags, [save]
    storing the value it is given: the tags returned carry the values of the
    input, in its order; the table after the call is the one obtained by
    saving, in order, every input tag whose value no live row had before the
    call, so a new value that occurs twice in the input is saved twice; and
    when every value has a live row nothing is written and every tag
    returned is a live row of the table. *)
Theorem upsertTags_reads_the_existing_tags_once :
  forall (Table : Type) (rows : Table -> list RentalTagRow)
         (save : UpsertTagInput -> Table -> RentalTagRow * Table)
         (tags : list UpsertTagInput) (t : Table),
    tags <> [] ->
    (forall tag t, tg_value (fst (save tag t)) = ti_value tag) ->
    map tg_value (fst (RentalTagRepository.upsertTags rows save tags t))
    = map ti_value tags
    /\ snd (RentalTagRepository.upsertTags rows save tags t)
       = fold_left (fun t tag => snd (save tag t))
           (filter (fun tag =>
                      negb (existsb (fun r => String.eqb (tg_value r) (ti_value tag)
                                              && negb (tg_deleted r))
                                    (rows t)))
                   tags)
           t
    /\ ((forall tag, In tag tags ->
           exists r, In r (rows t) /\ tg_deleted r = false /\ tg_value r = ti_value tag) ->
        snd (RentalTagRepository.upsertTags rows save tags t) = t /\
        forall r, In r (fst (RentalTagRepository.upsertTags rows save tags t)) ->
                  In r (rows t) /\ tg_deleted r = false).
Proof.
  intros Table rows save tags t _ Hsave. unfold RentalTagRepository.upsertTags.
  assert (Hfilter :
    filter (fun tag =>
              match RentalTagRepository.existing_get
                      (RentalTagRepository.find_values rows t (map ti_value tags))
                      (ti_value tag) with
              | Some _ => false
              | None => true
              end) tags
    = filter (fun tag =>
                negb (existsb (fun r => String.eqb (tg_value r) (ti_value tag)
                                        && negb (tg_deleted r))
                              (rows t)))
             tags).
  { apply filter_ext_in. intros tag Htag.
    assert (Hv : In (ti_value tag) (map ti_value tags)) by (apply in_map; exact Htag).
    pose proof (existing_get_none Table rows t _ _ Hv) as Hiff.
    destruct (RentalTagRepository.existing_get _ (ti_value tag)) as [aTag|] eqn:E.
    - symmetry. apply negb_false_iff.
      destruct (existsb _ (rows t)) eqn:Ex; [reflexivity|].
      exfalso. assert (Hnone : @None RentalTagRow = None) by reflexivity.
      assert (Hall : forall r, In r (rows t) -> tg_deleted r = false ->
                               tg_value r <> ti_value tag).
      { intros r Hr Hlive Ev.
        assert (Hex : existsb (fun r => String.eqb (tg_value r) (ti_value tag)
                                        && negb (tg_deleted r)) (rows t) = true).
        { apply existsb_exists. exists r. split; [exact Hr|].
          rewrite Ev, String.eqb_refl, Hlive. reflexivity. }
        congruence. }
      apply Hiff in Hall. discriminate.
    - symmetry. apply negb_true_iff.
      destruct (existsb _ (rows t)) eqn:Ex; [|reflexivity].
      exfalso. apply existsb_exists in Ex. destruct Ex as [r [Hr Hp]].
      apply andb_true_iff in Hp. destruct Hp as [Hp1 Hp2].
      apply String.eqb_eq in Hp1. apply negb_true_iff in Hp2.
      destruct Hiff as [Hiff _]. exact (Hiff eq_refl r Hr Hp2 Hp1). }
  split; [apply upsert_loop_values; exact Hsave|].
  split; [rewrite upsert_loop_saves, Hfilter; reflexivity|].
  intros Hall.
  assert (Hnil : filter (fun tag =>
                           negb (existsb (fun r => String.eqb (tg_value r) (ti_value tag)
                                                   && negb (tg_deleted r))
                                         (rows t)))
                        tags = []).
  { apply filter_none. intros tag Htag. apply negb_false_iff. apply existsb_exists.
    destruct (Hall tag Htag) as [r [Hr [Hlive Ev]]]. exists r. split; [exact Hr|].
    rewrite Ev, String.eqb_refl, Hlive. reflexivity. }
  split.
  - rewrite upsert_loop_saves, Hfilter, Hnil. reflexivity.
  - set (existing := RentalTagRepository.find_values rows t (map ti_value tags)).
    assert (Hloop : forall l t0,
              (forall tag, In tag l ->
                 RentalTagRepository.existing_get existing (ti_value tag) <> None) ->
              forall r, In r (fst (RentalTagRepository.upsert_loop save existing l t0)) ->
                        In r existing).
    { induction l as [|tag l IH]; intros t0 Hl r Hr; [destruct Hr|].
      cbn [RentalTagRepository.upsert_loop] in Hr.
      destruct (RentalTagRepository.existing_get existing (ti_value tag)) as [aTag|] eqn:E.
      - specialize (IH t0).
        destruct (RentalTagRepository.upsert_loop save existing l t0).
        simpl in Hr. destruct Hr as [Hr|Hr].
        + subst r. unfold RentalTagRepository.existing_get in E. apply find_some in E.
          destruct E as [E _]. apply in_rev in E. exact E.
        + apply IH; [|exact Hr]. intros tag' Htag'. apply Hl. right. exact Htag'.
      - exfalso. apply (Hl tag (or_introl eq_refl)). exact E. }
    intros r Hr. apply Hloop in Hr.
    + unfold existing, RentalTagRepository.find_values in Hr. apply filter_In in Hr.
      destruct Hr as [Hr Hp]. apply andb_true_iff in Hp. destruct Hp as [_ Hp].
      apply negb_true_iff in Hp. split; assumption.
    + intros tag Htag E.
      assert (Hv : In (ti_value tag) (map ti_value tags)) by (apply in_map; exact Htag).
      destruct (Hall tag Htag) as [r0 [Hr0 [Hlive Ev]]].
      destruct (existing_get_none Table rows t _ _ Hv) as [Hnone _].
      exact (Hnone E r0 Hr0 Hlive Ev).
Qed.

Lemma X19_witness :
  map tg_value
    (fst (RentalTagRepository.upsertTags RentalTagRepository.tag_rows
            RentalTagRepository.insert_tag
            [mkUpsertTagInput None "outdoor"; mkUpsertTagInput None "outdoor"]
            (RentalTagRepository.mkTagTable [] 0)))
  = ["outdoor"; "outdoor"]
  /\ map tg_id
       (RentalTagRepository.tag_rows
          (snd (RentalTagRepository.upsertTags RentalTagRepository.tag_rows
                  RentalTagRepository.insert_tag
                  [mkUpsertTagInput None "outdoor"; mkUpsertTagInput None "outdoor"]
                  (RentalTagRepository.mkTagTable [] 0))))
     = ["ptag_0"; "ptag_1"].
Proof.
  destruct (upsertTags_reads_the_existing_tags_once RentalTagRepository.TagTable
              RentalTagRepository.tag_rows RentalTagRepository.insert_tag
              [mkUpsertTagInput None "outdoor"; mkUpsertTagInput None "outdoor"]
              (RentalTagRepository.mkTagTable [] 0))
    as [Hvalues [Htable _]].
  - discriminate.
  - intros tag t. reflexivity.
  - split; [exact Hvalues|]. rewrite Htable. reflexivity.
Defined.

(** ** The delete route *)

Lemma rental_delete_ok : forall tx s rid,
  exists s',
    RentalService.delete tx rid s = (Ok tt, s') /\
    forall x, In x (rentals s') -> r_id x = rid -> r_deleted x = true.
Proof.
  intros tx s rid. unfold RentalService.delete.
  destruct (findOne_rental s rid ["variants"; "variants.prices"; "variants.options"])
    as [rental|] eqn:F.
  - destruct (softRemove_all (RentalService.or_nil (e_variants rental))
                (set_rentals
                   (map (fun r => if String.eqb (r_id r) (e_id rental)
                                  then RentalService.soft_remove_rental r else r)) s))
      as [s1 [E [E1 _]]].
    eexists. split.
    + apply atomicPhase_ok. unfold bind at 1. unfold get at 1. rewrite F.
      unfold bind at 1. unfold modify at 1. unfold bind at 1. rewrite E.
      unfold emit, modify. reflexivity.
    + intros x Hx Hxid. cbn [rentals set_events] in Hx. rewrite E1 in Hx.
      cbn [rentals set_rentals] in Hx. apply in_map_iff in Hx.
      destruct Hx as [y [Ey Hy]]. subst x.
      apply findOne_rental_some in F. destruct F as [_ [Hid _]].
      destruct (String.eqb (r_id y) (e_id rental)) eqn:Eid; [reflexivity|].
      exfalso. apply String.eqb_neq in Eid. apply Eid. congruence.
  - exists s. split.
    + apply atomicPhase_ok. unfold bind, get. rewrite F. reflexivity.
    + intros x Hx Hxid. unfold findOne_rental in F.
      destruct (find _ (rentals s)) as [r|] eqn:F0; [discriminate|].
      apply (find_none _ _ F0) in Hx. rewrite Hxid, String.eqb_refl in Hx.
      simpl in Hx. apply negb_false_iff in Hx. exact Hx.
Qed.

(** X20. The admin delete-rental route answers [{ id, object: "rental",
    deleted: true }] for every id: for an id no live rental has nothing is
    changed and the answer is the same; in either case [retrieve] of the id
    fails with NotFound afterwards. *)
Theorem delete_route_answers_deleted_for_every_id :
  forall (s : Store) (id : string),
    exists s',
      AdminDeleteRental.handler id s
      = (Ok (AdminDeleteRental.mkRes id "rental" true), s') /\
      ((forall r, In r (rentals s) -> r_id r = id -> r_deleted r = true) -> s' = s) /\
      (forall relations sel,
         RentalService.retrieve id relations sel s'
         = (Throw (MedusaError NOT_FOUND), s')).
Proof.
  intros s id. destruct (rental_delete_ok true s id) as [s1 [E Hgone1]].
  exists s1. split; [|split].
  - unfold AdminDeleteRental.handler, bind, transaction. rewrite E. reflexivity.
  - intros Hgone.
    assert (F : findOne_rental s id ["variants"; "variants.prices"; "variants.options"]
                = None).
    { unfold findOne_rental. rewrite find_all_false; [reflexivity|].
      intros x Hx. destruct (String.eqb (r_id x) id) eqn:Ex; [|reflexivity].
      apply String.eqb_eq in Ex. rewrite (Hgone x Hx Ex). reflexivity. }
    rewrite (rental_delete_missing true s id F) in E. inversion E. reflexivity.
  - intros relations sel. apply retrieve_missing. exact Hgone1.
Qed.

Lemma X20_witness :
  fst (AdminDeleteRental.handler "rental_none" tent_store)
  = Ok (AdminDeleteRental.mkRes "rental_none" "rental" true)
  /\ snd (AdminDeleteRental.handler "rental_none" tent_store) = tent_store.
Proof.
  destruct (delete_route_answers_deleted_for_every_id tent_store "rental_none")
    as [s' [Hrun [Hsame _]]].
  rewrite Hrun. split; [reflexivity|]. apply Hsame.
  intros r Hin Hid. vm_compute in Hin. destruct Hin as [Hin|[]]. subst r.
  discriminate Hid.
Defined.

(** ** Sales channels and variants of a rental *)

Lemma In_load_links : forall s relation rid target,
  In target (load_links s relation rid)
  <-> In (mkLinkRow relation rid target) (links s).
Proof.
  intros s relation rid target. unfold load_links. rewrite in_map_iff. split.
  - intros [l [E Hl]]. apply filter_In in Hl. destruct Hl as [Hl Hp].
    apply andb_true_iff in Hp. destruct Hp as [H1 H2].
    apply String.eqb_eq in H1. apply String.eqb_eq in H2.
    destruct l as [rel rid' tgt]. simpl in *. subst. exact Hl.
  - intros H. exists (mkLinkRow relation rid target). split; [reflexivity|].
    apply filter_In. split; [exact H|]. simpl. rewrite !String.eqb_refl. reflexivity.
Qed.

(** X21. [RentalService.isRentalInSalesChannels] fails with NotFound for an id
    no live rental has.  For a live rental, with the sales-channel feature
    on, it changes nothing and answers [true] exactly when one of the given
    channel ids is a sales channel of the rental; for an empty list of
    channel ids the answer is [false]. *)
Theorem isRentalInSalesChannels_reads_the_links :
  forall (s : Store) (rid : string) (salesChannelIds : list string),
    ((forall r, In r (rentals s) -> r_id r = rid -> r_deleted r = true) ->
     RentalService.isRentalInSalesChannels rid salesChannelIds s
     = (Throw (MedusaError NOT_FOUND), s))
    /\
    (forall r,
       sales_channels_enabled s = true ->
       NoDup (map r_id (rentals s)) ->
       In r (rentals s) -> r_id r = rid -> r_deleted r = false ->
       exists b,
         RentalService.isRentalInSalesChannels rid salesChannelIds s = (Ok b, s) /\
         (b = true <->
          exists channel,
            In channel salesChannelIds /\
            In (mkLinkRow "sales_channels" rid channel) (links s))).
Proof.
  intros s rid salesChannelIds. split.
  - intros Hgone. unfold RentalService.isRentalInSalesChannels.
    erewrite bind_throw; [reflexivity|]. apply retrieve_missing. exact Hgone.
  - intros r Hflag Hnd Hin Hid Hdel.
    pose proof (one_live_row s rid r Hnd Hin Hid Hdel) as Hf.
    destruct (retrieve_one_live_row s rid ["sales_channels"] [] r)
      as [rental [Hret [Erow Erels]]]; [discriminate | exact Hf |].
    assert (Hl : e_links rental
                 = [("sales_channels", load_links s "sales_channels" rid)]).
    { change (e_links rental) with (snd (rels_of rental)).
      rewrite Erels, <- Hid. reflexivity. }
    eexists. split.
    { unfold RentalService.isRentalInSalesChannels.
      rewrite (bind_ok _ _ _ _ _ _ _ Hret). rewrite Hl. reflexivity. }
    rewrite existsb_exists. split.
    + intros [c [Hc Hm]]. exists c. split; [apply mem_string_In; exact Hm|].
      apply In_load_links. exact Hc.
    + intros [c [Hc Hl']]. exists c. split; [apply In_load_links; exact Hl'|].
      apply mem_string_In. exact Hc.
Qed.

Lemma X21_witness :
  RentalService.isRentalInSalesChannels "rental_0" ["sc_pos"; "sc_web"] channel_store
  = (Ok true, channel_store)
  /\ RentalService.isRentalInSalesChannels "rental_5" ["sc_pos"; "sc_web"] channel_store
     = (Ok false, channel_store)
  /\ RentalService.isRentalInSalesChannels "rental_none" ["sc_web"] channel_store
     = (Throw (MedusaError NOT_FOUND), channel_store).
Proof.
  assert (Hnd : NoDup (map r_id (rentals channel_store))).
  { vm_compute. repeat constructor; simpl; intuition discriminate. }
  split; [|split].
  - destruct (proj2 (isRentalInSalesChannels_reads_the_links channel_store "rental_0"
                       ["sc_pos"; "sc_web"])
                tent_row eq_refl Hnd (or_introl eq_refl) eq_refl eq_refl)
      as [b [Hrun Hb]].
    rewrite Hrun. f_equal. f_equal. apply Hb. exists "sc_web".
    split; [right; left; reflexivity | left; reflexivity].
  - destruct (proj2 (isRentalInSalesChannels_reads_the_links channel_store "rental_5"
                       ["sc_pos"; "sc_web"])
                (mkRentalRow "rental_5" "Tarp" (Some "A tarp for the tent") None false
                   true "sp_default" None None false)
                eq_refl Hnd (or_intror (or_introl eq_refl)) eq_refl eq_refl)
      as [b [Hrun Hb]].
    rewrite Hrun. f_equal. f_equal. destruct b; [|reflexivity].
    destruct (proj1 Hb eq_refl) as [channel [_ Hlink]].
    vm_compute in Hlink. destruct Hlink as [Hlink|[]]. discriminate Hlink.
  - apply (proj1 (isRentalInSalesChannels_reads_the_links channel_store "rental_none"
                    ["sc_web"])).
    intros r Hin Hid. vm_compute in Hin.
    destruct Hin as [Hin|[Hin|[]]]; subst r; discriminate Hid.
Defined.

Lemma last_some_exists : forall (A : Type) (l : list (option A)),
  (exists x, In (Some x) l) -> exists y, last_some l = Some y /\ In (Some y) l.
Proof.
  intros A l. induction l as [|a l IH] using rev_ind; intros [x Hx]; [destruct Hx|].
  rewrite last_some_app. unfold last_some at 2. simpl.
  destruct a as [y|].
  - exists y. split; [reflexivity|]. apply in_or_app. right. left. reflexivity.
  - simpl. apply in_app_or in Hx. destruct Hx as [Hx|[Hx|[]]]; [|discriminate].
    destruct (IH (ex_intro _ x Hx)) as [y [E Hy]]. exists y.
    unfold merge_opt. split; [exact E|]. apply in_or_app. left. exact Hy.
Qed.

Lemma In_dedup_aux_complete : forall l seen x,
  In x l -> mem_string x seen = false -> In x (dedup_aux seen l).
Proof.
  induction l as [|y l IH]; intros seen x Hx Hs; [destruct Hx|].
  simpl. destruct (mem_string y seen) eqn:Ey.
  - destruct Hx as [Hx|Hx]; [subst y; congruence | apply IH; assumption].
  - destruct (String.eqb y x) eqn:Eyx.
    + apply String.eqb_eq in Eyx. left. exact Eyx.
    + destruct Hx as [Hx|Hx];
        [subst y; rewrite String.eqb_refl in Eyx; discriminate|].
      right. apply IH; [exact Hx|].
      unfold mem_string in *. simpl. rewrite String.eqb_sym, Eyx. exact Hs.
Qed.

Lemma In_dedup_complete : forall l x, In x l -> In x (dedup l).
Proof. intros l x H. apply In_dedup_aux_complete; [exact H | reflexivity]. Qed.

Lemma ve_row_load_variants : forall s wd rels rid,
  map ve_row (load_variants s wd rels rid) = variant_rows s false rid.
Proof.
  intros. unfold load_variants. rewrite map_map. apply map_id.
Qed.

(** X22. [RentalService.retrieveVariants] fails with NotFound for an id no live
    rental has.  For a live rental it returns, whatever relations of the
    rental entity and whatever [select] the config gives, the rental's live
    variants in the order of the variant table, and changes nothing. *)
Theorem retrieveVariants_lists_the_live_variants :
  forall (s : Store) (rid : string) (givenRelations sel : list string),
    ((forall r, In r (rentals s) -> r_id r = rid -> r_deleted r = true) ->
     RentalService.retrieveVariants rid givenRelations sel s
     = (Throw (MedusaError NOT_FOUND), s))
    /\
    (forall r,
       incl givenRelations AdminPostRentals.defaultAdminRentalRelations ->
       In r (rentals s) -> r_id r = rid -> r_deleted r = false ->
       exists variants,
         RentalService.retrieveVariants rid givenRelations sel s
         = (Ok (Some variants), s) /\
         map ve_id variants = map v_id (variant_rows s false rid) /\
         forall v, In v variants ->
           v_rental_id (ve_row v) = rid /\ v_deleted (ve_row v) = false).
Proof.
  intros s rid givenRelations sel. split.
  - intros Hgone. unfold RentalService.retrieveVariants.
    erewrite bind_throw; [reflexivity|]. apply retrieve_missing. exact Hgone.
  - intros r _ Hin Hid Hdel.
    set (relations := dedup (givenRelations ++ ["variants"])).
    assert (Hmem : In "variants" relations).
    { apply In_dedup_complete. apply in_or_app. right. left. reflexivity. }
    destruct (retrieve_with_relations s rid relations sel r) as [rental [Hret [Eid [Hv _]]]];
      try assumption.
    { intros E. rewrite E in Hmem. destruct Hmem. }
    assert (Hsome : exists vs, e_variants rental = Some vs /\
                      exists rels, vs = load_variants s false rels rid).
    { rewrite Hv. unfold group_variants.
      destruct (last_some_exists _
                  (map (fun g => if String.eqb (fst g) "variants"
                                 then Some (load_variants s false (filter has_rest (snd g)) rid)
                                 else None)
                       (getGroupedRelations relations))) as [vs [E Hvs]].
      - assert (Hkey : In "variants" (map fst (getGroupedRelations relations))).
        { rewrite keys_getGroupedRelations. apply In_dedup_complete.
          change "variants" with (topLevel "variants"). apply in_map. exact Hmem. }
        apply in_map_iff in Hkey. destruct Hkey as [g [Eg Hg]].
        eexists. apply in_map_iff. exists g. split; [|exact Hg].
        rewrite Eg. reflexivity.
      - exists vs. split; [exact E|]. apply in_map_iff in Hvs.
        destruct Hvs as [g [Eg _]].
        destruct (String.eqb (fst g) "variants"); [|discriminate].
        inversion Eg. eexists. reflexivity. }
    destruct Hsome as [vs [Evs [rels Erels]]].
    exists vs. split.
    { unfold RentalService.retrieveVariants. fold relations.
      rewrite (bind_ok _ _ _ _ _ _ _ Hret). rewrite Evs. reflexivity. }
    subst vs. split; [apply ve_id_load_variants|].
    intros v Hvin. apply (in_map ve_row) in Hvin. rewrite ve_row_load_variants in Hvin.
    unfold variant_rows in Hvin. apply filter_In in Hvin. destruct Hvin as [_ Hp].
    apply andb_true_iff in Hp. destruct Hp as [H1 H2].
    apply String.eqb_eq in H1. simpl in H2. apply negb_true_iff in H2.
    split; assumption.
Qed.

Lemma X22_witness :
  RentalService.retrieveVariants "rental_none" [] [] two_variant_store
  = (Throw (MedusaError NOT_FOUND), two_variant_store)
  /\ exists variants,
       RentalService.retrieveVariants "rental_0" ["variants.options"] []
         two_variant_store
       = (Ok (Some variants), two_variant_store) /\
       map ve_id variants = ["variant_2"; "variant_5"].
Proof.
  split.
  - apply (proj1 (retrieveVariants_lists_the_live_variants two_variant_store
                    "rental_none" [] [])).
    intros r Hin Hid. vm_compute in Hin. destruct Hin as [Hin|[]]. subst r.
    discriminate Hid.
  - destruct (proj2 (retrieveVariants_lists_the_live_variants two_variant_store
                       "rental_0" ["variants.options"] [])
                tent_row ltac:(intros x Hx; simpl in Hx |- *; tauto)
                (or_introl eq_refl) eq_refl eq_refl)
      as [variants [Hrun [Hids _]]].
    exists variants. split; [exact Hrun | exact Hids].
Defined.

(** ** The list queries: pages, counts and soft-deleted rows *)







Lemma queryRentals_found_where : forall s o count e,
  (forall l, incl (order o l) l) ->
  In e (fst (queryRentals s o count)) ->
  exists r, In r (rentals s) /\ r_id r = e_id e /\
            visible (withDeleted o) (r_deleted r) = true /\
            where_columns (where_ o) r = true.
Proof.
  intros s o count e Hord H. unfold queryRentals in H. simpl fst in H.
  apply in_map_iff in H. destruct H as [r [E Hr]]. subst e.
  apply incl_paginate in Hr. apply Hord in Hr. apply filter_In in Hr.
  destruct Hr as [Hin Hp]. apply andb_true_iff in Hp. destruct Hp as [Hp Hvis].
  apply andb_true_iff in Hp. destruct Hp as [Hw _].
  exists r. repeat split; assumption.
Qed.

Lemma merge_each_rows : forall s ids0 G wd sel ids,
  carries sel "id" = true ->
  NoDup (map r_id (rentals s)) ->
  G <> [] ->
  (forall id, In id ids ->
     exists r, In r (rentals s) /\ r_id r = id /\
               visible wd (r_deleted r) = true /\ In id ids0) ->
  exists l,
    merge_each (groupBy_id (queryRentalsWithIds s ids0 G wd sel)) ids = Ok l /\
    map e_id l = ids /\
    forall e, In e l ->
      exists r, In r (rentals s) /\ e_row e = r /\
                visible wd (r_deleted r) = true /\ rels_of e = hydrate s wd G r.
Proof.
  intros s ids0 G wd sel ids Hsel Hnd HG. induction ids as [|id ids IH]; intros Hrows.
  - exists []. repeat split. intros e [].
  - destruct IH as [l [El [Eids Hl]]].
    { intros x Hx. apply Hrows. right. exact Hx. }
    destruct (Hrows id (or_introl eq_refl)) as [r [Hin [Hid [Hvis Hmem]]]].
    subst id.
    pose proof (filter_id_queryRentalsWithIds s ids0 G wd sel r Hnd Hin Hvis Hmem) as Hf.
    simpl merge_each.
    rewrite (lookup_groupBy _ _ (queryRentalsWithIds_keys s ids0 G wd sel Hsel)), Hf.
    destruct G as [|g G]; [congruence|]. simpl map. rewrite El.
    eexists. split; [reflexivity|]. split.
    + simpl. rewrite Eids. f_equal. apply e_id_merge.
      * apply e_id_join_group.
      * apply Forall_forall. intros e He. apply in_map_iff in He.
        destruct He as [g' [E _]]. subst e. apply e_id_join_group.
    + intros e [He|He]; [|apply Hl; exact He]. subst e.
      exists r. split; [exact Hin|]. split; [|split; [exact Hvis|]].
      * apply e_row_merge; [apply e_row_join_group|].
        apply Forall_forall. intros e He. apply in_map_iff in He.
        destruct He as [g' [E _]]. subst e. apply e_row_join_group.
      * apply (rels_of_merged_members s wd sel (g :: G) r []).
        -- rewrite app_nil_r. reflexivity.
        -- constructor.
Qed.

Lemma findWithRelationsAndCount_rows : forall s relations o,
  carries (select o) "id" = true ->
  NoDup (map r_id (rentals s)) ->
  (forall l, incl (order o l) l) ->
  exists l count,
    findWithRelationsAndCount s relations o = Ok (l, count) /\
    forall e, In e l ->
      exists r, In r (rentals s) /\ e_row e = r /\
                visible (withDeleted o) (r_deleted r) = true /\
                where_columns (where_ o) r = true /\
                rels_of e = hydrate s (withDeleted o) (getGroupedRelations relations) r.
Proof.
  intros s relations o Hsel Hnd Hord.
  pose proof (queryRentals_found_where s o true) as Hfound.
  unfold findWithRelationsAndCount.
  destruct (queryRentals s o true) as [entities count] eqn:Eq.
  simpl fst in Hfound.
  destruct (map e_id entities) as [|i0 ids0] eqn:Hids.
  - exists [], count. split; [reflexivity | intros e []].
  - rewrite <- Hids. destruct relations as [|rel relations].
    + eexists. eexists. split; [reflexivity|].
      intros e He. unfold findByIds in He. apply in_map_iff in He.
      destruct He as [r [E Hr]]. subst e.
      apply incl_paginate in Hr. cbn [order set_where] in Hr. apply Hord in Hr.
      apply filter_In in Hr. destruct Hr as [Hin Hp].
      apply andb_true_iff in Hp. destruct Hp as [Hp Hvis].
      apply andb_true_iff in Hp. destruct Hp as [Hmem _].
      apply mem_string_In in Hmem. apply in_map_iff in Hmem.
      destruct Hmem as [e [Eid He]].
      destruct (Hfound e Hord He) as [r' [Hin' [Hr' [Hvis' Hw']]]].
      assert (r' = r).
      { apply (NoDup_map_In_inj _ _ r_id (rentals s)); try assumption. congruence. }
      subst r'. exists r. repeat split; assumption.
    + set (G := getGroupedRelations (rel :: relations)).
      destruct (merge_each_rows s (map e_id entities) G
                  (withDeleted (set_where (delete_joins (where_ o)) o))
                  (select (set_where (delete_joins (where_ o)) o))
                  (map e_id entities) Hsel Hnd) as [l [El [Eids Hl]]].
      * apply getGroupedRelations_nonempty. discriminate.
      * intros id Hid. pose proof Hid as Hid'. apply in_map_iff in Hid.
        destruct Hid as [e [E He]]. subst id.
        destruct (Hfound e Hord He) as [r [Hin [Hr [Hvis _]]]].
        exists r. repeat split; assumption.
      * rewrite El. exists l, count. split; [reflexivity|].
        intros e He. destruct (Hl e He) as [r [Hin [Erow [Hvis Erels]]]].
        exists r. repeat split; try assumption.
        assert (Hid : In (e_id e) (map e_id l)) by (apply in_map; exact He).
        rewrite Eids in Hid. apply in_map_iff in Hid. destruct Hid as [e0 [Eid0 He0]].
        destruct (Hfound e0 Hord He0) as [r' [Hin' [Hr' [_ Hw']]]].
        assert (r' = r).
        { apply (NoDup_map_In_inj _ _ r_id (rentals s)); try assumption.
          rewrite Hr', Eid0. unfold e_id. rewrite Erow. reflexivity. }
        subst r'. exact Hw'.
Qed.




(** ** Rentals of a sales channel *)

Lemma lookup_put_link : forall k k' v l,
  lookup k (put_link k' v l) = if String.eqb k' k then Some v else lookup k l.
Proof.
  intros k k' v l. induction l as [|[k0 v0] l IH]; simpl.
  - reflexivity.
  - destruct (String.eqb k0 k') eqn:E0; simpl.
    + apply String.eqb_eq in E0. subst k0.
      destruct (String.eqb k' k); reflexivity.
    + destruct (String.eqb k0 k) eqn:E1.
      * apply String.eqb_eq in E1. subst k0. rewrite String.eqb_sym, E0. reflexivity.
      * exact IH.
Qed.

Lemma lookup_merge_links : forall k b a v,
  lookup k (merge_links a b) = Some v ->
  lookup k a = Some v \/ In (k, v) b.
Proof.
  intros k b. unfold merge_links.
  induction b as [|[k' v'] b IH]; intros a v H; simpl in H.
  - left. exact H.
  - apply IH in H. destruct H as [H|H]; [|right; right; exact H].
    rewrite lookup_put_link in H. simpl in H.
    destruct (String.eqb k' k) eqn:E.
    + apply String.eqb_eq in E. subst k'. inversion H; subst. right. left. reflexivity.
    + left. exact H.
Qed.

Lemma lookup_fold_merge_rels : forall k l a v,
  lookup k (snd (fold_left merge_rels l a)) = Some v ->
  lookup k (snd a) = Some v \/ exists x, In x l /\ In (k, v) (snd x).
Proof.
  intros k l. induction l as [|x l IH]; intros a v H; simpl in H.
  - left. exact H.
  - apply IH in H. destruct H as [H|[y [Hy H]]].
    + simpl in H. apply lookup_merge_links in H. destruct H as [H|H].
      * left. exact H.
      * right. exists x. split; [left; reflexivity | exact H].
    + right. exists y. split; [right; exact Hy | exact H].
Qed.

(** A join-table relation a hydrated rental carries lists the rental's
    rows of that join table. *)
Lemma hydrate_links : forall s wd G r v,
  lookup "sales_channels" (snd (hydrate s wd G r)) = Some v ->
  v = load_links s "sales_channels" (r_id r).
Proof.
  intros s wd G r v H. unfold hydrate in H. apply lookup_fold_merge_rels in H.
  destruct H as [H|[x [Hx H]]]; [discriminate|].
  apply in_map_iff in Hx. destruct Hx as [g [E _]]. subst x.
  unfold rels_of, join_group in H. simpl snd in H.
  destruct (String.eqb (fst g) "variants"); [destruct H|].
  destruct (String.eqb (fst g) "options"); [destruct H|].
  destruct (String.eqb (fst g) "type") eqn:Et.
  { apply String.eqb_eq in Et. destruct H as [H|[]]. rewrite Et in H. discriminate. }
  destruct (String.eqb (fst g) "collection") eqn:Ec.
  { apply String.eqb_eq in Ec. destruct H as [H|[]]. rewrite Ec in H. discriminate. }
  destruct H as [H|[]]. inversion H as [[Hk Hv]]. rewrite Hk. reflexivity.
Qed.

Lemma defined_rentals_map_Some : forall l, RentalService.defined_rentals (map Some l) = Ok l.
Proof.
  induction l as [|x l IH]; simpl; [reflexivity|]. rewrite IH. reflexivity.
Qed.

Lemma lookup_map_some : forall (A B : Type) (key : A -> string) (f : A -> B)
                               (l : list A) (k : string) (v : B),
  lookup k (map (fun x => (key x, f x)) l) = Some v ->
  exists x, In x l /\ key x = k /\ f x = v.
Proof.
  intros A B key f l k v. induction l as [|x l IH]; simpl; intros H; [discriminate|].
  destruct (String.eqb (key x) k) eqn:E.
  - apply String.eqb_eq in E. inversion H; subst. exists x. auto.
  - destruct (IH H) as [y [Hy Hk]]. exists y. split; [right; exact Hy | exact Hk].
Qed.

(** X25. [RentalService.filterRentalsBySalesChannel] (sales-channel feature on,
    ids distinct, a non-empty id list, relations of the rental, and a
    selection of columns, if the config names any, that includes the id)
    returns rentals only: each is a live rental whose id is among the given
    ids and which is linked to the given sales channel. *)
Theorem filterRentalsBySalesChannel_returns_rentals_of_the_channel :
  forall (s : Store) (rentalIds : list string) (salesChannelId : string)
         (config : FindWithoutRelationsOptions) (givenRelations : list string),
    sales_channels_enabled s = true ->
    incl givenRelations AdminPostRentals.defaultAdminRentalRelations ->
    rentalIds <> [] ->
    incl (select config) AdminPostRentals.defaultAdminRentalFields ->
    select config = [] \/ In "id" (select config) ->
    NoDup (map r_id (rentals s)) ->
    (forall l, incl (order config l) l) ->
    exists found,
      RentalService.filterRentalsBySalesChannel s rentalIds salesChannelId config
        givenRelations = Ok found /\
      forall e, In e found ->
        In (e_row e) (rentals s) /\
        r_deleted (e_row e) = false /\
        In (e_id e) rentalIds /\
        In (mkLinkRow "sales_channels" (e_id e) salesChannelId) (links s).
Proof.
  intros s rentalIds salesChannelId config givenRelations _ _ _ _ Hsel Hnd Hord.
  unfold RentalService.filterRentalsBySalesChannel, RentalService.listAndCount.
  cbn [truthy_string].
  match goal with
  | |- context [findWithRelationsAndCount s ?rels ?o] =>
      destruct (findWithRelationsAndCount_rows s rels o (carries_id _ Hsel) Hnd Hord)
        as [l [count [El Hl]]]
  end.
  rewrite El. rewrite defined_rentals_map_Some.
  eexists. split; [reflexivity|].
  intros e He. apply filter_In in He. destruct He as [He Hp].
  destruct (Hl e He) as [r [Hin [Erow [Hvis [Hw Erels]]]]].
  cbn [withDeleted where_] in Hvis, Hw, Erels.
  split; [rewrite Erow; exact Hin|].
  split; [rewrite Erow; simpl in Hvis; apply negb_true_iff; exact Hvis|].
  split.
  { unfold where_columns in Hw. cbn [w_id opt_test] in Hw.
    apply andb_true_iff in Hw. destruct Hw as [Hw _].
    apply andb_true_iff in Hw. destruct Hw as [Hw _].
    apply andb_true_iff in Hw. destruct Hw as [Hw _].
    apply mem_string_In in Hw. unfold e_id. rewrite Erow. exact Hw. }
  match type of Hp with
  | match lookup ?k ?m with _ => _ end = true =>
      destruct (lookup k m) as [[channels|]|] eqn:Elk; try discriminate
  end.
  apply lookup_map_some in Elk. destruct Elk as [e' [He' [Eid' Elinks]]].
  apply in_rev in He'.
  destruct (Hl e' He') as [r' [Hin' [Erow' [_ [_ Erels']]]]].
  cbn [withDeleted] in Erels'.
  assert (Hsame : r' = r).
  { apply (NoDup_map_In_inj _ _ r_id (rentals s)); try assumption.
    unfold e_id in Eid'. rewrite Erow, Erow' in Eid'. exact Eid'. }
  rewrite Hsame in Erels'.
  change (e_links e') with (snd (rels_of e')) in Elinks. rewrite Erels' in Elinks.
  apply hydrate_links in Elinks. subst channels.
  apply existsb_exists in Hp. destruct Hp as [c [Hc E]].
  apply String.eqb_eq in E. subst c. apply In_load_links in Hc.
  unfold e_id. rewrite Erow. exact Hc.
Qed.

Lemma X25_witness :
  exists found,
    RentalService.filterRentalsBySalesChannel channel_store ["rental_0"; "rental_5"]
      "sc_web" (plain_options false) []
    = Ok found /\
    map e_id found = ["rental_0"].
Proof.
  destruct (filterRentalsBySalesChannel_returns_rentals_of_the_channel channel_store
              ["rental_0"; "rental_5"] "sc_web" (plain_options false) [])
    as [found [Hrun _]].
  - reflexivity.
  - intros x [].
  - discriminate.
  - intros x [].
  - left. reflexivity.
  - vm_compute. repeat constructor; simpl; intuition discriminate.
  - intros l x Hx. exact Hx.
  - exists found. split; [exact Hrun|].
    vm_compute in Hrun. inversion Hrun. reflexivity.
Defined.

(** ** Option values: add and delete *)

Lemma map_fresh_id_same : forall (f : RentalOptionValueRow -> RentalOptionValueRow)
                                 (id : string) (t : list RentalOptionValueRow),
  (forall ov, In ov t -> ov_id ov <> id) ->
  map (fun x => if String.eqb (ov_id x) id then f x else x) t = t.
Proof.
  intros f id t H. induction t as [|a t IH]; [reflexivity|].
  simpl. rewrite IH by (intros ov Hov; apply H; right; exact Hov).
  destruct (String.eqb (ov_id a) id) eqn:E; [|reflexivity].
  apply String.eqb_eq in E. exfalso. apply (H a (or_introl eq_refl)). exact E.
Qed.

(** X26. [addOptionValue] followed by [deleteOptionValue]: for an existing
    variant and option, an unused generated id and a variant that holds no
    live value for the option, [addOptionValue] returns a row with the given
    value that the lookup of the pair finds and that is appended to the
    variant's values; [deleteOptionValue] then removes it again, so the
    variant's live values are those before the two calls, and a second
    [deleteOptionValue] is a no-op. *)
Theorem addOptionValue_then_deleteOptionValue :
  forall (tx : bool) (s : Store) (variantId optionId optionValue : string),
    (exists v, In v (rental_variants s) /\ v_id v = variantId) ->
    (exists o, In o (rental_options s) /\ o_id o = optionId) ->
    (forall ov, In ov (rental_option_values s) ->
                ov_id ov <> next_generated "optval" s) ->
    findOne_option_value s variantId (Some optionId) = None ->
    exists row s1 s2,
      RentalVariantService.addOptionValue tx variantId optionId optionValue s
      = (Ok row, s1) /\
      ov_value row = optionValue /\
      findOne_option_value s1 variantId (Some optionId) = Some row /\
      load_option_values s1 false variantId
      = load_option_values s false variantId ++ [row] /\
      RentalVariantService.deleteOptionValue tx variantId optionId s1 = (Ok tt, s2) /\
      findOne_option_value s2 variantId (Some optionId) = None /\
      load_option_values s2 false variantId = load_option_values s false variantId /\
      RentalVariantService.deleteOptionValue tx variantId optionId s2 = (Ok tt, s2).
Proof.
  intros tx s variantId optionId optionValue Hvariant Hoption Hfresh Hnone.
  set (row := mkRentalOptionValueRow (next_generated "optval" s) optionValue optionId
                variantId false).
  set (s1 := set_rental_option_values (fun t => t ++ [row]) (set_next_id S s)).
  set (s2 := set_rental_option_values
               (map (fun x => if String.eqb (ov_id x) (ov_id row)
                              then RentalVariantService.soft_remove_value x else x))
               s1).
  assert (Hfind1 : findOne_option_value s1 variantId (Some optionId) = Some row).
  { unfold findOne_option_value in *. unfold s1. cbn [rental_option_values
      set_rental_option_values set_next_id]. rewrite find_app_first, Hnone.
    simpl. rewrite !String.eqb_refl. reflexivity. }
  assert (Hrows2 : rental_option_values s2
                   = rental_option_values s
                     ++ [RentalVariantService.soft_remove_value row]).
  { unfold s2, s1. cbn [rental_option_values set_rental_option_values set_next_id].
    rewrite map_app. rewrite (map_fresh_id_same _ _ _ Hfresh).
    simpl. rewrite String.eqb_refl. reflexivity. }
  assert (Hfind2 : findOne_option_value s2 variantId (Some optionId) = None).
  { unfold findOne_option_value in *. rewrite Hrows2, find_app_first, Hnone.
    simpl. rewrite !String.eqb_refl. reflexivity. }
  exists row, s1, s2. split.
  { apply addOptionValue_known; assumption. }
  split; [reflexivity|]. split; [exact Hfind1|]. split.
  { unfold load_option_values, s1.
    cbn [rental_option_values set_rental_option_values set_next_id].
    rewrite filter_app. simpl. rewrite String.eqb_refl. reflexivity. }
  split.
  { unfold RentalVariantService.deleteOptionValue. apply atomicPhase_ok.
    unfold bind, get. rewrite Hfind1. reflexivity. }
  split; [exact Hfind2|]. split.
  { unfold load_option_values. rewrite Hrows2, filter_app. simpl.
    rewrite andb_false_r. apply app_nil_r. }
  unfold RentalVariantService.deleteOptionValue. apply atomicPhase_ok.
  unfold bind, get. rewrite Hfind2. reflexivity.
Qed.

Lemma X26_witness :
  exists row s1 s2,
    RentalVariantService.addOptionValue false "variant_2" "opt_6" "Blue" camp_store
    = (Ok row, s1) /\
    findOne_option_value s1 "variant_2" (Some "opt_6") = Some row /\
    RentalVariantService.deleteOptionValue false "variant_2" "opt_6" s1 = (Ok tt, s2) /\
    load_option_values s2 false "variant_2"
    = load_option_values camp_store false "variant_2".
Proof.
  destruct (addOptionValue_then_deleteOptionValue false camp_store "variant_2" "opt_6"
              "Blue")
    as [row [s1 [s2 [Hadd [_ [Hfind [_ [Hdel [_ [Hsame _]]]]]]]]]].
  - exists small_row. split; [left; reflexivity | reflexivity].
  - exists (mkRentalOptionRow "opt_6" "Size" "rental_5" false).
    split; [right; left; reflexivity | reflexivity].
  - intros ov Hov. vm_compute in Hov.
    destruct Hov as [Hov|[Hov|[]]]; subst ov; discriminate.
  - reflexivity.
  - exists row, s1, s2. repeat split; assumption.
Defined.
